(** * SDL3 I/O stream backport (3rdparty/sdl3_backport/SDL_iostream.c)

    A shallow embedding of the stream layer: the handle operations
    ([SDL_ReadIO], [SDL_WriteIO], [SDL_SeekIO], [SDL_GetIOSize],
    [SDL_CloseIO]), the four backends (file descriptor, stdio, fixed memory,
    growable memory), the bulk helpers ([SDL_LoadFile_IO],
    [SDL_SaveFile_IO]), the fixed-width readers and writers, and the
    functions on named files ([SDL_IOFromFile], [_SDL_LoadFile],
    [SDL_SaveFile]).

    Conventions.
    - Pointers are addresses in [Z]; [0] is [NULL].  Pointer arithmetic
      wraps at 64 bits ([ptr_add]), [size_t] arithmetic wraps at 64 bits
      ([to_size_t]).
    - The one stream under consideration is part of the machine state
      [State]: its fields [userdata], [status] and [props] are what the C
      code reaches through [context->...] (and, for the growable backend,
      through the back pointer [iodata->stream]).  A handle value carries
      the function table [iface].
    - Everything the environment decides (allocator results, results of
      system and libc calls, the value a caller sees when a non-void
      function ends without [return]) is read from oracles kept in the
      state.
    - A buffer passed by the caller ([ptr], [size]) is a [list byte]: a read
      returns the bytes it stored at [ptr], a write receives the bytes found
      at [ptr]. *)

From Stdlib Require Import ZArith List Bool Lia.
From Stdlib Require String.
Import String.StringSyntax.
Import ListNotations.
Local Open Scope string_scope.
Local Open Scope list_scope.
Local Open Scope Z_scope.

Definition string : Type := String.string.

Definition byte : Type := Byte.byte.

(** ** Machine integers and pointers *)

Definition SIZE_MAX : Z := 2 ^ 64 - 1.

(** Conversion to [size_t] (unsigned, 64 bits). *)
Definition to_size_t (z : Z) : Z := z mod 2 ^ 64.

(** Conversion to [int] (signed, 32 bits). *)
Definition to_int (z : Z) : Z := (z + 2 ^ 31) mod 2 ^ 32 - 2 ^ 31.

(** [p + off] on a [Uint8 *]. *)
Definition ptr_add (p off : Z) : Z := (p + off) mod 2 ^ 64.

(** ** Enumerations and plain structs *)

Inductive SDL_IOStatus : Type :=
| SDL_IO_STATUS_READY
| SDL_IO_STATUS_ERROR
| SDL_IO_STATUS_EOF
| SDL_IO_STATUS_NOT_READY
| SDL_IO_STATUS_READONLY
| SDL_IO_STATUS_WRITEONLY.

Definition SDL_IOStatus_eqb (a b : SDL_IOStatus) : bool :=
  match a, b with
  | SDL_IO_STATUS_READY, SDL_IO_STATUS_READY
  | SDL_IO_STATUS_ERROR, SDL_IO_STATUS_ERROR
  | SDL_IO_STATUS_EOF, SDL_IO_STATUS_EOF
  | SDL_IO_STATUS_NOT_READY, SDL_IO_STATUS_NOT_READY
  | SDL_IO_STATUS_READONLY, SDL_IO_STATUS_READONLY
  | SDL_IO_STATUS_WRITEONLY, SDL_IO_STATUS_WRITEONLY => true
  | _, _ => false
  end.

(** The three values of the enum; the [default:] branch of the [switch]
    statements over it is not reachable from a value of this type. *)
Inductive SDL_IOWhence : Type :=
| SDL_IO_SEEK_SET
| SDL_IO_SEEK_CUR
| SDL_IO_SEEK_END.

Record SDL_PropertiesID : Type := mkProps {
  memoryPtr : Z;
  memorySize : Z;
  dynamicMemPtr : Z;
  stdioFilePtr : Z;
  fdNumber : Z;
  chunkSize : Z
}.

(** What [SDL_calloc] leaves in a [SDL_PropertiesID]. *)
Definition zero_props : SDL_PropertiesID := mkProps 0 0 0 0 0 0.

Record IOStreamFDData : Type := mkFDData {
  fd : Z;
  fd_autoclose : bool;
  fd_regular_file : bool
}.

Record IOStreamStdioData : Type := mkStdioData {
  fp : Z;
  fp_autoclose : bool;
  fp_regular_file : bool
}.

Record IOStreamMemData : Type := mkMemData {
  base : Z;
  here : Z;
  stop : Z
}.

(** The C struct also holds [stream], the back pointer to the owning
    stream; here that stream is the one of the state. *)
Record IOStreamDynamicMemData : Type := mkDynData {
  data : IOStreamMemData;
  end_ : Z
}.

(** The object behind [void *userdata]. *)
Inductive UserData : Type :=
| UD_none
| UD_fd (d : IOStreamFDData)
| UD_stdio (d : IOStreamStdioData)
| UD_mem (d : IOStreamMemData)
| UD_dynamic (d : IOStreamDynamicMemData).

(** Things that are acquired and released: heap objects, byte buffers,
    descriptors and stdio files. *)
Inductive resource : Type :=
| ResStream
| ResUserdata
| ResBuffer (addr len : Z)
| ResFd (n : Z)
| ResFile (f : Z).

Definition resource_eqb (a b : resource) : bool :=
  match a, b with
  | ResStream, ResStream => true
  | ResUserdata, ResUserdata => true
  | ResBuffer p n, ResBuffer q m => (p =? q) && (n =? m)
  | ResFd n, ResFd m => n =? m
  | ResFile f, ResFile g => f =? g
  | _, _ => false
  end.

(** Answer of the environment to one system or libc call. *)
Record os_result : Type := mkOs {
  os_ret : Z;            (* return value *)
  os_errno : Z;          (* errno left by a failing call *)
  os_bytes : list byte;  (* bytes delivered by a read *)
  os_flag : bool         (* S_ISREG / S_ISFIFO of a stat, result of ferror *)
}.

Definition EINTR : Z := 4.
Definition EIO : Z := 5.
Definition EAGAIN : Z := 11.

(** ** Machine state *)

Record State : Type := mkState {
  userdata : UserData;            (* object behind context->userdata *)
  status : SDL_IOStatus;          (* context->status *)
  props : SDL_PropertiesID;       (* context->props *)
  error : string;                 (* message behind SDL_GetError() *)
  errno : Z;
  memory : Z -> byte;
  live : list resource;
  heap_oracle : list Z;           (* addresses the allocator will return *)
  os_oracle : list os_result;     (* answers to the coming system calls *)
  os_out : list byte;             (* bytes accepted by write()/fwrite() *)
  indeterminate : Z               (* value of a missing return *)
}.

Definition set_userdata (s : State) (v : UserData) : State :=
  mkState v (status s) (props s) (error s) (errno s) (memory s) (live s)
          (heap_oracle s) (os_oracle s) (os_out s) (indeterminate s).
Definition set_status (s : State) (v : SDL_IOStatus) : State :=
  mkState (userdata s) v (props s) (error s) (errno s) (memory s) (live s)
          (heap_oracle s) (os_oracle s) (os_out s) (indeterminate s).
Definition set_props (s : State) (v : SDL_PropertiesID) : State :=
  mkState (userdata s) (status s) v (error s) (errno s) (memory s) (live s)
          (heap_oracle s) (os_oracle s) (os_out s) (indeterminate s).
Definition set_error (s : State) (v : string) : State :=
  mkState (userdata s) (status s) (props s) v (errno s) (memory s) (live s)
          (heap_oracle s) (os_oracle s) (os_out s) (indeterminate s).
Definition set_errno (s : State) (v : Z) : State :=
  mkState (userdata s) (status s) (props s) (error s) v (memory s) (live s)
          (heap_oracle s) (os_oracle s) (os_out s) (indeterminate s).
Definition set_memory (s : State) (v : Z -> byte) : State :=
  mkState (userdata s) (status s) (props s) (error s) (errno s) v (live s)
          (heap_oracle s) (os_oracle s) (os_out s) (indeterminate s).
Definition set_live (s : State) (v : list resource) : State :=
  mkState (userdata s) (status s) (props s) (error s) (errno s) (memory s) v
          (heap_oracle s) (os_oracle s) (os_out s) (indeterminate s).
Definition set_heap_oracle (s : State) (v : list Z) : State :=
  mkState (userdata s) (status s) (props s) (error s) (errno s) (memory s)
          (live s) v (os_oracle s) (os_out s) (indeterminate s).
Definition set_os_oracle (s : State) (v : list os_result) : State :=
  mkState (userdata s) (status s) (props s) (error s) (errno s) (memory s)
          (live s) (heap_oracle s) v (os_out s) (indeterminate s).
Definition set_os_out (s : State) (v : list byte) : State :=
  mkState (userdata s) (status s) (props s) (error s) (errno s) (memory s)
          (live s) (heap_oracle s) (os_oracle s) v (indeterminate s).

(** ** The state monad the C functions run in *)

Definition M (A : Type) : Type := State -> A * State.

Definition ret {A} (a : A) : M A := fun s => (a, s).

Definition bind {A B} (m : M A) (k : A -> M B) : M B :=
  fun s => let (a, s') := m s in k a s'.

Definition get : M State := fun s => (s, s).

Definition modify (f : State -> State) : M unit := fun s => (tt, f s).

Notation "x <- c1 ;; c2" := (bind c1 (fun x => c2))
  (at level 61, c1 at next level, right associativity).
Notation "c1 ;; c2" := (bind c1 (fun _ => c2))
  (at level 61, right associativity).

(** ** Library functions declared outside this file *)

(** Modelled from the spec: [SDL_SetError], declared in the SDL headers, is
    the "error-message sink that the failure paths write human-readable
    diagnostics into"; it stores the message and yields the false value. *)
Definition SDL_SetError (msg : string) : M bool :=
  modify (fun s => set_error s msg) ;; ret false.

Definition SDL_ClearError : M unit := modify (fun s => set_error s String.EmptyString).

(** [*SDL_GetError()]: is a message set? *)
Definition SDL_GetError_nonempty : M bool :=
  s <- get ;; ret (negb (String.eqb (error s) String.EmptyString)).

Definition SDL_InvalidParamError (param : string) : M bool :=
  SDL_SetError (String.append "Parameter '" (String.append param "' is invalid")).

Definition SDL_Unsupported : M bool :=
  SDL_SetError "That operation is not supported".

(** [SDL_Delay(1)] has no effect on the state. *)
Definition SDL_Delay (ms : Z) : M unit := ret tt.

(** *** Memory *)

(** The [n] bytes at [p]. *)
Definition load (m : Z -> byte) (p n : Z) : list byte :=
  map (fun i => m (p + Z.of_nat i)) (seq 0 (Z.to_nat n)).

(** [m] with the bytes [bs] stored at [p]. *)
Definition store (m : Z -> byte) (p : Z) (bs : list byte) : Z -> byte :=
  fun a =>
    if (p <=? a) && (a <? p + Z.of_nat (length bs))
    then nth (Z.to_nat (a - p)) bs Byte.x00
    else m a.

(** The first [n] bytes of a caller buffer. *)
Definition take (n : Z) (buf : list byte) : list byte := firstn (Z.to_nat n) buf.

(** The caller buffer from offset [n] on ([ptr + n]). *)
Definition drop (n : Z) (buf : list byte) : list byte := skipn (Z.to_nat n) buf.

(** *** Allocator *)

Definition acquire (r : resource) : M unit :=
  modify (fun s => set_live s (r :: live s)).

Fixpoint remove_first (r : resource) (l : list resource) : list resource :=
  match l with
  | [] => []
  | x :: l' => if resource_eqb r x then l' else x :: remove_first r l'
  end.

Definition release (r : resource) : M unit :=
  modify (fun s => set_live s (remove_first r (live s))).

(** Next address handed out by the allocator; [0] when it has none. *)
Definition next_address : M Z :=
  fun s => match heap_oracle s with
           | [] => (0, s)
           | p :: rest => (p, set_heap_oracle s rest)
           end.

(** [SDL_calloc(1, sizeof(...))] for one of the two structs of a stream,
    which are held by value in the state: only success matters. *)
Definition SDL_calloc (r : resource) : M bool :=
  p <- next_address ;;
  if p =? 0 then ret false else acquire r ;; ret true.

Definition SDL_free (r : resource) : M unit := release r.

(** Length of the live buffer at [p], [0] if there is none. *)
Fixpoint buffer_len (p : Z) (l : list resource) : Z :=
  match l with
  | [] => 0
  | ResBuffer q n :: l' => if p =? q then n else buffer_len p l'
  | _ :: l' => buffer_len p l'
  end.

Definition SDL_malloc (len : Z) : M Z :=
  p <- next_address ;;
  if p =? 0 then ret 0 else acquire (ResBuffer p len) ;; ret p.

(** [SDL_realloc(old, len)]: on success the old contents (as far as they
    fit) are found at the new address and the old buffer is gone; on failure
    nothing changes. *)
Definition SDL_realloc (old len : Z) : M Z :=
  p <- next_address ;;
  if p =? 0 then ret 0
  else
    s <- get ;;
    let oldlen := buffer_len old (live s) in
    modify (fun s => set_memory s
              (store (memory s) p (load (memory s) old (Z.min oldlen len)))) ;;
    release (ResBuffer old oldlen) ;;
    acquire (ResBuffer p len) ;;
    ret p.

(** [SDL_free] of a byte buffer. *)
Definition SDL_free_buffer (p : Z) : M unit :=
  s <- get ;; release (ResBuffer p (buffer_len p (live s))).

(** *** System and libc calls *)

(** One call: the environment's next answer, a failure with [EIO] when it
    has none left.  A negative result sets [errno]. *)
Definition oscall : M os_result :=
  fun s =>
    match os_oracle s with
    | [] => (mkOs (-1) EIO [] false, set_errno s EIO)
    | r :: rest =>
        (r, set_os_oracle (if os_ret r <? 0 then set_errno s (os_errno r) else s) rest)
    end.

(** [read(fd, ptr, size)]: the count and the bytes stored at [ptr]. *)
Definition sys_read (size : Z) : M (Z * list byte) :=
  r <- oscall ;;
  if os_ret r <? 0 then ret (-1, [])
  else let bs := take size (os_bytes r) in ret (Z.of_nat (length bs), bs).

(** [write(fd, ptr, size)]: the count of bytes of [buf] accepted. *)
Definition sys_write (buf : list byte) (size : Z) : M Z :=
  r <- oscall ;;
  if os_ret r <? 0 then ret (-1)
  else
    let bs := take (Z.min (os_ret r) size) buf in
    modify (fun s => set_os_out s (os_out s ++ bs)) ;;
    ret (Z.of_nat (length bs)).

(** [lseek], [fdatasync], [fseek], [ftell], [fflush], [fileno]: the
    environment's return value. *)
Definition sys_value : M Z := r <- oscall ;; ret (os_ret r).

(** [fstat(fd, &st) == 0 && S_ISREG(st.st_mode)], and [ferror(fp)]. *)
Definition sys_test : M bool :=
  r <- oscall ;; ret ((os_ret r =? 0) && os_flag r).

(** [close(fd)] / [fclose(fp)]: the resource is gone when the call
    succeeds. *)
Definition sys_close (r : resource) : M Z :=
  v <- sys_value ;;
  (if v =? 0 then release r else ret tt) ;;
  ret v.

(** ** The interface table and the handle *)

(** [SDL_IOStreamInterface].  Each function works on the stream of the
    state: [userdata] and [&context->status] are not passed, they are the
    state's.  A [read] yields the bytes it stored at [ptr], its count being
    their number; a [write] receives the bytes at [ptr]. *)
Record SDL_IOStreamInterface : Type := mkIface {
  version : Z;
  size : option (M Z);
  seek : option (Z -> SDL_IOWhence -> M Z);
  read : option (Z -> M (list byte));
  write : option (list byte -> Z -> M Z);
  flush : option (M bool);
  close : option (M bool)
}.

(** [sizeof(SDL_IOStreamInterface)]: a 32-bit version and six pointers. *)
Definition sizeof_SDL_IOStreamInterface : Z := 56.

(** A zero-filled interface (what [SDL_calloc] or [memset] leave). *)
Definition zero_iface : SDL_IOStreamInterface :=
  mkIface 0 None None None None None None.

(** [struct SDL_IOStream]; its fields [userdata], [status], [props] are in
    the state. *)
Record SDL_IOStream : Type := mkStream {
  iface : SDL_IOStreamInterface
}.

Definition set_memoryPtr (p : SDL_PropertiesID) (v : Z) : SDL_PropertiesID :=
  mkProps v (memorySize p) (dynamicMemPtr p) (stdioFilePtr p) (fdNumber p) (chunkSize p).
Definition set_memorySize (p : SDL_PropertiesID) (v : Z) : SDL_PropertiesID :=
  mkProps (memoryPtr p) v (dynamicMemPtr p) (stdioFilePtr p) (fdNumber p) (chunkSize p).
Definition set_stdioFilePtr (p : SDL_PropertiesID) (v : Z) : SDL_PropertiesID :=
  mkProps (memoryPtr p) (memorySize p) (dynamicMemPtr p) v (fdNumber p) (chunkSize p).
Definition set_fdNumber (p : SDL_PropertiesID) (v : Z) : SDL_PropertiesID :=
  mkProps (memoryPtr p) (memorySize p) (dynamicMemPtr p) (stdioFilePtr p) v (chunkSize p).

(** [(T * ) userdata]: the object behind the pointer seen with the type the
    function casts it to. *)
Definition as_fd (u : UserData) : IOStreamFDData :=
  match u with UD_fd d => d | _ => mkFDData 0 false false end.
Definition as_stdio (u : UserData) : IOStreamStdioData :=
  match u with UD_stdio d => d | _ => mkStdioData 0 false false end.
Definition as_mem (u : UserData) : IOStreamMemData :=
  match u with UD_mem d => d | _ => mkMemData 0 0 0 end.
Definition as_dynamic (u : UserData) : IOStreamDynamicMemData :=
  match u with UD_dynamic d => d | _ => mkDynData (mkMemData 0 0 0) 0 end.

(** Calling a function on [userdata] that only reads its object. *)
Definition on_userdata {T A} (cast : UserData -> T) (f : T -> M A) : M A :=
  s <- get ;; f (cast (userdata s)).

(** Calling a function on [userdata] that updates its object in place. *)
Definition in_userdata {T A} (cast : UserData -> T) (wrap : T -> UserData)
    (f : T -> M (A * T)) : M A :=
  s <- get ;;
  r <- f (cast (userdata s)) ;;
  modify (fun s => set_userdata s (wrap (snd r))) ;;
  ret (fst r).

(** [SDL_OpenIO].  The stream is zero-filled by [SDL_calloc] and only its
    [userdata] is assigned: the line copying [*iface] into [iostr->iface] is
    commented out in the source. *)
Definition SDL_OpenIO (iface : option SDL_IOStreamInterface) (ud : UserData)
  : M (option SDL_IOStream) :=
  match iface with
  | None => SDL_InvalidParamError "iface" ;; ret None
  | Some i =>
      if version i <? sizeof_SDL_IOStreamInterface then
        SDL_SetError "Invalid interface, should be initialized with SDL_INIT_INTERFACE()" ;;
        ret None
      else
        ok <- SDL_calloc ResStream ;;
        if ok then
          modify (fun s => set_props (set_status s SDL_IO_STATUS_READY) zero_props) ;;
          modify (fun s => set_userdata s ud) ;;
          ret (Some (mkStream zero_iface))
        else ret None
  end.

(** ** File-descriptor backend *)

(** [do { r = call; } while (r < 0 && errno == EINTR);].  Every call
    consumes one answer of the environment and the answer to a call made
    after the last one is not [EINTR], so as many rounds as there are
    answers left never cut the loop short. *)
Fixpoint retry_eintr {A} (rounds : nat) (call : M A) (failed : A -> bool) : M A :=
  r <- call ;;
  s <- get ;;
  match rounds with
  | O => ret r
  | S rounds' =>
      if failed r && (errno s =? EINTR) then retry_eintr rounds' call failed
      else ret r
  end.

Definition do_while_eintr {A} (call : M A) (failed : A -> bool) : M A :=
  s <- get ;; retry_eintr (length (os_oracle s)) call failed.

Definition fd_seek (iodata : IOStreamFDData) (offset : Z) (whence : SDL_IOWhence) : M Z :=
  result <- sys_value ;;   (* lseek(iodata->fd, offset, fdwhence) *)
  (if result <? 0 then SDL_SetError "Couldn't get stream offset" else ret true) ;;
  ret result.

Definition fd_read (iodata : IOStreamFDData) (size : Z) : M (list byte) :=
  r <- do_while_eintr (sys_read size) (fun r => fst r <? 0) ;;
  if fst r <? 0 then
    s <- get ;;
    (if errno s =? EAGAIN
     then modify (fun s => set_status s SDL_IO_STATUS_NOT_READY) ;; ret true
     else SDL_SetError "Error reading from datastream") ;;
    ret []
  else ret (snd r).

Definition fd_write (iodata : IOStreamFDData) (ptr : list byte) (size : Z) : M Z :=
  bytes <- do_while_eintr (sys_write ptr size) (fun r => r <? 0) ;;
  if bytes <? 0 then
    s <- get ;;
    (if errno s =? EAGAIN
     then modify (fun s => set_status s SDL_IO_STATUS_NOT_READY) ;; ret true
     else SDL_SetError "Error writing to datastream") ;;
    ret 0
  else ret bytes.

(** [SDL_fdatasync]: the platform's sync primitive; where there is none the
    result is [0], an answer the environment can give as well. *)
Definition SDL_fdatasync (fd : Z) : M Z := sys_value.

Definition fd_flush (iodata : IOStreamFDData) : M bool :=
  result <- do_while_eintr (SDL_fdatasync (fd iodata)) (fun r => r <? 0) ;;
  if result <? 0 then SDL_SetError "Error flushing datastream"
  else ret true.

Definition fd_close (iodata : IOStreamFDData) : M bool :=
  status <- (if fd_autoclose iodata then
               r <- sys_close (ResFd (fd iodata)) ;;
               if r <? 0 then SDL_SetError "Error closing datastream" else ret true
             else ret true) ;;
  SDL_free ResUserdata ;;
  ret status.

(** The table [SDL_IOFromFD] fills in ([iface.size] stays null). *)
Definition fd_interface : SDL_IOStreamInterface :=
  mkIface sizeof_SDL_IOStreamInterface
    None
    (Some (fun offset whence => on_userdata as_fd (fun d => fd_seek d offset whence)))
    (Some (fun size => on_userdata as_fd (fun d => fd_read d size)))
    (Some (fun ptr size => on_userdata as_fd (fun d => fd_write d ptr size)))
    (Some (on_userdata as_fd fd_flush))
    (Some (on_userdata as_fd fd_close)).

Definition SDL_IOFromFD (fd : Z) (autoclose : bool) : M (option SDL_IOStream) :=
  ok <- SDL_calloc ResUserdata ;;
  if negb ok then
    (if autoclose then sys_close (ResFd fd) else ret 0) ;;
    ret None
  else
    let iface := fd_interface in
    regular_file <- sys_test ;;   (* fstat(fd, &st) == 0 && S_ISREG(st.st_mode) *)
    let iodata := mkFDData fd autoclose regular_file in
    modify (fun s => set_userdata s (UD_fd iodata)) ;;
    iostr <- SDL_OpenIO (Some iface) (UD_fd iodata) ;;
    match iostr with
    | None => fd_close iodata ;; ret iostr
    | Some _ =>
        modify (fun s => set_props s (set_fdNumber (props s) fd)) ;;
        ret iostr
    end.

(** ** stdio backend *)

(** [fread(ptr, 1, size, fp)]. *)
Definition sys_fread (size : Z) : M (list byte) :=
  r <- sys_read size ;; ret (snd r).

(** [fwrite(ptr, 1, size, fp)]. *)
Definition sys_fwrite (ptr : list byte) (size : Z) : M Z :=
  r <- sys_write ptr size ;; ret (Z.max 0 r).

Section Stdio.

(** [FSEEK_OFF_MIN] and [FSEEK_OFF_MAX], where the platform defines
    them. *)
Variable FSEEK_OFF_RANGE : option (Z * Z).

Definition stdio_seek (iodata : IOStreamStdioData) (offset : Z) (whence : SDL_IOWhence)
  : M Z :=
  let out_of_range :=
    match FSEEK_OFF_RANGE with
    | Some (lo, hi) => (offset <? lo) || (offset >? hi)
    | None => false
    end in
  if out_of_range then SDL_SetError "Seek offset out of range" ;; ret (-1)
  else
    let is_noop :=
      match whence with SDL_IO_SEEK_CUR => offset =? 0 | _ => false end in
    sought <- (if is_noop then ret true else r <- sys_value ;; ret (r =? 0)) ;;
    if sought then
      pos <- sys_value ;;   (* ftell(iodata->fp) *)
      if pos <? 0 then SDL_SetError "Couldn't get stream offset" ;; ret (-1)
      else ret pos
    else SDL_SetError "Error seeking in datastream" ;; ret (-1).

(** [clearerr] has no counterpart: what [ferror] answers is the
    environment's. *)
Definition stdio_read (iodata : IOStreamStdioData) (size : Z) : M (list byte) :=
  bytes <- sys_fread size ;;
  match bytes with
  | [] =>
      failed <- sys_test ;;   (* ferror(iodata->fp) *)
      (if failed then
         s <- get ;;
         if errno s =? EAGAIN
         then modify (fun s => set_status s SDL_IO_STATUS_NOT_READY) ;; ret true
         else SDL_SetError "Error reading from datastream"
       else ret true) ;;
      ret bytes
  | _ => ret bytes
  end.

Definition stdio_write (iodata : IOStreamStdioData) (ptr : list byte) (size : Z) : M Z :=
  bytes <- sys_fwrite ptr size ;;
  if bytes =? 0 then
    failed <- sys_test ;;   (* ferror(iodata->fp) *)
    (if failed then
       s <- get ;;
       if errno s =? EAGAIN
       then modify (fun s => set_status s SDL_IO_STATUS_NOT_READY) ;; ret true
       else SDL_SetError "Error writing to datastream"
     else ret true) ;;
    ret bytes
  else ret bytes.

Definition stdio_flush (iodata : IOStreamStdioData) : M bool :=
  flushed <- sys_value ;;   (* fflush(iodata->fp) *)
  if negb (flushed =? 0) then
    s <- get ;;
    if errno s =? EAGAIN
    then modify (fun s => set_status s SDL_IO_STATUS_NOT_READY) ;; ret false
    else SDL_SetError "Error flushing datastream"
  else
    fd <- sys_value ;;      (* fileno(iodata->fp) *)
    result <- do_while_eintr (SDL_fdatasync fd) (fun r => r <? 0) ;;
    if result <? 0 then SDL_SetError "Error flushing datastream"
    else ret true.

Definition stdio_close (iodata : IOStreamStdioData) : M bool :=
  status <- (if fp_autoclose iodata then
               r <- sys_close (ResFile (fp iodata)) ;;
               if negb (r =? 0) then SDL_SetError "Error closing datastream" else ret true
             else ret true) ;;
  SDL_free ResUserdata ;;
  ret status.

(** The table [SDL_IOFromFP] fills in ([iface.size] stays null). *)
Definition stdio_interface : SDL_IOStreamInterface :=
  mkIface sizeof_SDL_IOStreamInterface
    None
    (Some (fun offset whence => on_userdata as_stdio (fun d => stdio_seek d offset whence)))
    (Some (fun size => on_userdata as_stdio (fun d => stdio_read d size)))
    (Some (fun ptr size => on_userdata as_stdio (fun d => stdio_write d ptr size)))
    (Some (on_userdata as_stdio stdio_flush))
    (Some (on_userdata as_stdio stdio_close)).

Definition SDL_IOFromFP (fp : Z) (autoclose : bool) : M (option SDL_IOStream) :=
  ok <- SDL_calloc ResUserdata ;;
  if negb ok then
    (if autoclose then sys_close (ResFile fp) else ret 0) ;;
    ret None
  else
    let iface := stdio_interface in
    fno <- sys_value ;;           (* fileno(fp) *)
    regular_file <- sys_test ;;   (* fstat(..., &st) == 0 && S_ISREG(st.st_mode) *)
    let iodata := mkStdioData fp autoclose regular_file in
    modify (fun s => set_userdata s (UD_stdio iodata)) ;;
    iostr <- SDL_OpenIO (Some iface) (UD_stdio iodata) ;;
    match iostr with
    | None => stdio_close iodata ;; ret iostr
    | Some _ =>
        modify (fun s => set_props s (set_stdioFilePtr (props s) fp)) ;;
        fno' <- sys_value ;;      (* fileno(fp) *)
        modify (fun s => set_props s (set_fdNumber (props s) fno')) ;;
        ret iostr
    end.

End Stdio.

(** ** Fixed-memory backend *)

Definition set_here (d : IOStreamMemData) (v : Z) : IOStreamMemData :=
  mkMemData (base d) v (stop d).
Definition set_stop (d : IOStreamMemData) (v : Z) : IOStreamMemData :=
  mkMemData (base d) (here d) v.

Definition mem_size (iodata : IOStreamMemData) : Z :=
  stop iodata - base iodata.

Definition mem_seek (iodata : IOStreamMemData) (offset : Z) (whence : SDL_IOWhence)
  : Z * IOStreamMemData :=
  let newpos :=
    match whence with
    | SDL_IO_SEEK_SET => ptr_add (base iodata) offset
    | SDL_IO_SEEK_CUR => ptr_add (here iodata) offset
    | SDL_IO_SEEK_END => ptr_add (stop iodata) offset
    end in
  let newpos := if newpos <? base iodata then base iodata else newpos in
  let newpos := if newpos >? stop iodata then stop iodata else newpos in
  let iodata := set_here iodata newpos in
  (here iodata - base iodata, iodata).

(** The two uses of [mem_io]: [dst] is the caller's buffer and [src] the
    cursor, or [dst] is the cursor and [src] the caller's buffer [ptr]. *)
Inductive transfer : Type :=
| ToCaller
| FromCaller (ptr : list byte).

(** [mem_io]: the count, the bytes stored in the caller's buffer (none when
    the caller's buffer is the source), and the object with its cursor
    advanced. *)
Definition mem_io (iodata : IOStreamMemData) (xfer : transfer) (size : Z)
  : M (Z * list byte * IOStreamMemData) :=
  let mem_available := to_size_t (stop iodata - here iodata) in
  let size := if size >? mem_available then mem_available else size in
  copied <- match xfer with
            | ToCaller =>
                s <- get ;; ret (load (memory s) (here iodata) size)
            | FromCaller ptr =>
                modify (fun s => set_memory s
                          (store (memory s) (here iodata) (take size ptr))) ;;
                ret []
            end ;;
  ret (size, copied, set_here iodata (ptr_add (here iodata) size)).

Definition mem_read (iodata : IOStreamMemData) (size : Z)
  : M (list byte * IOStreamMemData) :=
  r <- mem_io iodata ToCaller size ;;
  ret (snd (fst r), snd r).

Definition mem_write (iodata : IOStreamMemData) (ptr : list byte) (size : Z)
  : M (Z * IOStreamMemData) :=
  r <- mem_io iodata (FromCaller ptr) size ;;
  ret (fst (fst r), snd r).

Definition mem_close : M bool :=
  SDL_free ResUserdata ;; ret true.

(** The functions as they are entered in an interface table. *)
Definition mem_size_fn : M Z :=
  on_userdata as_mem (fun d => ret (mem_size d)).
Definition mem_seek_fn (offset : Z) (whence : SDL_IOWhence) : M Z :=
  in_userdata as_mem UD_mem (fun d => ret (mem_seek d offset whence)).
Definition mem_read_fn (size : Z) : M (list byte) :=
  in_userdata as_mem UD_mem (fun d => mem_read d size).
Definition mem_write_fn (ptr : list byte) (size : Z) : M Z :=
  in_userdata as_mem UD_mem (fun d => mem_write d ptr size).

(** The table [SDL_IOFromMem] fills in. *)
Definition mem_interface : SDL_IOStreamInterface :=
  mkIface sizeof_SDL_IOStreamInterface
    (Some mem_size_fn) (Some mem_seek_fn) (Some mem_read_fn)
    (Some mem_write_fn) None (Some mem_close).

(** The table [SDL_IOFromConstMem] fills in: [iface.write] is left null. *)
Definition const_mem_interface : SDL_IOStreamInterface :=
  mkIface sizeof_SDL_IOStreamInterface
    (Some mem_size_fn) (Some mem_seek_fn) (Some mem_read_fn)
    None None (Some mem_close).

Definition SDL_IOFromMem (mem size : Z) : M (option SDL_IOStream) :=
  if mem =? 0 then SDL_InvalidParamError "mem" ;; ret None
  else if size =? 0 then SDL_InvalidParamError "size" ;; ret None
  else
    ok <- SDL_calloc ResUserdata ;;
    if negb ok then ret None
    else
      let iface := mem_interface in
      let iodata := mkMemData mem mem (ptr_add mem size) in
      modify (fun s => set_userdata s (UD_mem iodata)) ;;
      iostr <- SDL_OpenIO (Some iface) (UD_mem iodata) ;;
      match iostr with
      | None => SDL_free ResUserdata ;; ret iostr
      | Some _ =>
          modify (fun s => set_props s (set_memoryPtr (props s) mem)) ;;
          modify (fun s => set_props s (set_memorySize (props s) (to_int size))) ;;
          ret iostr
      end.

Definition SDL_IOFromConstMem (mem size : Z) : M (option SDL_IOStream) :=
  if mem =? 0 then SDL_InvalidParamError "mem" ;; ret None
  else if size =? 0 then SDL_InvalidParamError "size" ;; ret None
  else
    ok <- SDL_calloc ResUserdata ;;
    if negb ok then ret None
    else
      let iface := const_mem_interface in
      let iodata := mkMemData mem mem (ptr_add mem size) in
      modify (fun s => set_userdata s (UD_mem iodata)) ;;
      iostr <- SDL_OpenIO (Some iface) (UD_mem iodata) ;;
      match iostr with
      | None => SDL_free ResUserdata ;; ret iostr
      | Some _ =>
          modify (fun s => set_props s (set_memoryPtr (props s) mem)) ;;
          modify (fun s => set_props s (set_memorySize (props s) (to_int size))) ;;
          ret iostr
      end.

(** ** Growable-memory backend *)

Definition set_data (d : IOStreamDynamicMemData) (v : IOStreamMemData)
  : IOStreamDynamicMemData := mkDynData v (end_ d).

Definition dynamic_mem_size (iodata : IOStreamDynamicMemData) : Z :=
  mem_size (data iodata).

Definition dynamic_mem_seek (iodata : IOStreamDynamicMemData) (offset : Z)
    (whence : SDL_IOWhence) : Z * IOStreamDynamicMemData :=
  let r := mem_seek (data iodata) offset whence in
  (fst r, set_data iodata (snd r)).

Definition dynamic_mem_read (iodata : IOStreamDynamicMemData) (size : Z)
  : M (list byte * IOStreamDynamicMemData) :=
  r <- mem_io (data iodata) ToCaller size ;;
  ret (snd (fst r), set_data iodata (snd r)).

(** [dynamic_mem_realloc].  The source returns [SDL_FALSE] when
    [SDL_realloc] fails; on the other path its [return] statement is
    commented out, so the function ends without returning a value and the
    caller tests an indeterminate one. *)
Definition dynamic_mem_realloc (iodata : IOStreamDynamicMemData) (size : Z)
  : M (bool * IOStreamDynamicMemData) :=
  s <- get ;;
  let chunksize := to_size_t (chunkSize (props s)) in
  let chunksize := if chunksize =? 0 then 1024 else chunksize in
  let chunks :=
    to_size_t (to_size_t (to_size_t (end_ iodata - base (data iodata)) + size)
               / chunksize + 1) in
  let length := to_size_t (chunks * chunksize) in
  newbase <- SDL_realloc (base (data iodata)) length ;;
  if newbase =? 0 then ret (false, iodata)
  else
    let here_offset := to_size_t (here (data iodata) - base (data iodata)) in
    let stop_offset := to_size_t (stop (data iodata) - base (data iodata)) in
    let iodata :=
      mkDynData (mkMemData newbase (ptr_add newbase here_offset)
                           (ptr_add newbase stop_offset))
                (ptr_add newbase length) in
    modify (fun s => set_props s (set_memoryPtr (props s) newbase)) ;;
    s <- get ;;
    ret (negb (indeterminate s =? 0), iodata).

Definition dynamic_mem_write (iodata : IOStreamDynamicMemData) (ptr : list byte)
    (size : Z) : M (Z * IOStreamDynamicMemData) :=
  let finish (iodata : IOStreamDynamicMemData) :=
    r <- mem_io (data iodata) (FromCaller ptr) size ;;
    ret (fst (fst r), set_data iodata (snd r)) in
  if size >? to_size_t (stop (data iodata) - here (data iodata)) then
    grown <- (if size >? to_size_t (end_ iodata - here (data iodata))
              then dynamic_mem_realloc iodata size
              else ret (true, iodata)) ;;
    if negb (fst grown) then ret (0, snd grown)
    else
      let iodata := snd grown in
      finish (set_data iodata
                (set_stop (data iodata) (ptr_add (here (data iodata)) size)))
  else finish iodata.

Definition dynamic_mem_close (iodata : IOStreamDynamicMemData) : M bool :=
  s <- get ;;
  let mem := memoryPtr (props s) in
  (if negb (mem =? 0) then SDL_free_buffer mem else ret tt) ;;
  SDL_free ResUserdata ;;
  ret true.

Definition dynamic_mem_size_fn : M Z :=
  on_userdata as_dynamic (fun d => ret (dynamic_mem_size d)).
Definition dynamic_mem_seek_fn (offset : Z) (whence : SDL_IOWhence) : M Z :=
  in_userdata as_dynamic UD_dynamic (fun d => ret (dynamic_mem_seek d offset whence)).
Definition dynamic_mem_read_fn (size : Z) : M (list byte) :=
  in_userdata as_dynamic UD_dynamic (fun d => dynamic_mem_read d size).
Definition dynamic_mem_write_fn (ptr : list byte) (size : Z) : M Z :=
  in_userdata as_dynamic UD_dynamic (fun d => dynamic_mem_write d ptr size).

(** The table [SDL_IOFromDynamicMem] fills in. *)
Definition dynamic_mem_interface : SDL_IOStreamInterface :=
  mkIface sizeof_SDL_IOStreamInterface
    (Some dynamic_mem_size_fn) (Some dynamic_mem_seek_fn)
    (Some dynamic_mem_read_fn) (Some dynamic_mem_write_fn) None
    (Some (on_userdata as_dynamic dynamic_mem_close)).

Definition SDL_IOFromDynamicMem : M (option SDL_IOStream) :=
  ok <- SDL_calloc ResUserdata ;;
  if negb ok then ret None
  else
    let iface := dynamic_mem_interface in
    let iodata := mkDynData (mkMemData 0 0 0) 0 in
    modify (fun s => set_userdata s (UD_dynamic iodata)) ;;
    iostr <- SDL_OpenIO (Some iface) (UD_dynamic iodata) ;;
    match iostr with
    | Some _ => ret iostr
    | None => SDL_free ResUserdata ;; ret iostr
    end.

(** ** Handle operations *)

Definition SDL_GetIOStatus (context : option SDL_IOStream) : M SDL_IOStatus :=
  match context with
  | None => SDL_InvalidParamError "context" ;; ret SDL_IO_STATUS_ERROR
  | Some _ => s <- get ;; ret (status s)
  end.

Definition SDL_CloseIO (iostr : option SDL_IOStream) : M bool :=
  match iostr with
  | Some io =>
      result <- match close (iface io) with
                | Some f => f
                | None => ret true
                end ;;
      SDL_free ResStream ;;
      ret result
  | None => ret true
  end.

Definition SDL_SeekIO (context : option SDL_IOStream) (offset : Z)
    (whence : SDL_IOWhence) : M Z :=
  match context with
  | None => SDL_InvalidParamError "context" ;; ret (-1)
  | Some io =>
      match seek (iface io) with
      | None => SDL_Unsupported ;; ret (-1)
      | Some f => f offset whence
      end
  end.

Definition SDL_TellIO (context : option SDL_IOStream) : M Z :=
  SDL_SeekIO context 0 SDL_IO_SEEK_CUR.

Definition SDL_GetIOSize (context : option SDL_IOStream) : M Z :=
  match context with
  | None => b <- SDL_InvalidParamError "context" ;; ret (if b then 1 else 0)
  | Some io =>
      match size (iface io) with
      | None =>
          pos <- SDL_SeekIO context 0 SDL_IO_SEEK_CUR ;;
          if pos <? 0 then ret (-1)
          else
            size <- SDL_SeekIO context 0 SDL_IO_SEEK_END ;;
            SDL_SeekIO context pos SDL_IO_SEEK_SET ;;
            ret size
      | Some f => f
      end
  end.

Definition SDL_ReadIO (context : option SDL_IOStream) (size : Z) : M (list byte) :=
  match context with
  | None => SDL_InvalidParamError "context" ;; ret []
  | Some io =>
      match read (iface io) with
      | None =>
          modify (fun s => set_status s SDL_IO_STATUS_WRITEONLY) ;;
          SDL_Unsupported ;;
          ret []
      | Some f =>
          modify (fun s => set_status s SDL_IO_STATUS_READY) ;;
          SDL_ClearError ;;
          if size =? 0 then ret []
          else
            bytes <- f size ;;
            s <- get ;;
            (match bytes, status s with
             | [], SDL_IO_STATUS_READY =>
                 msg <- SDL_GetError_nonempty ;;
                 if msg
                 then modify (fun s => set_status s SDL_IO_STATUS_ERROR)
                 else modify (fun s => set_status s SDL_IO_STATUS_EOF)
             | _, _ => ret tt
             end) ;;
            ret bytes
      end
  end.

Definition SDL_WriteIO (context : option SDL_IOStream) (ptr : list byte) (size : Z)
  : M Z :=
  match context with
  | None => SDL_InvalidParamError "context" ;; ret 0
  | Some io =>
      match write (iface io) with
      | None =>
          modify (fun s => set_status s SDL_IO_STATUS_READONLY) ;;
          SDL_Unsupported ;;
          ret 0
      | Some f =>
          modify (fun s => set_status s SDL_IO_STATUS_READY) ;;
          SDL_ClearError ;;
          if size =? 0 then ret 0
          else
            bytes <- f ptr size ;;
            s <- get ;;
            (if (bytes =? 0) && SDL_IOStatus_eqb (status s) SDL_IO_STATUS_READY
             then modify (fun s => set_status s SDL_IO_STATUS_ERROR)
             else ret tt) ;;
            ret bytes
      end
  end.

Definition SDL_FlushIO (context : option SDL_IOStream) : M bool :=
  match context with
  | None => SDL_InvalidParamError "context"
  | Some io =>
      modify (fun s => set_status s SDL_IO_STATUS_READY) ;;
      SDL_ClearError ;;
      result <- match flush (iface io) with
                | Some f => f
                | None => ret true
                end ;;
      s <- get ;;
      (if negb result && SDL_IOStatus_eqb (status s) SDL_IO_STATUS_READY
       then modify (fun s => set_status s SDL_IO_STATUS_ERROR)
       else ret tt) ;;
      ret result
  end.

(** ** Bulk helpers *)

Definition FILE_CHUNK_SIZE : Z := 1024.

(** The buffer [SDL_LoadFile_IO] builds: its address, the length last
    requested from the allocator, and the bytes stored in it so far, from
    its start. *)
Record buffer : Type := mkBuffer {
  buf_addr : Z;
  buf_len : Z;
  buf_bytes : list byte
}.

(** Storing [bs] at [data + off]. *)
Definition store_at (b : buffer) (off : Z) (bs : list byte) : buffer :=
  mkBuffer (buf_addr b) (buf_len b) (take off (buf_bytes b) ++ bs).

(** What [SDL_LoadFile_IO] hands back: [data] ([None] for [NULL]) and the
    value stored in [*datasize]. *)
Definition loaded : Type := (option buffer * Z)%type.

(** The [for (;;)] loop of [SDL_LoadFile_IO]; [None] when [rounds] rounds
    did not reach its end. *)
Fixpoint SDL_LoadFile_IO_loop (rounds : nat) (src : option SDL_IOStream)
    (loading_chunks : bool) (size size_total : Z) (data : buffer)
  : M (option loaded) :=
  match rounds with
  | O => ret None
  | S rounds' =>
      grown <-
        (if loading_chunks && (size_total + FILE_CHUNK_SIZE >? size) then
           let size := size_total + FILE_CHUNK_SIZE in
           newdata <- (if to_size_t size >=? SIZE_MAX - 1 then ret 0
                       else SDL_realloc (buf_addr data) (to_size_t (size + 1))) ;;
           if newdata =? 0 then
             SDL_free_buffer (buf_addr data) ;; ret None
           else
             ret (Some (size, mkBuffer newdata (to_size_t (size + 1)) (buf_bytes data)))
         else ret (Some (size, data))) ;;
      match grown with
      | None => ret (Some (None, size_total))
      | Some (size, data) =>
          bytes <- SDL_ReadIO src (to_size_t (size - size_total)) ;;
          let size_read := Z.of_nat (length bytes) in
          if size_read >? 0 then
            SDL_LoadFile_IO_loop rounds' src loading_chunks size
              (size_total + size_read) (store_at data size_total bytes)
          else
            st <- SDL_GetIOStatus src ;;
            if SDL_IOStatus_eqb st SDL_IO_STATUS_NOT_READY then
              SDL_Delay 1 ;;
              SDL_LoadFile_IO_loop rounds' src loading_chunks size size_total data
            else
              ret (Some (Some (store_at data size_total [Byte.x00]), size_total))
      end
  end.

Definition SDL_LoadFile_IO (rounds : nat) (src : option SDL_IOStream) (closeio : bool)
  : M (option loaded) :=
  result <-
    match src with
    | None => SDL_InvalidParamError "src" ;; ret (Some (None, 0))
    | Some _ =>
        size <- SDL_GetIOSize src ;;
        let loading_chunks := size <? 0 in
        let size := if size <? 0 then FILE_CHUNK_SIZE else size in
        if to_size_t size >=? SIZE_MAX - 1 then ret (Some (None, 0))
        else
          data <- SDL_malloc (to_size_t (size + 1)) ;;
          if data =? 0 then ret (Some (None, 0))
          else
            SDL_LoadFile_IO_loop rounds src loading_chunks size 0
              (mkBuffer data (to_size_t (size + 1)) [])
    end ;;
  match result with
  | None => ret None
  | Some r =>
      (match src with
       | Some _ => if closeio then SDL_CloseIO src else ret true
       | None => ret true
       end) ;;
      ret (Some r)
  end.

(** The [while] loop of [SDL_SaveFile_IO]; [None] when [rounds] rounds did
    not reach its end. *)
Fixpoint SDL_SaveFile_IO_loop (rounds : nat) (src : option SDL_IOStream)
    (data : list byte) (datasize size_written size_total : Z) : M (option bool) :=
  match rounds with
  | O => ret None
  | S rounds' =>
      if size_total <? datasize then
        size_written <- SDL_WriteIO src (drop size_written data)
                                    (to_size_t (datasize - size_written)) ;;
        if size_written <=? 0 then
          st <- SDL_GetIOStatus src ;;
          if SDL_IOStatus_eqb st SDL_IO_STATUS_NOT_READY then
            SDL_Delay 1 ;;
            SDL_SaveFile_IO_loop rounds' src data datasize size_written size_total
          else ret (Some false)
        else
          SDL_SaveFile_IO_loop rounds' src data datasize size_written
            (size_total + size_written)
      else ret (Some true)
  end.

(** [data] is [None] for a null pointer. *)
Definition SDL_SaveFile_IO (rounds : nat) (src : option SDL_IOStream)
    (data : option (list byte)) (datasize : Z) (closeio : bool) : M (option bool) :=
  result <-
    match src, data with
    | None, _ => SDL_InvalidParamError "src" ;; ret (Some true)
    | Some _, None =>
        if datasize >? 0 then SDL_InvalidParamError "data" ;; ret (Some true)
        else ret (Some true)
    | Some _, Some bytes =>
        if datasize >? 0 then SDL_SaveFile_IO_loop rounds src bytes datasize 0 0
        else ret (Some true)
    end ;;
  match result with
  | None => ret None
  | Some success =>
      (match src with
       | Some _ => if closeio then SDL_CloseIO src else ret true
       | None => ret true
       end) ;;
      ret (Some success)
  end.

(** ** Fixed-width readers *)

Definition byte_val (b : byte) : Z := Z.of_N (Byte.to_N b).

(** The integer whose bytes, least significant first, are [bs]. *)
Fixpoint le_decode (bs : list byte) : Z :=
  match bs with
  | [] => 0
  | b :: bs' => byte_val b + 256 * le_decode bs'
  end.

(** Two's complement reading of a [bits]-bit value. *)
Definition to_signed (bits v : Z) : Z :=
  if v <? 2 ^ (bits - 1) then v else v - 2 ^ bits.

(** The bytes of an object of [width] zero bytes after [bytes] were stored
    at its start. *)
Definition zeroed_object_with (width : Z) (bytes : list byte) : list byte :=
  take width (bytes ++ skipn (length bytes) (repeat Byte.x00 (Z.to_nat width))).

Section Endian.

(** [SDL_BYTEORDER == SDL_BIG_ENDIAN]. *)
Variable big_endian_host : bool.

(** The value of an integer object whose bytes in memory are [obj]. *)
Definition host_value (obj : list byte) : Z :=
  if big_endian_host then le_decode (rev obj) else le_decode obj.

(** Modelled from the spec: the byte-order macros of [SDL_endian.h], which
    is not part of this repository ("byte-swaps from the declared endianness
    to host order"): [SDL_SwapN] reverses the bytes of an [N]-bit value,
    [SDL_SwapLEN] does so on a big-endian host and [SDL_SwapBEN] on a
    little-endian one. *)
Definition SDL_Swap16 (x : Z) : Z :=
  Z.land (Z.lor (Z.shiftl x 8) (Z.shiftr x 8)) 65535.
Definition SDL_Swap32 (x : Z) : Z :=
  Z.land (Z.lor (Z.lor (Z.shiftl x 24) (Z.land (Z.shiftl x 8) 16711680))
                (Z.lor (Z.land (Z.shiftr x 8) 65280) (Z.shiftr x 24)))
         4294967295.
Definition SDL_Swap64 (x : Z) : Z :=
  let lo := Z.land x 4294967295 in
  let hi := Z.land (Z.shiftr x 32) 4294967295 in
  Z.lor (Z.shiftl (SDL_Swap32 lo) 32) (SDL_Swap32 hi).
Definition SDL_SwapLE16 (x : Z) : Z := if big_endian_host then SDL_Swap16 x else x.
Definition SDL_SwapBE16 (x : Z) : Z := if big_endian_host then x else SDL_Swap16 x.
Definition SDL_SwapLE32 (x : Z) : Z := if big_endian_host then SDL_Swap32 x else x.
Definition SDL_SwapBE32 (x : Z) : Z := if big_endian_host then x else SDL_Swap32 x.
Definition SDL_SwapLE64 (x : Z) : Z := if big_endian_host then SDL_Swap64 x else x.
Definition SDL_SwapBE64 (x : Z) : Z := if big_endian_host then x else SDL_Swap64 x.

(** [T data = 0; n = SDL_ReadIO(src, &data, sizeof(data));]: the count and
    the value of [data] afterwards. *)
Definition read_object (src : option SDL_IOStream) (width : Z) : M (Z * Z) :=
  bytes <- SDL_ReadIO src width ;;
  ret (Z.of_nat (length bytes), host_value (zeroed_object_with width bytes)).

(** The readers return [result] and the value they store in [*value]
    (nothing is stored when [value] is null). *)
Definition SDL_ReadU8Ptr (src : option SDL_IOStream) : M (bool * Z) :=
  r <- read_object src 1 ;;
  let result := fst r =? 1 in
  ret (result, snd r).

Definition SDL_ReadS8 (src : option SDL_IOStream) : M (bool * Z) :=
  r <- read_object src 1 ;;
  let result := fst r =? 1 in
  ret (result, to_signed 8 (snd r)).

Definition SDL_ReadU16LE (src : option SDL_IOStream) : M (bool * Z) :=
  r <- read_object src 2 ;;
  let result := fst r =? 2 in
  ret (result, SDL_SwapLE16 (snd r)).

Definition SDL_ReadS16LE (src : option SDL_IOStream) : M (bool * Z) :=
  r <- SDL_ReadU16LE src ;; ret (fst r, to_signed 16 (snd r)).

Definition SDL_ReadU16BE (src : option SDL_IOStream) : M (bool * Z) :=
  r <- read_object src 2 ;;
  let result := fst r =? 2 in
  ret (result, SDL_SwapBE16 (snd r)).

Definition SDL_ReadS16BE (src : option SDL_IOStream) : M (bool * Z) :=
  r <- SDL_ReadU16BE src ;; ret (fst r, to_signed 16 (snd r)).

Definition SDL_ReadU32LE (src : option SDL_IOStream) : M (bool * Z) :=
  r <- read_object src 4 ;;
  let result := fst r =? 4 in
  ret (result, SDL_SwapLE32 (snd r)).

Definition SDL_ReadS32LE (src : option SDL_IOStream) : M (bool * Z) :=
  r <- SDL_ReadU32LE src ;; ret (fst r, to_signed 32 (snd r)).

Definition SDL_ReadU32BE (src : option SDL_IOStream) : M (bool * Z) :=
  r <- read_object src 4 ;;
  let result := fst r =? 4 in
  ret (result, SDL_SwapBE32 (snd r)).

Definition SDL_ReadS32BE (src : option SDL_IOStream) : M (bool * Z) :=
  r <- SDL_ReadU32BE src ;; ret (fst r, to_signed 32 (snd r)).

Definition SDL_ReadU64LE (src : option SDL_IOStream) : M (bool * Z) :=
  r <- read_object src 8 ;;
  let result := fst r =? 8 in
  ret (result, SDL_SwapLE64 (snd r)).

Definition SDL_ReadS64LE (src : option SDL_IOStream) : M (bool * Z) :=
  r <- SDL_ReadU64LE src ;; ret (fst r, to_signed 64 (snd r)).

Definition SDL_ReadU64BE (src : option SDL_IOStream) : M (bool * Z) :=
  r <- read_object src 8 ;;
  let result := fst r =? 8 in
  ret (result, SDL_SwapBE64 (snd r)).

Definition SDL_ReadS64BE (src : option SDL_IOStream) : M (bool * Z) :=
  r <- SDL_ReadU64BE src ;; ret (fst r, to_signed 64 (snd r)).

End Endian.

(** ** Fixed-width writers *)

(** The byte of value [z mod 256]. *)
Definition byte_of (z : Z) : byte :=
  match Byte.of_N (Z.to_N (z mod 256)) with
  | Some b => b
  | None => Byte.x00
  end.

(** The [width] low bytes of [x], least significant first (two's complement
    for a negative [x]). *)
Fixpoint le_encode (width : nat) (x : Z) : list byte :=
  match width with
  | O => []
  | S width' => byte_of x :: le_encode width' (x / 256)
  end.

(** [(UintN)value]. *)
Definition to_unsigned (bits v : Z) : Z := v mod 2 ^ bits.

Section EndianWriters.

(** [SDL_BYTEORDER == SDL_BIG_ENDIAN]. *)
Variable big_endian_host : bool.

(** The bytes in memory of an integer object of [width] bytes that holds
    [x]. *)
Definition host_object (width : nat) (x : Z) : list byte :=
  if big_endian_host then rev (le_encode width x) else le_encode width x.

(** [SDL_WriteIO(dst, &object, sizeof(object)) == sizeof(object)]. *)
Definition write_object (dst : option SDL_IOStream) (width : nat) (object : Z) : M bool :=
  n <- SDL_WriteIO dst (host_object width object) (Z.of_nat width) ;;
  ret (n =? Z.of_nat width).

Definition SDL_WriteU8Ptr (dst : option SDL_IOStream) (value : Z) : M bool :=
  write_object dst 1 value.

Definition SDL_WriteS8 (dst : option SDL_IOStream) (value : Z) : M bool :=
  write_object dst 1 value.

Definition SDL_WriteU16LE (dst : option SDL_IOStream) (value : Z) : M bool :=
  let swapped := SDL_SwapLE16 big_endian_host value in
  write_object dst 2 swapped.

Definition SDL_WriteS16LE (dst : option SDL_IOStream) (value : Z) : M bool :=
  SDL_WriteU16LE dst (to_unsigned 16 value).

Definition SDL_WriteU16BE (dst : option SDL_IOStream) (value : Z) : M bool :=
  let swapped := SDL_SwapBE16 big_endian_host value in
  write_object dst 2 swapped.

Definition SDL_WriteS16BE (dst : option SDL_IOStream) (value : Z) : M bool :=
  SDL_WriteU16BE dst (to_unsigned 16 value).

Definition SDL_WriteU32LE (dst : option SDL_IOStream) (value : Z) : M bool :=
  let swapped := SDL_SwapLE32 big_endian_host value in
  write_object dst 4 swapped.

Definition SDL_WriteS32LE (dst : option SDL_IOStream) (value : Z) : M bool :=
  SDL_WriteU32LE dst (to_unsigned 32 value).

Definition SDL_WriteU32BE (dst : option SDL_IOStream) (value : Z) : M bool :=
  let swapped := SDL_SwapBE32 big_endian_host value in
  write_object dst 4 swapped.

Definition SDL_WriteS32BE (dst : option SDL_IOStream) (value : Z) : M bool :=
  SDL_WriteU32BE dst (to_unsigned 32 value).

Definition SDL_WriteU64LE (dst : option SDL_IOStream) (value : Z) : M bool :=
  let swapped := SDL_SwapLE64 big_endian_host value in
  write_object dst 8 swapped.

Definition SDL_WriteS64LE (dst : option SDL_IOStream) (value : Z) : M bool :=
  SDL_WriteU64LE dst (to_unsigned 64 value).

Definition SDL_WriteU64BE (dst : option SDL_IOStream) (value : Z) : M bool :=
  let swapped := SDL_SwapBE64 big_endian_host value in
  write_object dst 8 swapped.

Definition SDL_WriteS64BE (dst : option SDL_IOStream) (value : Z) : M bool :=
  SDL_WriteU64BE dst (to_unsigned 64 value).

End EndianWriters.

(** ** Named files *)

(** [fopen(file, mode)]: the [FILE *] the environment answers with, which
    the process then holds; a null answer leaves [errno] set. *)
Definition sys_fopen : M Z :=
  fun s =>
    match os_oracle s with
    | [] => (0, set_errno s EIO)
    | r :: rest =>
        if os_ret r =? 0
        then (0, set_os_oracle (set_errno s (os_errno r)) rest)
        else (os_ret r,
              set_live (set_os_oracle s rest) (ResFile (os_ret r) :: live s))
    end.

(** [IsRegularFileOrPipe], where the platform is not Emscripten. *)
Definition IsRegularFileOrPipe (f : Z) : M bool :=
  fno <- sys_value ;;       (* fileno(f) *)
  st <- oscall ;;           (* fstat(..., &st), S_ISREG || S_ISFIFO *)
  if (os_ret st <? 0) || negb (os_flag st) then ret false else ret true.

Section Files.

Variable FSEEK_OFF_RANGE : option (Z * Z).

(** [strerror]. *)
Variable strerror : Z -> string.

(** [!s || !*s] for a C string, [None] being the null pointer. *)
Definition null_or_empty (s : option string) : bool :=
  match s with
  | None => true
  | Some str => String.eqb str ""
  end.

(** [SDL_IOFromFile] as it is compiled where stdio is available and the
    platform is none of Android, Windows and 3DS. *)
Definition SDL_IOFromFile (file mode : option string) : M (option SDL_IOStream) :=
  if null_or_empty file then SDL_InvalidParamError "file" ;; ret None
  else if null_or_empty mode then SDL_InvalidParamError "mode" ;; ret None
  else
    let name := match file with Some str => str | None => "" end in
    fp <- sys_fopen ;;
    if fp =? 0 then
      s <- get ;;
      SDL_SetError (String.append "Couldn't open "
                      (String.append name (String.append ": " (strerror (errno s))))) ;;
      ret None
    else
      regular <- IsRegularFileOrPipe fp ;;
      if negb regular then
        sys_close (ResFile fp) ;;
        SDL_SetError (String.append name " is not a regular file or pipe") ;;
        ret None
      else SDL_IOFromFP FSEEK_OFF_RANGE fp true.

(** [_SDL_LoadFile]: [data] and the value stored in [*datasize]. *)
Definition _SDL_LoadFile (rounds : nat) (file : option string) : M (option loaded) :=
  stream <- SDL_IOFromFile file (Some "rb") ;;
  match stream with
  | None => ret (Some (None, 0))
  | Some _ => SDL_LoadFile_IO rounds stream true
  end.

Definition SDL_SaveFile (rounds : nat) (file : option string)
    (data : option (list byte)) (datasize : Z) : M (option bool) :=
  stream <- SDL_IOFromFile file (Some "wb") ;;
  match stream with
  | None => ret (Some false)
  | Some _ => SDL_SaveFile_IO rounds stream data datasize true
  end.

End Files.

(** * Vocabulary of the statements and example states *)

(** The two constructors of fixed-memory streams. *)
Definition fixed_memory_constructors : list (Z -> Z -> M (option SDL_IOStream)) :=
  [SDL_IOFromMem; SDL_IOFromConstMem].

(** [x] brought into [[lo, hi]]. *)
Definition clamp (lo hi x : Z) : Z := Z.max lo (Z.min hi x).

(** The pointer a seek starts from. *)
Definition seek_origin (iodata : IOStreamMemData) (whence : SDL_IOWhence) : Z :=
  match whence with
  | SDL_IO_SEEK_SET => base iodata
  | SDL_IO_SEEK_CUR => here iodata
  | SDL_IO_SEEK_END => stop iodata
  end.

(** A state for examples: no stream yet, zeroed memory, the resources
    [res] held, the allocator and the environment answering with [heap] and
    [os], and [garbage] the value a missing return leaves. *)
Definition demo_state (res : list resource) (heap : list Z) (os : list os_result)
    (garbage : Z) : State :=
  mkState UD_none SDL_IO_STATUS_READY zero_props "" 0 (fun _ => Byte.x00)
          res heap os [] garbage.

(** The state in which [SDL_ReadIO] and [SDL_WriteIO] enter the backend:
    status reset to Ready, error message cleared. *)
Definition entry_state (s : State) : State :=
  set_error (set_status s SDL_IO_STATUS_READY) "".

(** [*SDL_GetError()] is not the empty string. *)
Definition has_message (s : State) : bool := negb (String.eqb (error s) "").

(** A stream over the 3 bytes at address 1000 whose cursor is at the end,
    with the table [SDL_IOFromMem] fills in. *)
Definition stream_at_end : SDL_IOStream * State :=
  (mkStream mem_interface,
   set_userdata (demo_state [] [] [] 0) (UD_mem (mkMemData 1000 1003 1003))).

(** The handles the five constructors return. *)
Inductive constructed (h : SDL_IOStream) : Prop :=
| from_fd fd autoclose s s' :
    SDL_IOFromFD fd autoclose s = (Some h, s') -> constructed h
| from_fp range fp autoclose s s' :
    SDL_IOFromFP range fp autoclose s = (Some h, s') -> constructed h
| from_mem mem size s s' :
    SDL_IOFromMem mem size s = (Some h, s') -> constructed h
| from_const_mem mem size s s' :
    SDL_IOFromConstMem mem size s = (Some h, s') -> constructed h
| from_dynamic_mem s s' :
    SDL_IOFromDynamicMem s = (Some h, s') -> constructed h.

(** A process that holds descriptor 3; the allocator has two objects to
    give, [fstat] answers "regular file" and the next call, which would be
    [close], answers [close_result]. *)
Definition fd_demo (close_result : Z) : State :=
  demo_state [ResFd 3] [4096; 8192]
             [mkOs 0 0 [] true; mkOs close_result EIO [] false] 0.

(** What closing does to the handle [SDL_IOFromFD 3 true] returns, next to
    what closing does when the handle's table is the one the constructor
    filled in. *)
Definition close_misses_backend (close_result : Z) : Prop :=
  let opened := SDL_IOFromFD 3 true (fd_demo close_result) in
  let closed := SDL_CloseIO (fst opened) (snd opened) in
  let intended := SDL_CloseIO (Some (mkStream fd_interface)) (snd opened) in
  fst opened = Some (mkStream zero_iface) /\
  live (snd opened) = [ResStream; ResUserdata; ResFd 3] /\
  fst closed = true /\
  live (snd closed) = [ResUserdata; ResFd 3] /\
  os_oracle (snd closed) = os_oracle (snd opened) /\
  fst intended = (close_result =? 0) /\
  live (snd intended) = (if close_result =? 0 then [] else [ResFd 3]) /\
  os_oracle (snd intended) = [].

(** [m] is the least multiple of [chunk] that is at least [need]. *)
Definition least_multiple_covering (chunk need m : Z) : Prop :=
  m mod chunk = 0 /\ need <= m /\
  forall m', m' mod chunk = 0 -> need <= m' -> m <= m'.

(** [base <= here <= stop <= end]. *)
Definition dynamic_invariant (iodata : IOStreamDynamicMemData) : Prop :=
  base (data iodata) <= here (data iodata) /\
  here (data iodata) <= stop (data iodata) /\
  stop (data iodata) <= end_ iodata.

(** Growth is needed when the request exceeds what is allocated past the
    cursor. *)
Definition needs_growth (iodata : IOStreamDynamicMemData) (size : Z) : Prop :=
  end_ iodata - here (data iodata) < size.

(** A growable stream after one byte has been written to it: one chunk of
    1024 bytes at 4096 holds one byte of content. *)
Definition one_byte_written : IOStreamDynamicMemData * State :=
  let s := set_userdata (demo_state [ResStream; ResUserdata] [4096; 8192] [] 1)
                        (UD_dynamic (mkDynData (mkMemData 0 0 0) 0)) in
  let r := dynamic_mem_write (mkDynData (mkMemData 0 0 0) 0) [Byte.x01] 1 s in
  (snd (fst r), snd r).

(** A fresh growable stream to which one byte is written while the value
    [dynamic_mem_realloc] leaves to its caller happens to be zero. *)
Definition fresh_dynamic (garbage : Z) : IOStreamDynamicMemData * State :=
  (mkDynData (mkMemData 0 0 0) 0,
   set_userdata (demo_state [ResStream; ResUserdata] [4096] [] garbage)
                (UD_dynamic (mkDynData (mkMemData 0 0 0) 0))).

(** [write(b)], [seek(0, Set)], [read(|b|)] through a handle: the bytes the
    read returns. *)
Definition round_trip (h : option SDL_IOStream) (b : list byte) (s : State) : list byte :=
  let size := Z.of_nat (length b) in
  let w := SDL_WriteIO h b size s in
  let k := SDL_SeekIO h 0 SDL_IO_SEEK_SET (snd w) in
  fst (SDL_ReadIO h size (snd k)).

(** Streams whose table holds the functions of a writable memory backend,
    with the cursor at the start and room for [b]: in the region for the
    fixed backend, in the allocation or from an allocator that has an
    address to give (and a [dynamic_mem_realloc] whose caller sees a
    non-zero value) for the growable one. *)
Inductive writable_at_start (b : list byte) (s : State) : SDL_IOStream -> Prop :=
| fixed_region d :
    userdata s = UD_mem d ->
    here d = base d -> 0 <= base d -> stop d < 2 ^ 64 ->
    Z.of_nat (length b) <= stop d - base d ->
    writable_at_start b s (mkStream mem_interface)
| growable_in_place d :
    userdata s = UD_dynamic d ->
    dynamic_invariant d ->
    here (data d) = base (data d) -> 0 <= base (data d) -> end_ d < 2 ^ 64 ->
    ~ needs_growth d (Z.of_nat (length b)) ->
    writable_at_start b s (mkStream dynamic_mem_interface)
| growable_grown d p rest :
    userdata s = UD_dynamic d ->
    dynamic_invariant d ->
    here (data d) = base (data d) -> 0 <= base (data d) -> end_ d < 2 ^ 64 ->
    needs_growth d (Z.of_nat (length b)) ->
    0 <= chunkSize (props s) < 2 ^ 31 ->
    heap_oracle s = p :: rest ->
    0 < p ->
    p + (end_ d - base (data d)) + Z.of_nat (length b)
      + (if chunkSize (props s) =? 0 then 1024 else chunkSize (props s)) < 2 ^ 64 ->
    indeterminate s <> 0 ->
    writable_at_start b s (mkStream dynamic_mem_interface).

(** What a growable backend holds after [b] was written at its start. *)
Definition written_at_start (b : list byte) (d' : IOStreamDynamicMemData) (s' : State)
  : Prop :=
  0 <= base (data d') /\
  here (data d') = base (data d') + Z.of_nat (length b) /\
  here (data d') <= stop (data d') /\
  stop (data d') < 2 ^ 64 /\
  load (memory s') (base (data d')) (Z.of_nat (length b)) = b.

(** The state [SDL_IOFromDynamicMem] leaves, seen through the table it
    filled in. *)
Definition growable_demo : State :=
  snd (SDL_IOFromDynamicMem (demo_state [] [4096; 8192; 12288] [] 1)).

(** A stream over the three bytes at 1000 with its cursor at the start, and
    the growable stream of [one_byte_written] with its cursor back at the
    start. *)
Definition fixed_demo : State :=
  set_userdata (demo_state [] [] [] 0) (UD_mem (mkMemData 1000 1000 1003)).
Definition rewound_demo : State :=
  set_userdata (snd one_byte_written)
    (UD_dynamic (snd (dynamic_mem_seek (fst one_byte_written) 0 SDL_IO_SEEK_SET))).

(** A handle as [SDL_IOFromConstMem] returns it, over the four bytes at
    1000. *)
Definition const_mem_demo : option SDL_IOStream * State :=
  SDL_IOFromConstMem 1000 4 (demo_state [] [4096; 8192] [] 1).

(** The fixed-width readers, each with the width in bytes of what it reads
    and the conversion it applies to the object read. *)
Definition readers (big_endian_host : bool)
  : list (Z * (Z -> Z) * (option SDL_IOStream -> M (bool * Z))) :=
  [ (1, fun x => x, SDL_ReadU8Ptr big_endian_host);
    (1, to_signed 8, SDL_ReadS8 big_endian_host);
    (2, SDL_SwapLE16 big_endian_host, SDL_ReadU16LE big_endian_host);
    (2, fun x => to_signed 16 (SDL_SwapLE16 big_endian_host x),
        SDL_ReadS16LE big_endian_host);
    (2, SDL_SwapBE16 big_endian_host, SDL_ReadU16BE big_endian_host);
    (2, fun x => to_signed 16 (SDL_SwapBE16 big_endian_host x),
        SDL_ReadS16BE big_endian_host);
    (4, SDL_SwapLE32 big_endian_host, SDL_ReadU32LE big_endian_host);
    (4, fun x => to_signed 32 (SDL_SwapLE32 big_endian_host x),
        SDL_ReadS32LE big_endian_host);
    (4, SDL_SwapBE32 big_endian_host, SDL_ReadU32BE big_endian_host);
    (4, fun x => to_signed 32 (SDL_SwapBE32 big_endian_host x),
        SDL_ReadS32BE big_endian_host);
    (8, SDL_SwapLE64 big_endian_host, SDL_ReadU64LE big_endian_host);
    (8, fun x => to_signed 64 (SDL_SwapLE64 big_endian_host x),
        SDL_ReadS64LE big_endian_host);
    (8, SDL_SwapBE64 big_endian_host, SDL_ReadU64BE big_endian_host);
    (8, fun x => to_signed 64 (SDL_SwapBE64 big_endian_host x),
        SDL_ReadS64BE big_endian_host) ].

(** What a reader does, given the one [SDL_ReadIO] call of its width: the
    state is the one the call leaves, the answer tells whether the call
    returned the full width, and the value stored is the conversion of the
    zero object with the bytes returned laid over it, which is zero when
    none was returned. *)
Definition reader_outcome (big_endian_host : bool) (src : option SDL_IOStream)
    (s : State) (entry : Z * (Z -> Z) * (option SDL_IOStream -> M (bool * Z)))
  : Prop :=
  let width := fst (fst entry) in
  let convert := snd (fst entry) in
  let call := SDL_ReadIO src width s in
  let r := snd entry src s in
  snd r = snd call /\
  fst (fst r) = (Z.of_nat (length (fst call)) =? width) /\
  snd (fst r) =
    convert (host_value big_endian_host (zeroed_object_with width (fst call))) /\
  (fst call = [] -> snd (fst r) = 0).

(** A stream over the three bytes at 1000, the last of which is [0xab],
    with its cursor on that byte and the table [SDL_IOFromMem] fills in. *)
Definition one_byte_left : option SDL_IOStream * State :=
  (Some (mkStream mem_interface),
   set_memory
     (set_userdata (demo_state [] [] [] 0) (UD_mem (mkMemData 1000 1002 1003)))
     (fun a => if a =? 1002 then Byte.xab else Byte.x00)).

(** The 16-bit readers on [one_byte_left]: one byte is delivered, the
    answer is false and the value stored is not zero. *)
Definition partial_read_outcome (big_endian_host : bool) : Prop :=
  let src := fst one_byte_left in
  let s := snd one_byte_left in
  length (fst (SDL_ReadIO src 2 s)) = 1%nat /\
  fst (SDL_ReadU16LE big_endian_host src s) = (false, 171) /\
  fst (SDL_ReadU16BE big_endian_host src s) = (false, 43776).

(** A descriptor stream with the table [SDL_IOFromFD] fills in; the
    environment answers the coming system calls with [answers]. *)
Definition fd_stream (answers : list os_result) : option SDL_IOStream * State :=
  (Some (mkStream fd_interface),
   set_userdata (demo_state [ResFd 3] [] answers 0) (UD_fd (mkFDData 3 false false))).

(** Answers of the environment: [n] bytes accepted, [EAGAIN], the bytes
    [bs] delivered, a failure with [errno] [e]. *)
Definition wrote (n : Z) : os_result := mkOs n 0 [] false.
Definition would_block : os_result := mkOs (-1) EAGAIN [] false.
Definition delivered (bs : list byte) : os_result := mkOs 0 0 bs false.
Definition failed_with (e : Z) : os_result := mkOs (-1) e [] false.

(** [s'] differs from [s] by what the allocator did. *)
Definition allocator_only (s s' : State) : Prop :=
  userdata s' = userdata s /\ status s' = status s /\ props s' = props s /\
  error s' = error s /\ errno s' = errno s /\ os_oracle s' = os_oracle s /\
  os_out s' = os_out s /\ indeterminate s' = indeterminate s.

(** The status is NotReady. *)
Definition is_not_ready (st : SDL_IOStatus) : bool :=
  SDL_IOStatus_eqb st SDL_IO_STATUS_NOT_READY.

(** A stream that has [avail s] bytes to deliver in state [s]: a read of one
    chunk takes a non-empty prefix of them, or stalls (NotReady) and loses
    none, or ends with another status when none is left.  [pending] bounds
    the reads that deliver or stall. *)
Record delivers (src : SDL_IOStream) (avail : State -> list byte)
    (pending : State -> nat) : Prop := {
  delivers_frame :
    forall s s', allocator_only s s' ->
      avail s' = avail s /\ pending s' = pending s;
  delivers_read :
    forall s,
      let r := SDL_ReadIO (Some src) FILE_CHUNK_SIZE s in
      heap_oracle (snd r) = heap_oracle s /\
      match fst r with
      | [] =>
          if is_not_ready (status (snd r))
          then avail (snd r) = avail s /\ (pending (snd r) < pending s)%nat
          else avail s = []
      | _ :: _ =>
          avail s = fst r ++ avail (snd r) /\ (pending (snd r) < pending s)%nat
      end
}.

(** Number of bytes, as the C code counts them. *)
Definition len (bs : list byte) : Z := Z.of_nat (length bs).

(** Allocations the next round makes before it reads: one when the buffer
    has less than a chunk of room past [total]. *)
Definition growth_due (size total : Z) : nat :=
  if size <? total + FILE_CHUNK_SIZE then 1%nat else 0%nat.

(** The bytes a descriptor delivers to reads of one chunk, given the
    answers of the environment: interrupted and would-block answers are
    passed over, any other failure, an answer without data and the end of
    the answers end the stream. *)
Fixpoint pipe_bytes (answers : list os_result) : list byte :=
  match answers with
  | [] => []
  | r :: rest =>
      if os_ret r <? 0 then
        if (os_errno r =? EINTR) || (os_errno r =? EAGAIN) then pipe_bytes rest
        else []
      else
        match take FILE_CHUNK_SIZE (os_bytes r) with
        | [] => []
        | b :: bs => (b :: bs) ++ pipe_bytes rest
        end
  end.

(** What the retried [read] of [fd_read] leaves. *)
Definition read_answer (s : State) (r : Z * list byte) (s' : State) : Prop :=
  status s' = status s /\
  heap_oracle s' = heap_oracle s /\
  ((fst r < 0 /\ snd r = [] /\ errno s' <> EINTR /\
    ((errno s' = EAGAIN /\
      pipe_bytes (os_oracle s') = pipe_bytes (os_oracle s) /\
      (length (os_oracle s') < length (os_oracle s))%nat)
     \/ (errno s' <> EAGAIN /\ pipe_bytes (os_oracle s) = [])))
   \/ (0 <= fst r /\
       ((snd r = [] /\ pipe_bytes (os_oracle s) = [])
        \/ (snd r <> [] /\
            pipe_bytes (os_oracle s) = snd r ++ pipe_bytes (os_oracle s') /\
            (length (os_oracle s') < length (os_oracle s))%nat)))).

(** A pipe: the position query fails, then the reads deliver two bytes,
    would block, are interrupted, deliver one byte and meet the end. *)
Definition pipe_demo : option SDL_IOStream * State :=
  (Some (mkStream fd_interface),
   set_userdata
     (demo_state [ResFd 3] [4096; 8192; 12288; 16384]
        [failed_with 29; delivered [Byte.x61; Byte.x62]; would_block;
         failed_with EINTR; delivered [Byte.x63]; delivered []] 0)
     (UD_fd (mkFDData 3 false false))).

(** ** Formats, invariants and example states of the later sections *)

(** A format of the fixed-width readers and writers: the number of bytes,
    whether the value is signed, and whether the most significant byte
    comes first on the stream. *)
Record format : Type := mkFormat {
  fmt_width : nat;
  fmt_signed : bool;
  fmt_big_endian : bool
}.

Definition fmt_bits (f : format) : Z := 8 * Z.of_nat (fmt_width f).

(** The values of the C type of the format. *)
Definition fmt_range (f : format) (v : Z) : Prop :=
  if fmt_signed f
  then - 2 ^ (fmt_bits f - 1) <= v < 2 ^ (fmt_bits f - 1)
  else 0 <= v < 2 ^ fmt_bits f.

(** The value the bytes [bs] stand for in the format, and the bytes that
    stand for [v]: both are fixed by the format alone. *)
Definition fmt_decode (f : format) (bs : list byte) : Z :=
  let u := le_decode (if fmt_big_endian f then rev bs else bs) in
  if fmt_signed f then to_signed (fmt_bits f) u else u.

Definition fmt_encode (f : format) (v : Z) : list byte :=
  let bs := le_encode (fmt_width f) v in
  if fmt_big_endian f then rev bs else bs.

(** The fourteen formats, each with its writer and its reader. *)
Definition codecs (big_endian_host : bool)
  : list (format * (option SDL_IOStream -> Z -> M bool)
                 * (option SDL_IOStream -> M (bool * Z))) :=
  [ (mkFormat 1 false false, SDL_WriteU8Ptr big_endian_host, SDL_ReadU8Ptr big_endian_host);
    (mkFormat 1 true false, SDL_WriteS8 big_endian_host, SDL_ReadS8 big_endian_host);
    (mkFormat 2 false false, SDL_WriteU16LE big_endian_host, SDL_ReadU16LE big_endian_host);
    (mkFormat 2 true false, SDL_WriteS16LE big_endian_host, SDL_ReadS16LE big_endian_host);
    (mkFormat 2 false true, SDL_WriteU16BE big_endian_host, SDL_ReadU16BE big_endian_host);
    (mkFormat 2 true true, SDL_WriteS16BE big_endian_host, SDL_ReadS16BE big_endian_host);
    (mkFormat 4 false false, SDL_WriteU32LE big_endian_host, SDL_ReadU32LE big_endian_host);
    (mkFormat 4 true false, SDL_WriteS32LE big_endian_host, SDL_ReadS32LE big_endian_host);
    (mkFormat 4 false true, SDL_WriteU32BE big_endian_host, SDL_ReadU32BE big_endian_host);
    (mkFormat 4 true true, SDL_WriteS32BE big_endian_host, SDL_ReadS32BE big_endian_host);
    (mkFormat 8 false false, SDL_WriteU64LE big_endian_host, SDL_ReadU64LE big_endian_host);
    (mkFormat 8 true false, SDL_WriteS64LE big_endian_host, SDL_ReadS64LE big_endian_host);
    (mkFormat 8 false true, SDL_WriteU64BE big_endian_host, SDL_ReadU64BE big_endian_host);
    (mkFormat 8 true true, SDL_WriteS64BE big_endian_host, SDL_ReadS64BE big_endian_host) ].

(** Writing [v] with [writer], seeking back to the start and reading with
    [reader]: the answer of the writer and what the reader returns. *)
Definition written_then_read (h : option SDL_IOStream)
    (writer : option SDL_IOStream -> Z -> M bool)
    (reader : option SDL_IOStream -> M (bool * Z)) (v : Z) (s : State)
  : bool * (bool * Z) :=
  let w := writer h v s in
  let k := SDL_SeekIO h 0 SDL_IO_SEEK_SET (snd w) in
  (fst w, fst (reader h (snd k))).

(** [base <= here <= stop], all three addresses of the 64-bit address
    space. *)
Definition region_ok (d : IOStreamMemData) : Prop :=
  0 <= base d /\ base d <= here d /\ here d <= stop d /\ stop d < 2 ^ 64.

(** What a constructor of a memory stream may change: it takes the two
    objects of a stream from the allocator, or nothing when it fails; the
    bytes of memory and the environment's answers are not touched. *)
Definition takes_a_stream_or_nothing (s : State) (r : option SDL_IOStream * State) : Prop :=
  memory (snd r) = memory s /\
  os_oracle (snd r) = os_oracle s /\
  live (snd r) = match fst r with
                 | Some _ => ResStream :: ResUserdata :: live s
                 | None => live s
                 end.

(** Every coming call of the environment succeeds with result [0]. *)
Definition calls_succeed (s : State) : Prop :=
  Forall (fun r => os_ret r = 0) (os_oracle s) /\ (3 <= length (os_oracle s))%nat.

(** A process that holds descriptor 3 and the stdio file 700; the allocator
    has one object to give and every call of the environment succeeds. *)
Definition one_object_left : State :=
  demo_state [ResFd 3; ResFile 700] [4096]
             [mkOs 0 0 [] true; mkOs 0 0 [] true; mkOs 0 0 [] false] 0.

(** The chunk size in force: [chunkSize] of the handle, 1024 when that is
    zero. *)
Definition chunk_in_force (s : State) : Z :=
  if chunkSize (props s) =? 0 then 1024 else chunkSize (props s).

(** The allocator's next answer is a failure or an address below which
    and above which the grown buffer fits in the address space. *)
Definition allocation_in_range (d : IOStreamDynamicMemData) (size : Z) (s : State) : Prop :=
  0 <= chunkSize (props s) < 2 ^ 31 /\
  match heap_oracle s with
  | [] => True
  | p :: _ =>
      p = 0 \/
      (0 < p /\ p + (end_ d - base (data d)) + size + chunk_in_force s < 2 ^ 64)
  end.

(** The allocator holds the buffer at [base] with the length the backend
    believes it has. *)
Definition allocation_recorded (d : IOStreamDynamicMemData) (s : State) : Prop :=
  buffer_len (base (data d)) (live s) = end_ d - base (data d).

(** The allocator answers the coming growth with the address [p], the grown
    buffer fits in the address space there, and the caller of
    [dynamic_mem_realloc] sees a non-zero value. *)
Definition growth_succeeds (d : IOStreamDynamicMemData) (size : Z) (s : State) (p : Z)
  : Prop :=
  0 <= chunkSize (props s) < 2 ^ 31 /\
  hd 0 (heap_oracle s) = p /\ heap_oracle s <> [] /\
  0 < p /\
  p + (end_ d - base (data d)) + size + chunk_in_force s < 2 ^ 64 /\
  indeterminate s <> 0.




(** After the answer to [fopen], every coming call of the environment
    succeeds with result [0]. *)
Definition calls_succeed_after_open (s : State) : Prop :=
  match os_oracle s with
  | [] => True
  | _ :: rest => Forall (fun r => os_ret r = 0) rest /\ (5 <= length rest)%nat
  end.

(** Computations that leave the bytes written so far as they are. *)
Definition keeps_os_out {A} (m : M A) : Prop :=
  forall s, os_out (snd (m s)) = os_out s.

(** A stream over the four bytes 12 34 56 78 (hexadecimal) at address 1000,
    with the table [SDL_IOFromMem] fills in and an allocator that has one
    address to give; [at_byte n] is the same stream with its cursor [n]
    bytes in. *)
Definition at_byte (n : Z) : IOStreamMemData := mkMemData 1000 (1000 + n) 1004.

Definition four_bytes (n : Z) : option SDL_IOStream * State :=
  (Some (mkStream mem_interface),
   set_memory
     (set_userdata (demo_state [] [4096] [] 0) (UD_mem (at_byte n)))
     (store (fun _ => Byte.x00) 1000 [Byte.x12; Byte.x34; Byte.x56; Byte.x78])).

(** A stdio stream with the table [SDL_IOFromFP] fills in; the environment
    answers the coming calls with [answers]. *)
Definition stdio_stream (answers : list os_result) : option SDL_IOStream * State :=
  (Some (mkStream (stdio_interface None)),
   set_userdata (demo_state [ResFile 700] [] answers 0)
                (UD_stdio (mkStdioData 700 false false))).

(** A pipe on descriptor 3 whose size cannot be asked for and which
    delivers one byte, read with an allocator that has a single address to
    give. *)
Definition short_of_memory : State :=
  set_userdata
    (demo_state [ResFd 3] [4096] [failed_with 29; delivered [Byte.x61]] 0)
    (UD_fd (mkFDData 3 false false)).

(** A process in which [fopen] answers with the file 700, which [fstat]
    then reports to be neither a regular file nor a pipe. *)
Definition opens_a_directory : State :=
  demo_state [] [4096; 8192]
    [mkOs 700 0 [] false; mkOs 0 0 [] false; mkOs 0 0 [] false; mkOs 0 0 [] false;
     mkOs 0 0 [] false; mkOs 0 0 [] false] 0.

(** Offset 0 lies within the offsets [fseek] takes on the platform. *)
Definition zero_in_range (range : option (Z * Z)) : Prop :=
  match range with
  | Some (lo, hi) => lo <= 0 <= hi
  | None => True
  end.

(** No buffer is held at the null address. *)
Definition null_not_held (l : list resource) : Prop :=
  forall n, ~ In (ResBuffer 0 n) l.

(** * Proofs *)

Ltac monad_unfold :=
  cbv beta iota delta [bind ret modify get].

Ltac break_match :=
  match goal with
  | |- context [match ?x with _ => _ end] =>
      lazymatch x with
      | context [match _ with _ => _ end] => fail
      | _ => destruct x eqn:?
      end
  end.

(** ** Fixed-memory constructors *)

(** C10.  [SDL_IOFromMem] and [SDL_IOFromConstMem] return [NULL], with the
    invalid-parameter message set and nothing else changed, when [mem] is
    null or [size] is zero; a handle they do return has [mem] non-null,
    [size] non-zero, and its backend object spans [mem .. mem + size] with
    the cursor at [mem]. *)
Theorem C10_fixed_memory_rejects_empty_region :
  forall (mem size : Z) (s : State),
    Forall (fun ctor : Z -> Z -> M (option SDL_IOStream) =>
      ctor 0 size s = (None, set_error s "Parameter 'mem' is invalid") /\
      ctor mem 0 s =
        (None, set_error s (if mem =? 0 then "Parameter 'mem' is invalid"
                            else "Parameter 'size' is invalid")) /\
      match ctor mem size s with
      | (Some _, s') =>
          mem <> 0 /\ size <> 0 /\
          userdata s' = UD_mem (mkMemData mem mem (ptr_add mem size))
      | (None, _) => True
      end)
    fixed_memory_constructors.
Proof.
  intros mem size s.
  repeat constructor.
  - unfold SDL_IOFromMem. destruct (mem =? 0); reflexivity.
  - unfold SDL_IOFromMem, SDL_OpenIO, SDL_calloc, next_address, acquire.
    destruct (mem =? 0) eqn:Hm; [exact I|].
    destruct (size =? 0) eqn:Hs; [exact I|].
    apply Z.eqb_neq in Hm, Hs.
    monad_unfold; cbn.
    repeat (break_match; cbn; try exact I); auto.
  - unfold SDL_IOFromConstMem. destruct (mem =? 0); reflexivity.
  - unfold SDL_IOFromConstMem, SDL_OpenIO, SDL_calloc, next_address, acquire.
    destruct (mem =? 0) eqn:Hm; [exact I|].
    destruct (size =? 0) eqn:Hs; [exact I|].
    apply Z.eqb_neq in Hm, Hs.
    monad_unfold; cbn.
    repeat (break_match; cbn; try exact I); auto.
Qed.

(** ** Seeking in memory *)

(** C7.  On a memory object with [base <= stop], [mem_seek] (and
    [dynamic_mem_seek], which applies it to the embedded object) never
    fails: for every origin and offset the cursor becomes the target
    [origin + offset] clamped into [[base, stop]], and the position returned
    lies in [[0, size]], the size being unchanged. *)
Theorem C7_memory_seek_clamps
    (iodata : IOStreamMemData) (allocated_end offset : Z) (whence : SDL_IOWhence) :
  base iodata <= stop iodata ->
  let target := ptr_add (seek_origin iodata whence) offset in
  let r := mem_seek iodata offset whence in
  0 <= fst r <= mem_size iodata /\
  fst r = clamp (base iodata) (stop iodata) target - base iodata /\
  snd r = set_here iodata (clamp (base iodata) (stop iodata) target) /\
  mem_size (snd r) = mem_size iodata /\
  dynamic_mem_seek (mkDynData iodata allocated_end) offset whence =
    (fst r, mkDynData (snd r) allocated_end).
Proof.
  intros Hinv target r.
  assert (Hr : r = (clamp (base iodata) (stop iodata) target - base iodata,
                    set_here iodata (clamp (base iodata) (stop iodata) target))).
  { subst r target. unfold mem_seek, clamp, seek_origin.
    destruct whence; cbn [here base stop set_here];
    repeat match goal with
           | |- context [?a <? ?b] => destruct (Z.ltb_spec a b)
           | |- context [?a >? ?b] => rewrite (Z.gtb_ltb a b)
           end; f_equal; try f_equal; lia. }
  rewrite Hr. cbn [fst snd].
  unfold dynamic_mem_seek. cbn [data end_]. fold r. rewrite Hr. cbn [fst snd].
  unfold mem_size, clamp, set_data. cbn [here base stop set_here data end_].
  repeat split; try lia; reflexivity.
Qed.

(** Seeking +10 from the end of a 5-byte region yields position 5. *)
Lemma C7_memory_seek_clamps_witness :
  base (mkMemData 1000 1002 1005) <= stop (mkMemData 1000 1002 1005) /\
  fst (mem_seek (mkMemData 1000 1002 1005) 10 SDL_IO_SEEK_END) = 5 /\
  mem_size (mkMemData 1000 1002 1005) = 5.
Proof.
  assert (H : base (mkMemData 1000 1002 1005) <= stop (mkMemData 1000 1002 1005))
    by (vm_compute; discriminate).
  split; [exact H|].
  pose proof (C7_memory_seek_clamps (mkMemData 1000 1002 1005) 2024 10 SDL_IO_SEEK_END H)
    as (_ & Hpos & _).
  split; [rewrite Hpos; reflexivity | reflexivity].
Defined.

(** ** Status after an empty read or write *)

(** C6.  For a handle with the capability and a non-zero request: when the
    backend's read returns no bytes and leaves the status Ready,
    [SDL_ReadIO] returns no bytes and sets the status to Error if an error
    message is set and to EndOfFile otherwise; when the backend's write
    returns 0 and leaves the status Ready, [SDL_WriteIO] returns 0 and sets
    the status to Error. *)
Theorem C6_zero_count_reclassified
    (io : SDL_IOStream) (ptr : list byte) (size : Z) (s : State) :
  size <> 0 ->
  (forall f, read (iface io) = Some f ->
     fst (f size (entry_state s)) = [] ->
     status (snd (f size (entry_state s))) = SDL_IO_STATUS_READY ->
     SDL_ReadIO (Some io) size s =
       ([], set_status (snd (f size (entry_state s)))
              (if has_message (snd (f size (entry_state s)))
               then SDL_IO_STATUS_ERROR else SDL_IO_STATUS_EOF))) /\
  (forall g, write (iface io) = Some g ->
     fst (g ptr size (entry_state s)) = 0 ->
     status (snd (g ptr size (entry_state s))) = SDL_IO_STATUS_READY ->
     SDL_WriteIO (Some io) ptr size s =
       (0, set_status (snd (g ptr size (entry_state s))) SDL_IO_STATUS_ERROR)).
Proof.
  intros Hsize. apply Z.eqb_neq in Hsize. split.
  - intros f Hf Hbytes Hst.
    unfold SDL_ReadIO. rewrite Hf.
    unfold SDL_ClearError, SDL_GetError_nonempty. monad_unfold.
    rewrite Hsize. fold (entry_state s).
    destruct (f size (entry_state s)) as [bytes s1]. cbn [fst snd] in *.
    subst bytes. rewrite Hst. unfold has_message.
    destruct (negb (String.eqb (error s1) "")); reflexivity.
  - intros g Hg Hbytes Hst.
    unfold SDL_WriteIO. rewrite Hg.
    unfold SDL_ClearError. monad_unfold.
    rewrite Hsize. fold (entry_state s).
    destruct (g ptr size (entry_state s)) as [bytes s1]. cbn [fst snd] in *.
    subst bytes. rewrite Hst. reflexivity.
Qed.

(** A memory stream whose cursor is at the end: a read ends in EndOfFile,
    a write in Error. *)
Lemma C6_zero_count_reclassified_witness :
  let io := fst stream_at_end in
  let s := snd stream_at_end in
  (2 <> 0) /\
  (read (iface io) = Some mem_read_fn /\
   fst (mem_read_fn 2 (entry_state s)) = [] /\
   status (snd (mem_read_fn 2 (entry_state s))) = SDL_IO_STATUS_READY /\
   status (snd (SDL_ReadIO (Some io) 2 s)) = SDL_IO_STATUS_EOF) /\
  (write (iface io) = Some mem_write_fn /\
   fst (mem_write_fn [Byte.x01; Byte.x02] 2 (entry_state s)) = 0 /\
   status (snd (mem_write_fn [Byte.x01; Byte.x02] 2 (entry_state s))) = SDL_IO_STATUS_READY /\
   status (snd (SDL_WriteIO (Some io) [Byte.x01; Byte.x02] 2 s)) = SDL_IO_STATUS_ERROR).
Proof.
  intros io s.
  assert (Hsize : 2 <> 0) by discriminate.
  destruct (C6_zero_count_reclassified io [Byte.x01; Byte.x02] 2 s Hsize) as [Hr Hw].
  split; [exact Hsize|]. split.
  - assert (H1 : read (iface io) = Some mem_read_fn) by reflexivity.
    assert (H2 : fst (mem_read_fn 2 (entry_state s)) = []) by reflexivity.
    assert (H3 : status (snd (mem_read_fn 2 (entry_state s))) = SDL_IO_STATUS_READY)
      by reflexivity.
    split; [exact H1|]. split; [exact H2|]. split; [exact H3|].
    rewrite (Hr _ H1 H2 H3). reflexivity.
  - assert (H1 : write (iface io) = Some mem_write_fn) by reflexivity.
    assert (H2 : fst (mem_write_fn [Byte.x01; Byte.x02] 2 (entry_state s)) = 0)
      by reflexivity.
    assert (H3 : status (snd (mem_write_fn [Byte.x01; Byte.x02] 2 (entry_state s)))
                 = SDL_IO_STATUS_READY) by reflexivity.
    split; [exact H1|]. split; [exact H2|]. split; [exact H3|].
    rewrite (Hw _ H1 H2 H3). reflexivity.
Defined.

(** ** What the constructors return, and closing it *)

Ltac break_match_in H :=
  match type of H with
  | context [match ?x with _ => _ end] =>
      lazymatch x with
      | context [match _ with _ => _ end] => fail
      | _ => destruct x eqn:?
      end
  end.

Lemma SDL_OpenIO_drops_interface i ud s h s' :
  SDL_OpenIO i ud s = (Some h, s') -> h = mkStream zero_iface.
Proof.
  unfold SDL_OpenIO, SDL_calloc, next_address, acquire, SDL_InvalidParamError, SDL_SetError.
  monad_unfold. intros H.
  repeat (break_match_in H; cbn in H; try discriminate).
  all: inversion H; reflexivity.
Qed.

Lemma bind_Some {A B} (m : M A) (k : A -> M (option B)) s b s' :
  bind m k s = (Some b, s') ->
  exists a s1, m s = (a, s1) /\ k a s1 = (Some b, s').
Proof.
  unfold bind. destruct (m s) as [a s1]. eauto.
Qed.

Ltac constructor_steps H :=
  repeat match type of H with
  | bind _ _ _ = (Some _, _) =>
      let a := fresh "a" in let s1 := fresh "s" in let H1 := fresh "H" in
      apply bind_Some in H; destruct H as (a & s1 & H1 & H)
  | (if ?c then _ else _) _ = _ => destruct c
  | ret None _ = _ => discriminate H
  | match ?x with _ => _ end _ = _ => destruct x eqn:?
  end.

Ltac constructor_done H :=
  constructor_steps H;
  match goal with
  | H' : SDL_OpenIO _ _ _ = (Some _, _) |- _ =>
      apply SDL_OpenIO_drops_interface in H'; subst
  end;
  inversion H; reflexivity.

Lemma constructed_has_no_functions h :
  constructed h -> h = mkStream zero_iface.
Proof.
  intros [fd autoclose s s' H | range fp autoclose s s' H | mem size s s' H
         | mem size s s' H | s s' H].
  - unfold SDL_IOFromFD in H. constructor_done H.
  - unfold SDL_IOFromFP in H. constructor_done H.
  - unfold SDL_IOFromMem in H. constructor_done H.
  - unfold SDL_IOFromConstMem in H. constructor_done H.
  - unfold SDL_IOFromDynamicMem in H. constructor_done H.
Qed.

Lemma SDL_CloseIO_of_constructed h s :
  constructed h ->
  SDL_CloseIO (Some h) s = (true, set_live s (remove_first ResStream (live s))).
Proof.
  intros Hc. rewrite (constructed_has_no_functions h Hc). reflexivity.
Qed.

(** C1, evaluated.  The handle [SDL_IOFromFD 3 true] returns has an empty
    table; [SDL_CloseIO] on it answers true and releases the handle only:
    the backend object and the descriptor stay held and [close] is never
    called, whether that call would succeed or fail.  With the table the
    constructor filled in, closing would release both and answer what the
    backend's close answers. *)
Theorem C1_close_skips_backend_close :
  close_misses_backend 0 /\ close_misses_backend (-1).
Proof.
  split; vm_compute; repeat split.
Qed.

(** ** Growth of the growable backend *)

Lemma to_size_t_small x : 0 <= x < 2 ^ 64 -> to_size_t x = x.
Proof. intros H. unfold to_size_t. apply Z.mod_small. exact H. Qed.

Lemma ptr_add_small p off : 0 <= p + off < 2 ^ 64 -> ptr_add p off = p + off.
Proof. intros H. unfold ptr_add. apply Z.mod_small. exact H. Qed.

Lemma chunk_multiple_least chunk x :
  0 < chunk -> 0 <= x ->
  least_multiple_covering chunk (x + 1) ((x / chunk + 1) * chunk).
Proof.
  intros Hc Hx. repeat split.
  - apply Z.mod_mul. lia.
  - pose proof (Z.mod_pos_bound x chunk Hc).
    pose proof (Z.div_mod x chunk ltac:(lia)). nia.
  - intros m' Hm' Hle.
    apply Z.mod_divide in Hm'; [|lia]. destruct Hm' as [k Hk]. subst m'.
    assert (x / chunk < k).
    { apply Z.div_lt_upper_bound; lia. }
    nia.
Qed.

(** [dynamic_mem_realloc] when the allocator has the address [p] to give. *)
Lemma dynamic_mem_realloc_grows iodata size s p rest :
  heap_oracle s = p :: rest -> p <> 0 ->
  let chunksize := if to_size_t (chunkSize (props s)) =? 0 then 1024
                   else to_size_t (chunkSize (props s)) in
  let length :=
    to_size_t (to_size_t (to_size_t (to_size_t (end_ iodata - base (data iodata)) + size)
                          / chunksize + 1) * chunksize) in
  let oldlen := buffer_len (base (data iodata)) (live s) in
  dynamic_mem_realloc iodata size s =
    (negb (indeterminate s =? 0),
     mkDynData
       (mkMemData p
          (ptr_add p (to_size_t (here (data iodata) - base (data iodata))))
          (ptr_add p (to_size_t (stop (data iodata) - base (data iodata)))))
       (ptr_add p length),
     set_props
       (set_live
          (set_memory (set_heap_oracle s rest)
             (store (memory s) p
                (load (memory s) (base (data iodata)) (Z.min oldlen length))))
          (ResBuffer p length
             :: remove_first (ResBuffer (base (data iodata)) oldlen) (live s)))
       (set_memoryPtr (props s) p)).
Proof.
  intros Hheap Hp chunksize length oldlen.
  apply Z.eqb_neq in Hp.
  unfold dynamic_mem_realloc, SDL_realloc, next_address, acquire, release.
  monad_unfold. rewrite Hheap. cbn -[to_size_t ptr_add]. rewrite Hp.
  cbn -[to_size_t ptr_add]. rewrite Hp. reflexivity.
Qed.

(** [dynamic_mem_realloc] when the allocator fails. *)
Lemma dynamic_mem_realloc_fails iodata size s :
  hd 0 (heap_oracle s) = 0 ->
  dynamic_mem_realloc iodata size s =
    (false, iodata, set_heap_oracle s (tl (heap_oracle s))).
Proof.
  intros Hheap.
  unfold dynamic_mem_realloc, SDL_realloc, next_address.
  monad_unfold. destruct s as [u st pr er en m l heap os out ind].
  cbn in *. destruct heap as [|p rest]; cbn in *.
  - reflexivity.
  - subst p. cbn. reflexivity.
Qed.

Lemma dynamic_mem_realloc_layout
    (iodata : IOStreamDynamicMemData) (size : Z) (s : State) (p : Z) (rest : list Z) :
  dynamic_invariant iodata ->
  0 <= size ->
  0 <= chunkSize (props s) < 2 ^ 31 ->
  heap_oracle s = p :: rest ->
  let chunk := if chunkSize (props s) =? 0 then 1024 else chunkSize (props s) in
  let allocated := end_ iodata - base (data iodata) in
  0 < p /\ p + allocated + size + chunk < 2 ^ 64 ->
  let r := dynamic_mem_realloc iodata size s in
  let iodata' := snd (fst r) in
  exists length,
    least_multiple_covering chunk (allocated + size + 1) length /\
    In (ResBuffer p length) (live (snd r)) /\
    memoryPtr (props (snd r)) = p /\
    base (data iodata') = p /\
    end_ iodata' = p + length /\
    here (data iodata') - p = here (data iodata) - base (data iodata) /\
    stop (data iodata') - p = stop (data iodata) - base (data iodata).
Proof.
  intros (Hbh & Hhs & Hse) Hsize Hchunk Hheap chunk allocated [Hp Hfit] r iodata'.
  assert (Hcs : to_size_t (chunkSize (props s)) = chunkSize (props s))
    by (apply to_size_t_small; lia).
  assert (Hchunk' : 0 < chunk <= 2 ^ 31).
  { subst chunk. destruct (Z.eqb_spec (chunkSize (props s)) 0); lia. }
  set (length := ((allocated + size) / chunk + 1) * chunk).
  assert (Hlmc : least_multiple_covering chunk (allocated + size + 1) length)
    by (apply chunk_multiple_least; subst allocated; lia).
  assert (Hlen : allocated + size + 1 <= length <= allocated + size + chunk).
  { destruct Hlmc as (_ & Hge & _). split; [exact Hge|].
    subst length.
    pose proof (Z.mod_pos_bound (allocated + size) chunk ltac:(lia)).
    pose proof (Z.div_mod (allocated + size) chunk ltac:(lia)). nia. }
  assert (Hr : r = (negb (indeterminate s =? 0),
                    mkDynData
                      (mkMemData p (p + (here (data iodata) - base (data iodata)))
                                 (p + (stop (data iodata) - base (data iodata))))
                      (p + length),
                    snd r) /\
               live (snd r) =
                 ResBuffer p length
                   :: remove_first (ResBuffer (base (data iodata))
                                      (buffer_len (base (data iodata)) (live s)))
                                   (live s) /\
               memoryPtr (props (snd r)) = p).
  { subst r. rewrite (dynamic_mem_realloc_grows iodata size s p rest Hheap ltac:(lia)).
    rewrite Hcs. fold chunk. fold allocated.
    assert (Hdiv : 0 <= (allocated + size) / chunk <= allocated + size).
    { split; [apply Z.div_pos; subst allocated; lia|].
      apply Z.div_le_upper_bound; [lia|]. subst allocated. nia. }
    rewrite (to_size_t_small allocated) by (subst allocated; lia).
    rewrite (to_size_t_small (allocated + size)) by (subst allocated; lia).
    rewrite (to_size_t_small ((allocated + size) / chunk + 1)) by (subst allocated; lia).
    fold length.
    rewrite (to_size_t_small length) by (subst allocated; lia).
    rewrite !to_size_t_small by lia.
    rewrite !ptr_add_small by (subst allocated; lia).
    cbn [snd fst live props set_props set_live memoryPtr set_memoryPtr].
    repeat split. }
  destruct Hr as (Hr & Hlive & Hptr).
  exists length. subst iodata'. rewrite Hr. cbn [fst snd data base here stop end_].
  split; [exact Hlmc|].
  split; [rewrite Hlive; left; reflexivity|].
  split; [exact Hptr|].
  repeat split; lia.
Qed.

(** C4, amended.  When [dynamic_mem_realloc] obtains an address [p] (and no
    size computation overflows), the new allocation length is the least
    multiple of the chunk size (1024 when [chunkSize] is zero) that covers
    the currently ALLOCATED length [end - base] plus [size] plus one; the
    new base is [p], the handle's [memoryPtr] is [p], [end] is [p] plus that
    length, and the cursor and [stop] keep their offsets from the base. *)
Theorem C4_growth_in_chunks_keeps_offsets
    (iodata : IOStreamDynamicMemData) (size : Z) (s : State) (p : Z) (rest : list Z) :
  dynamic_invariant iodata ->
  0 <= size ->
  0 <= chunkSize (props s) < 2 ^ 31 ->
  heap_oracle s = p :: rest ->
  let chunk := if chunkSize (props s) =? 0 then 1024 else chunkSize (props s) in
  let allocated := end_ iodata - base (data iodata) in
  0 < p /\ p + allocated + size + chunk < 2 ^ 64 ->
  let r := dynamic_mem_realloc iodata size s in
  let iodata' := snd (fst r) in
  exists length,
    least_multiple_covering chunk (allocated + size + 1) length /\
    In (ResBuffer p length) (live (snd r)) /\
    memoryPtr (props (snd r)) = p /\
    base (data iodata') = p /\
    end_ iodata' = p + length /\
    here (data iodata') - p = here (data iodata) - base (data iodata) /\
    stop (data iodata') - p = stop (data iodata) - base (data iodata).
Proof.
  exact (dynamic_mem_realloc_layout iodata size s p rest).
Qed.

(** Growing by 1024 bytes a stream that holds one byte in one chunk. *)
Lemma C4_growth_in_chunks_keeps_offsets_witness :
  let iodata := fst one_byte_written in
  let s := snd one_byte_written in
  let r := dynamic_mem_realloc iodata 1024 s in
  dynamic_invariant iodata /\ 0 <= 1024 /\ 0 <= chunkSize (props s) < 2 ^ 31 /\
  heap_oracle s = [8192] /\
  (0 < 8192 /\ 8192 + (end_ iodata - base (data iodata)) + 1024 + 1024 < 2 ^ 64) /\
  exists length,
    least_multiple_covering 1024 (1024 + 1024 + 1) length /\
    end_ (snd (fst r)) = 8192 + length /\
    here (data (snd (fst r))) - 8192 = 1.
Proof.
  intros iodata s r.
  assert (H1 : dynamic_invariant iodata) by (vm_compute; intuition discriminate).
  assert (H2 : 0 <= 1024) by lia.
  assert (H3 : 0 <= chunkSize (props s) < 2 ^ 31) by (vm_compute; intuition discriminate).
  assert (H4 : heap_oracle s = [8192]) by reflexivity.
  assert (H5 : 0 < 8192 /\ 8192 + (end_ iodata - base (data iodata)) + 1024 + 1024 < 2 ^ 64)
    by (vm_compute; split; reflexivity).
  destruct (C4_growth_in_chunks_keeps_offsets iodata 1024 s 8192 [] H1 H2 H3 H4 H5)
    as (length & Hl & _ & _ & _ & Hend & Hhere & _).
  repeat (split; [assumption|]).
  exists length. split; [exact Hl|]. split; [exact Hend|exact Hhere].
Defined.

(** The claim reads "the current content length": [stop - base]. *)
(** C4 as stated fails: with one byte of content in a 1024-byte
    allocation, a 1024-byte request reallocates to 3072 bytes, although
    2048 is the least multiple of 1024 covering content + request + 1. *)
Lemma C4_content_length_counterexample :
  let iodata := fst one_byte_written in
  let s := snd one_byte_written in
  let iodata' := snd (fst (dynamic_mem_realloc iodata 1024 s)) in
  let content := stop (data iodata) - base (data iodata) in
  content = 1 /\
  end_ iodata' - base (data iodata') = 3072 /\
  least_multiple_covering 1024 (content + 1024 + 1) 2048 /\
  ~ least_multiple_covering 1024 (content + 1024 + 1) (end_ iodata' - base (data iodata')).
Proof.
  intros iodata s iodata' content.
  assert (Hc : content = 1) by reflexivity.
  assert (He : end_ iodata' - base (data iodata') = 3072) by reflexivity.
  rewrite Hc, He.
  split; [reflexivity|]. split; [reflexivity|]. split.
  - repeat split; try lia. intros m' Hm Hle.
    apply Z.mod_divide in Hm; [|lia]. destruct Hm as [k ->]. lia.
  - intros (_ & _ & Hmin). specialize (Hmin 2048 eq_refl ltac:(lia)). lia.
Qed.

(** *** Memory lemmas *)
(** ** Writes to memory *)

Lemma map_nth_seq (bs : list byte) :
  map (fun i => nth i bs Byte.x00) (seq 0 (length bs)) = bs.
Proof.
  induction bs as [|b bs IH]; [reflexivity|].
  cbn [length seq map nth]. f_equal.
  rewrite <- seq_shift, map_map. exact IH.
Qed.

Lemma load_store_same m p bs :
  load (store m p bs) p (Z.of_nat (length bs)) = bs.
Proof.
  unfold load. rewrite Nat2Z.id.
  transitivity (map (fun i => nth i bs Byte.x00) (seq 0 (length bs)));
    [|apply map_nth_seq].
  apply map_ext_in. intros i Hi. apply in_seq in Hi.
  unfold store.
  destruct (Z.leb_spec p (p + Z.of_nat i)); [|lia].
  destruct (Z.ltb_spec (p + Z.of_nat i) (p + Z.of_nat (length bs))); [|lia].
  cbn [andb]. replace (p + Z.of_nat i - p) with (Z.of_nat i) by lia.
  rewrite Nat2Z.id. reflexivity.
Qed.

Lemma take_all (bs : list byte) : take (Z.of_nat (length bs)) bs = bs.
Proof. unfold take. rewrite Nat2Z.id. apply firstn_all. Qed.

(** *** [mem_io] when the request fits between the cursor and [stop] *)
Lemma mem_io_write_fits d ptr size s :
  0 <= here d -> stop d < 2 ^ 64 -> 0 <= size <= stop d - here d ->
  mem_io d (FromCaller ptr) size s =
    (size, [], set_here d (here d + size),
     set_memory s (store (memory s) (here d) (take size ptr))).
Proof.
  intros Hh Hs Hsize. unfold mem_io. monad_unfold.
  rewrite to_size_t_small by lia.
  rewrite Z.gtb_ltb. destruct (Z.ltb_spec (stop d - here d) size); [lia|].
  rewrite ptr_add_small by lia. reflexivity.
Qed.

Lemma mem_io_read_fits d size s :
  0 <= here d -> stop d < 2 ^ 64 -> 0 <= size <= stop d - here d ->
  mem_io d ToCaller size s =
    (size, load (memory s) (here d) size, set_here d (here d + size), s).
Proof.
  intros Hh Hs Hsize. unfold mem_io. monad_unfold.
  rewrite to_size_t_small by lia.
  rewrite Z.gtb_ltb. destruct (Z.ltb_spec (stop d - here d) size); [lia|].
  rewrite ptr_add_small by lia. reflexivity.
Qed.

(** *** The cases of [dynamic_mem_write] *)
Lemma dynamic_mem_write_allocation_failure iodata ptr size s :
  dynamic_invariant iodata ->
  0 <= base (data iodata) -> end_ iodata < 2 ^ 64 ->
  needs_growth iodata size ->
  hd 0 (heap_oracle s) = 0 ->
  dynamic_mem_write iodata ptr size s =
    (0, iodata, set_heap_oracle s (tl (heap_oracle s))).
Proof.
  intros (Hbh & Hhs & Hse) Hb He Hgrow Hheap.
  unfold needs_growth in Hgrow. unfold dynamic_mem_write. monad_unfold.
  rewrite !to_size_t_small by lia.
  rewrite !Z.gtb_ltb.
  destruct (Z.ltb_spec (stop (data iodata) - here (data iodata)) size); [|lia].
  destruct (Z.ltb_spec (end_ iodata - here (data iodata)) size); [|lia].
  rewrite dynamic_mem_realloc_fails by exact Hheap. reflexivity.
Qed.

Lemma dynamic_mem_write_without_growth iodata ptr size s :
  dynamic_invariant iodata ->
  0 <= base (data iodata) -> end_ iodata < 2 ^ 64 ->
  0 <= size -> ~ needs_growth iodata size ->
  dynamic_mem_write iodata ptr size s =
    (size,
     mkDynData
       (mkMemData (base (data iodata)) (here (data iodata) + size)
                  (Z.max (stop (data iodata)) (here (data iodata) + size)))
       (end_ iodata),
     set_memory s (store (memory s) (here (data iodata)) (take size ptr))).
Proof.
  intros (Hbh & Hhs & Hse) Hb He Hsize Hgrow.
  unfold needs_growth in Hgrow. unfold dynamic_mem_write. monad_unfold.
  rewrite !to_size_t_small by lia.
  rewrite !Z.gtb_ltb.
  destruct (Z.ltb_spec (stop (data iodata) - here (data iodata)) size).
  - destruct (Z.ltb_spec (end_ iodata - here (data iodata)) size); [lia|].
    cbn [fst snd negb]. rewrite ptr_add_small by lia.
    unfold set_data, set_stop. cbn [data end_ base here stop].
    rewrite mem_io_write_fits by (cbn [here stop]; lia).
    cbn [fst snd here base stop set_here]. unfold set_here. cbn [here base stop].
    rewrite Z.max_r by lia. reflexivity.
  - rewrite mem_io_write_fits by lia.
    cbn [fst snd]. unfold set_data, set_here.
    rewrite Z.max_l by lia. reflexivity.
Qed.

Lemma dynamic_mem_write_with_growth iodata ptr size s p rest :
  dynamic_invariant iodata ->
  0 <= base (data iodata) -> end_ iodata < 2 ^ 64 ->
  needs_growth iodata size ->
  0 <= chunkSize (props s) < 2 ^ 31 ->
  heap_oracle s = p :: rest ->
  let chunk := if chunkSize (props s) =? 0 then 1024 else chunkSize (props s) in
  let allocated := end_ iodata - base (data iodata) in
  0 < p /\ p + allocated + size + chunk < 2 ^ 64 ->
  let g := dynamic_mem_realloc iodata size s in
  let offset := here (data iodata) - base (data iodata) in
  dynamic_mem_write iodata ptr size s =
    if negb (indeterminate s =? 0) then
      (size,
       mkDynData (mkMemData p (p + offset + size) (p + offset + size))
                 (end_ (snd (fst g))),
       set_memory (snd g) (store (memory (snd g)) (p + offset) (take size ptr)))
    else (0, snd (fst g), snd g).
Proof.
  intros Hinv Hb He Hgrow Hchunk Hheap chunk allocated Hp g offset.
  assert (Hsize : 0 <= size) by (unfold needs_growth in Hgrow; destruct Hinv; lia).
  destruct (dynamic_mem_realloc_layout iodata size s p rest
              Hinv Hsize Hchunk Hheap Hp)
    as (length & Hlmc & _ & _ & Hbase & Hend & Hhere & Hstop).
  fold g in Hbase, Hend, Hhere, Hstop.
  assert (Hok : fst (fst g) = negb (indeterminate s =? 0)).
  { subst g. rewrite (dynamic_mem_realloc_grows iodata size s p rest Hheap) by lia.
    reflexivity. }
  destruct Hinv as (Hbh & Hhs & Hse). destruct Hlmc as (_ & Hge & _).
  unfold needs_growth in Hgrow. unfold dynamic_mem_write. monad_unfold.
  rewrite !to_size_t_small by lia.
  rewrite !Z.gtb_ltb.
  destruct (Z.ltb_spec (stop (data iodata) - here (data iodata)) size); [|lia].
  destruct (Z.ltb_spec (end_ iodata - here (data iodata)) size); [|lia].
  fold g. destruct g as [[ok iodata'] s']. cbn [fst snd] in *. subst ok.
  destruct (negb (indeterminate s =? 0)); cbn [negb]; [|reflexivity].
  destruct iodata' as [[b' h' st'] e']. cbn [data base here stop end_] in *.
  subst b'. unfold set_data, set_stop. cbn [data base here stop end_].
  assert (Hh' : h' = p + offset) by (subst offset; lia).
  subst allocated chunk.
  assert (Hc : 0 < (if chunkSize (props s) =? 0 then 1024 else chunkSize (props s)))
    by (destruct (Z.eqb_spec (chunkSize (props s)) 0); lia).
  rewrite ptr_add_small by lia.
  rewrite mem_io_write_fits by (cbn [here stop]; lia).
  cbn [fst snd]. unfold set_here. cbn [here base stop]. subst h'. reflexivity.
Qed.

(** C3, evaluated.  A one-byte write to a fresh growable stream needs
    growth and the allocator succeeds, yet, the caller of
    [dynamic_mem_realloc] reading a zero where the function returns
    nothing, the write reports 0 bytes: the buffer has been allocated and
    recorded and no byte transferred.  With a non-zero value there the same
    write transfers its byte. *)
Theorem C3_grown_write_reports_zero :
  let iodata := fst (fresh_dynamic 0) in
  let s := snd (fresh_dynamic 0) in
  let r := dynamic_mem_write iodata [Byte.x2a] 1 s in
  needs_growth iodata 1 /\
  hd 0 (heap_oracle s) = 4096 /\
  fst (fst r) = 0 /\
  snd (fst r) = mkDynData (mkMemData 4096 4096 4096) 5120 /\
  live (snd r) = [ResBuffer 4096 1024; ResStream; ResUserdata] /\
  memoryPtr (props (snd r)) = 4096 /\
  load (memory (snd r)) 4096 1 = [Byte.x00] /\
  fst (fst (dynamic_mem_write iodata [Byte.x2a] 1 (snd (fresh_dynamic 1)))) = 1.
Proof.
  vm_compute. repeat split.
Qed.

(** ** Write, rewind, read *)

Lemma SDL_WriteIO_calls h g ptr size s :
  write (iface h) = Some g -> size <> 0 ->
  fst (g ptr size (entry_state s)) <> 0 ->
  SDL_WriteIO (Some h) ptr size s = g ptr size (entry_state s).
Proof.
  intros Hg Hsize Hn. apply Z.eqb_neq in Hsize.
  unfold SDL_WriteIO. rewrite Hg. unfold SDL_ClearError. monad_unfold.
  rewrite Hsize. fold (entry_state s).
  destruct (g ptr size (entry_state s)) as [bytes s1]. cbn [fst] in Hn.
  apply Z.eqb_neq in Hn. rewrite Hn. reflexivity.
Qed.

Lemma SDL_ReadIO_calls h f size s :
  read (iface h) = Some f -> size <> 0 ->
  fst (f size (entry_state s)) <> [] ->
  SDL_ReadIO (Some h) size s = f size (entry_state s).
Proof.
  intros Hf Hsize Hn. apply Z.eqb_neq in Hsize.
  unfold SDL_ReadIO. rewrite Hf. unfold SDL_ClearError. monad_unfold.
  rewrite Hsize. fold (entry_state s).
  destruct (f size (entry_state s)) as [bytes s1]. cbn [fst] in Hn.
  destruct bytes; [contradiction|reflexivity].
Qed.

Lemma SDL_ReadIO_nothing h f s :
  read (iface h) = Some f -> SDL_ReadIO (Some h) 0 s = ([], entry_state s).
Proof. intros Hf. unfold SDL_ReadIO. rewrite Hf. reflexivity. Qed.

Lemma SDL_WriteIO_nothing h g ptr s :
  write (iface h) = Some g -> SDL_WriteIO (Some h) ptr 0 s = (0, entry_state s).
Proof. intros Hg. unfold SDL_WriteIO. rewrite Hg. reflexivity. Qed.

Lemma length_zero_nil {A} (l : list A) : Z.of_nat (length l) = 0 -> l = [].
Proof. destruct l; [reflexivity|cbn; lia]. Qed.

(** *** The table functions of the memory backends on a state whose
    [userdata] is known *)
Lemma mem_write_fn_fits d ptr size s :
  userdata s = UD_mem d ->
  0 <= here d -> stop d < 2 ^ 64 -> 0 <= size <= stop d - here d ->
  mem_write_fn ptr size s =
    (size, set_userdata (set_memory s (store (memory s) (here d) (take size ptr)))
                        (UD_mem (set_here d (here d + size)))).
Proof.
  intros Hud Hh Hs Hsize.
  unfold mem_write_fn, in_userdata, mem_write. monad_unfold.
  rewrite Hud. cbn [as_mem]. rewrite mem_io_write_fits by lia. reflexivity.
Qed.

Lemma mem_read_fn_fits d size s :
  userdata s = UD_mem d ->
  0 <= here d -> stop d < 2 ^ 64 -> 0 <= size <= stop d - here d ->
  mem_read_fn size s =
    (load (memory s) (here d) size,
     set_userdata s (UD_mem (set_here d (here d + size)))).
Proof.
  intros Hud Hh Hs Hsize.
  unfold mem_read_fn, in_userdata, mem_read. monad_unfold.
  rewrite Hud. cbn [as_mem]. rewrite mem_io_read_fits by lia. reflexivity.
Qed.

Lemma mem_seek_start d :
  0 <= base d <= stop d -> stop d < 2 ^ 64 ->
  mem_seek d 0 SDL_IO_SEEK_SET = (0, set_here d (base d)).
Proof.
  intros Hb Hs. unfold mem_seek. rewrite ptr_add_small by lia.
  rewrite Z.add_0_r, Z.ltb_irrefl, Z.gtb_ltb.
  destruct (Z.ltb_spec (stop d) (base d)); [lia|].
  unfold set_here. cbn [here base]. rewrite Z.sub_diag. reflexivity.
Qed.

Lemma mem_seek_fn_start d s :
  userdata s = UD_mem d ->
  0 <= base d <= stop d -> stop d < 2 ^ 64 ->
  mem_seek_fn 0 SDL_IO_SEEK_SET s = (0, set_userdata s (UD_mem (set_here d (base d)))).
Proof.
  intros Hud Hb Hs. unfold mem_seek_fn, in_userdata. monad_unfold.
  rewrite Hud. cbn [as_mem]. rewrite mem_seek_start by assumption. reflexivity.
Qed.

Lemma dynamic_mem_write_fn_eq d ptr size s :
  userdata s = UD_dynamic d ->
  dynamic_mem_write_fn ptr size s =
    (fst (fst (dynamic_mem_write d ptr size s)),
     set_userdata (snd (dynamic_mem_write d ptr size s))
                  (UD_dynamic (snd (fst (dynamic_mem_write d ptr size s))))).
Proof.
  intros Hud. unfold dynamic_mem_write_fn, in_userdata. monad_unfold.
  rewrite Hud. cbn [as_dynamic].
  destruct (dynamic_mem_write d ptr size s) as [[n d'] s']. reflexivity.
Qed.

Lemma dynamic_mem_seek_fn_start d s :
  userdata s = UD_dynamic d ->
  0 <= base (data d) <= stop (data d) -> stop (data d) < 2 ^ 64 ->
  dynamic_mem_seek_fn 0 SDL_IO_SEEK_SET s =
    (0, set_userdata s (UD_dynamic (set_data d (set_here (data d) (base (data d)))))).
Proof.
  intros Hud Hb Hs. unfold dynamic_mem_seek_fn, in_userdata, dynamic_mem_seek.
  monad_unfold. rewrite Hud. cbn [as_dynamic].
  rewrite mem_seek_start by assumption. reflexivity.
Qed.

Lemma dynamic_mem_read_fn_fits d size s :
  userdata s = UD_dynamic d ->
  0 <= here (data d) -> stop (data d) < 2 ^ 64 ->
  0 <= size <= stop (data d) - here (data d) ->
  dynamic_mem_read_fn size s =
    (load (memory s) (here (data d)) size,
     set_userdata s (UD_dynamic (set_data d (set_here (data d) (here (data d) + size))))).
Proof.
  intros Hud Hh Hs Hsize.
  unfold dynamic_mem_read_fn, in_userdata, dynamic_mem_read. monad_unfold.
  rewrite Hud. cbn [as_dynamic]. rewrite mem_io_read_fits by lia. reflexivity.
Qed.

Lemma round_trip_fixed b s d :
  userdata s = UD_mem d ->
  here d = base d -> 0 <= base d -> stop d < 2 ^ 64 ->
  Z.of_nat (length b) <= stop d - base d ->
  round_trip (Some (mkStream mem_interface)) b s = b.
Proof.
  intros Hud Hhere Hb Hs Hfit. unfold round_trip.
  set (size := Z.of_nat (length b)) in *.
  destruct (Z.eq_dec size 0) as [Hz | Hnz].
  - rewrite Hz. rewrite (SDL_WriteIO_nothing _ mem_write_fn) by reflexivity.
    cbn [snd]. rewrite (SDL_ReadIO_nothing _ mem_read_fn) by reflexivity.
    symmetry. apply length_zero_nil. exact Hz.
  - assert (Hpos : 0 < size) by (subst size; lia).
    assert (Hw : mem_write_fn b size (entry_state s) =
                 (size, set_userdata
                          (set_memory (entry_state s) (store (memory s) (base d) b))
                          (UD_mem (set_here d (base d + size))))).
    { rewrite (mem_write_fn_fits d) by (try exact Hud; lia).
      rewrite Hhere. subst size. rewrite take_all. reflexivity. }
    rewrite (SDL_WriteIO_calls _ mem_write_fn) by
      (try reflexivity; try assumption; rewrite Hw; cbn [fst]; lia).
    rewrite Hw. cbn [snd]. clear Hw.
    set (s1 := set_userdata _ _).
    unfold SDL_SeekIO. cbn [iface seek mem_interface].
    rewrite (mem_seek_fn_start (set_here d (base d + size)))
      by (try reflexivity; cbn [base stop set_here]; lia).
    cbn [snd base set_here].
    set (s2 := set_userdata s1 _).
    assert (Hr : mem_read_fn size (entry_state s2) =
                 (b, set_userdata (entry_state s2)
                       (UD_mem (set_here (set_here (set_here d (base d + size)) (base d))
                                         (base d + size))))).
    { rewrite (mem_read_fn_fits (set_here (set_here d (base d + size)) (base d)))
        by (try reflexivity; cbn [here base stop set_here]; lia).
      cbn [here set_here]. f_equal.
      subst s2 s1. cbn [memory entry_state set_error set_status set_userdata set_memory].
      subst size. apply load_store_same. }
    rewrite (SDL_ReadIO_calls _ mem_read_fn) by
      (try reflexivity; try assumption; rewrite Hr; cbn [fst];
       intros ->; cbn in Hpos; lia).
    rewrite Hr. reflexivity.
Qed.

Lemma dynamic_mem_write_at_start_in_place d b s :
  dynamic_invariant d ->
  here (data d) = base (data d) -> 0 <= base (data d) -> end_ d < 2 ^ 64 ->
  ~ needs_growth d (Z.of_nat (length b)) ->
  exists d' s',
    dynamic_mem_write d b (Z.of_nat (length b)) s = (Z.of_nat (length b), d', s') /\
    written_at_start b d' s'.
Proof.
  intros Hinv Hhere Hb He Hng.
  rewrite dynamic_mem_write_without_growth by (try assumption; lia).
  eexists. eexists. split; [reflexivity|].
  destruct Hinv as (Hbh & Hhs & Hse). unfold needs_growth in Hng.
  unfold written_at_start. cbn [data base here stop memory set_memory].
  rewrite Hhere, take_all.
  repeat split; try lia. apply load_store_same.
Qed.

Lemma dynamic_mem_write_at_start_grown d b s p rest :
  dynamic_invariant d ->
  here (data d) = base (data d) -> 0 <= base (data d) -> end_ d < 2 ^ 64 ->
  needs_growth d (Z.of_nat (length b)) ->
  0 <= chunkSize (props s) < 2 ^ 31 ->
  heap_oracle s = p :: rest ->
  0 < p ->
  p + (end_ d - base (data d)) + Z.of_nat (length b)
    + (if chunkSize (props s) =? 0 then 1024 else chunkSize (props s)) < 2 ^ 64 ->
  indeterminate s <> 0 ->
  exists d' s',
    dynamic_mem_write d b (Z.of_nat (length b)) s = (Z.of_nat (length b), d', s') /\
    written_at_start b d' s'.
Proof.
  intros Hinv Hhere Hb He Hg Hchunk Hheap Hp Hfit Hind.
  rewrite (dynamic_mem_write_with_growth d b _ s p rest)
    by (try assumption; split; assumption).
  apply Z.eqb_neq in Hind. rewrite Hind. cbn [negb].
  eexists. eexists. split; [reflexivity|].
  destruct Hinv as (Hbh & Hhs & Hse).
  assert (Hc : 0 < (if chunkSize (props s) =? 0 then 1024 else chunkSize (props s)))
    by (destruct (Z.eqb_spec (chunkSize (props s)) 0); lia).
  unfold written_at_start. cbn [data base here stop memory set_memory].
  rewrite Hhere, Z.sub_diag, Z.add_0_r, take_all.
  repeat split; try lia. apply load_store_same.
Qed.

Lemma round_trip_growable b s d d' s' :
  userdata s = UD_dynamic d ->
  dynamic_mem_write d b (Z.of_nat (length b)) (entry_state s)
    = (Z.of_nat (length b), d', s') ->
  written_at_start b d' s' ->
  round_trip (Some (mkStream dynamic_mem_interface)) b s = b.
Proof.
  intros Hud Hwrite (Hb & Hhere & Hhs & Hs & Hload). unfold round_trip.
  set (size := Z.of_nat (length b)) in *.
  destruct (Z.eq_dec size 0) as [Hz | Hnz].
  - rewrite Hz. rewrite (SDL_WriteIO_nothing _ dynamic_mem_write_fn) by reflexivity.
    cbn [snd]. rewrite (SDL_ReadIO_nothing _ dynamic_mem_read_fn) by reflexivity.
    symmetry. apply length_zero_nil. exact Hz.
  - assert (Hpos : 0 < size) by (subst size; lia).
    assert (Hw : dynamic_mem_write_fn b size (entry_state s) =
                 (size, set_userdata s' (UD_dynamic d'))).
    { rewrite (dynamic_mem_write_fn_eq d) by exact Hud. rewrite Hwrite. reflexivity. }
    rewrite (SDL_WriteIO_calls _ dynamic_mem_write_fn) by
      (try reflexivity; try assumption; rewrite Hw; cbn [fst]; lia).
    rewrite Hw. cbn [snd]. clear Hw.
    set (s1 := set_userdata s' _).
    unfold SDL_SeekIO. cbn [iface seek dynamic_mem_interface].
    rewrite (dynamic_mem_seek_fn_start d') by (try reflexivity; lia).
    cbn [snd].
    set (d2 := set_data d' _). set (s2 := set_userdata s1 _).
    assert (Hr : dynamic_mem_read_fn size (entry_state s2) =
                 (b, set_userdata (entry_state s2)
                       (UD_dynamic (set_data d2 (set_here (data d2) (here (data d2) + size)))))).
    { rewrite (dynamic_mem_read_fn_fits d2)
        by (try reflexivity; subst d2; cbn [data set_data here base stop set_here]; lia).
      f_equal. subst d2 s2 s1.
      cbn [memory entry_state set_error set_status set_userdata data set_data here set_here].
      exact Hload. }
    rewrite (SDL_ReadIO_calls _ dynamic_mem_read_fn) by
      (try reflexivity; try assumption; rewrite Hr; cbn [fst];
       intros ->; cbn in Hpos; lia).
    rewrite Hr. reflexivity.
Qed.

(** C2, amended.  Through a handle whose table holds the functions of the
    fixed read-write memory backend or of the growable memory backend, with
    the cursor at the start and room for [b] (see [writable_at_start]),
    writing [b], seeking to offset 0 from the start and reading [|b|] bytes
    returns exactly [b]. *)
Theorem C2_round_trip_of_writable_memory (h : SDL_IOStream) (b : list byte) (s : State) :
  writable_at_start b s h ->
  round_trip (Some h) b s = b.
Proof.
  intros [d Hud Hhere Hb Hs Hfit
         | d Hud Hinv Hhere Hb He Hng
         | d p rest Hud Hinv Hhere Hb He Hg Hchunk Hheap Hp Hfit Hind].
  - exact (round_trip_fixed b s d Hud Hhere Hb Hs Hfit).
  - destruct (dynamic_mem_write_at_start_in_place d b (entry_state s)
                Hinv Hhere Hb He Hng) as (d' & s' & Hw & Hpost).
    exact (round_trip_growable b s d d' s' Hud Hw Hpost).
  - destruct (dynamic_mem_write_at_start_grown d b (entry_state s) p rest
                Hinv Hhere Hb He Hg Hchunk Hheap Hp Hfit Hind)
      as (d' & s' & Hw & Hpost).
    exact (round_trip_growable b s d d' s' Hud Hw Hpost).
Qed.

(** Two bytes through the growable backend as [SDL_IOFromDynamicMem]
    leaves it. *)
Lemma C2_round_trip_of_writable_memory_witness :
  writable_at_start [Byte.x2a; Byte.x2b] growable_demo (mkStream dynamic_mem_interface) /\
  round_trip (Some (mkStream dynamic_mem_interface)) [Byte.x2a; Byte.x2b] growable_demo
    = [Byte.x2a; Byte.x2b].
Proof.
  assert (H : writable_at_start [Byte.x2a; Byte.x2b] growable_demo
                (mkStream dynamic_mem_interface)).
  { apply (growable_grown _ _ (mkDynData (mkMemData 0 0 0) 0) 12288 []);
      try reflexivity; try (vm_compute; intuition discriminate). }
  split; [exact H|].
  exact (C2_round_trip_of_writable_memory _ _ _ H).
Defined.

(** The other two kinds of [writable_at_start] streams. *)
Example round_trip_fixed_and_in_place :
  round_trip (Some (mkStream mem_interface)) [Byte.x2a; Byte.x2b; Byte.x2c] fixed_demo
    = [Byte.x2a; Byte.x2b; Byte.x2c] /\
  round_trip (Some (mkStream dynamic_mem_interface)) [Byte.x2a; Byte.x2b] rewound_demo
    = [Byte.x2a; Byte.x2b].
Proof.
  split.
  - apply (round_trip_fixed _ _ (mkMemData 1000 1000 1003));
      try reflexivity; vm_compute; discriminate.
  - assert (Hplace : exists d' s',
              dynamic_mem_write (mkDynData (mkMemData 4096 4096 4097) 5120)
                [Byte.x2a; Byte.x2b] 2 (entry_state rewound_demo) = (2, d', s') /\
              written_at_start [Byte.x2a; Byte.x2b] d' s').
    { apply (dynamic_mem_write_at_start_in_place
               (mkDynData (mkMemData 4096 4096 4097) 5120) [Byte.x2a; Byte.x2b]);
        try reflexivity; vm_compute; intuition discriminate. }
    destruct Hplace as (d' & s' & Hw & Hpost).
    exact (round_trip_growable _ rewound_demo _ d' s' eq_refl Hw Hpost).
Qed.

(** The handle [SDL_IOFromDynamicMem] returns accepts no write at all. *)
Example round_trip_of_constructed_growable :
  let opened := SDL_IOFromDynamicMem (demo_state [] [4096; 8192; 12288] [] 1) in
  fst opened = Some (mkStream zero_iface) /\
  SDL_WriteIO (fst opened) [Byte.x2a] 1 (snd opened)
    = (0, set_error (set_status (snd opened) SDL_IO_STATUS_READONLY)
            "That operation is not supported") /\
  round_trip (fst opened) [Byte.x2a] (snd opened) = [].
Proof.
  vm_compute. repeat split.
Qed.

(** C2 as stated fails: through the handle [SDL_IOFromConstMem] returns,
    the byte written is not the byte read back. *)
Lemma C2_round_trip_counterexample :
  fst const_mem_demo = Some (mkStream zero_iface) /\
  round_trip (fst const_mem_demo) [Byte.x2a] (snd const_mem_demo) <> [Byte.x2a].
Proof.
  split; [reflexivity|]. vm_compute. discriminate.
Qed.

(** ** Fixed-width readers *)

(** C9, amended.  Each fixed-width reader makes exactly one [SDL_ReadIO]
    call of its width and answers true exactly when that call returned as
    many bytes as the width; whatever the count, it stores the byte-order
    conversion of its zero-initialised object with the bytes returned laid
    over it, which is zero when the call returned no byte at all. *)
Theorem C9_short_read_fails_without_data
    (big_endian_host : bool) (src : option SDL_IOStream) (s : State) :
  Forall (reader_outcome big_endian_host src s) (readers big_endian_host).
Proof.
  unfold readers, reader_outcome.
  repeat constructor; cbn [fst snd];
    unfold SDL_ReadU8Ptr, SDL_ReadS8, SDL_ReadS16LE, SDL_ReadS16BE, SDL_ReadS32LE,
      SDL_ReadS32BE, SDL_ReadS64LE, SDL_ReadS64BE, SDL_ReadU16LE, SDL_ReadU16BE,
      SDL_ReadU32LE, SDL_ReadU32BE, SDL_ReadU64LE, SDL_ReadU64BE, read_object;
    monad_unfold;
    match goal with
    | |- context [SDL_ReadIO src ?w s] => destruct (SDL_ReadIO src w s) as [bytes s']
    end; cbn [fst snd]; try reflexivity;
    intros ->; destruct big_endian_host; reflexivity.
Qed.

(** A 32-bit read through a handle that delivers nothing. *)
Lemma C9_short_read_fails_without_data_witness :
  let src := fst const_mem_demo in
  let s := snd const_mem_demo in
  fst (SDL_ReadIO src 4 s) = [] /\
  fst (SDL_ReadU32LE false src s) = (false, 0).
Proof.
  intros src s.
  assert (H : fst (SDL_ReadIO src 4 s) = []) by reflexivity.
  split; [exact H|].
  pose proof (C9_short_read_fails_without_data false src s) as Hall.
  unfold readers in Hall.
  do 6 (apply Forall_inv_tail in Hall). apply Forall_inv in Hall.
  destruct Hall as (_ & Hres & _ & Hval). cbn [fst snd] in Hres, Hval.
  rewrite (surjective_pairing (fst (SDL_ReadU32LE false src s))).
  rewrite Hres, (Hval H). reflexivity.
Defined.

(** C9 as stated fails: when one byte [0xab] of the two is delivered, the
    16-bit readers answer false and store a non-zero value, the swap having
    been applied to the partly read object. *)
Lemma C9_partial_read_counterexample :
  partial_read_outcome false /\ partial_read_outcome true.
Proof.
  split; vm_compute; repeat split.
Qed.

(** ** Saving a buffer *)

(** C5, evaluated.  Saving three bytes to a descriptor that accepts one,
    then would block, then accepts the rest: [SDL_SaveFile_IO] succeeds and
    the descriptor has received four bytes, the first one twice.  With
    three short writes a byte is sent twice as well. *)
Theorem C5_retry_restarts_at_last_count :
  let data := [Byte.x01; Byte.x02; Byte.x03] in
  let stalled := fd_stream [wrote 1; would_block; wrote 3] in
  let slow := fd_stream [wrote 1; wrote 1; wrote 2] in
  let r1 := SDL_SaveFile_IO 10 (fst stalled) (Some data) 3 false (snd stalled) in
  let r2 := SDL_SaveFile_IO 10 (fst slow) (Some data) 3 false (snd slow) in
  fst r1 = Some true /\
  os_out (snd r1) = [Byte.x01; Byte.x01; Byte.x02; Byte.x03] /\
  fst r2 = Some true /\
  os_out (snd r2) = [Byte.x01; Byte.x02; Byte.x02; Byte.x03].
Proof.
  vm_compute. repeat split.
Qed.

(** ** Loading a stream of unknown size *)

Lemma SDL_realloc_gives old len s p rest :
  heap_oracle s = p :: rest -> p <> 0 ->
  exists s', SDL_realloc old len s = (p, s') /\
             allocator_only s s' /\ heap_oracle s' = rest.
Proof.
  intros Hheap Hp. apply Z.eqb_neq in Hp.
  unfold SDL_realloc, next_address, acquire, release. monad_unfold.
  rewrite Hheap. cbn. rewrite Hp. cbn.
  eexists. split; [reflexivity|]. split; [|reflexivity].
  repeat split.
Qed.

Lemma SDL_malloc_gives len s p rest :
  heap_oracle s = p :: rest -> p <> 0 ->
  exists s', SDL_malloc len s = (p, s') /\
             allocator_only s s' /\ heap_oracle s' = rest.
Proof.
  intros Hheap Hp. apply Z.eqb_neq in Hp.
  unfold SDL_malloc, next_address, acquire. monad_unfold.
  rewrite Hheap. cbn. rewrite Hp. cbn.
  eexists. split; [reflexivity|]. split; [|reflexivity].
  repeat split.
Qed.

Section LoadAll.

Variable src : SDL_IOStream.
Variable avail : State -> list byte.
Variable pending : State -> nat.
Hypothesis stream : delivers src avail pending.

Lemma SDL_LoadFile_IO_loop_drains :
  forall rounds s size acc addr,
    (pending s < rounds)%nat ->
    size <= len acc + FILE_CHUNK_SIZE ->
    (growth_due size (len acc) + length (avail s) <= length (heap_oracle s))%nat ->
    Forall (fun p => p <> 0) (heap_oracle s) ->
    len acc + len (avail s) < 2 ^ 62 ->
    exists addr',
      fst (SDL_LoadFile_IO_loop rounds (Some src) true size (len acc)
             (mkBuffer addr (size + 1) acc) s) =
      Some (Some (mkBuffer addr' (len (acc ++ avail s) + FILE_CHUNK_SIZE + 1)
                           ((acc ++ avail s) ++ [Byte.x00])),
            len (acc ++ avail s)).
Proof.
  induction rounds as [|rounds IH]; intros s size acc addr Hp Hsize Hheap Hnz Hbig;
    [lia|].
  assert (Hlen0 : 0 <= len acc) by (unfold len; lia).
  assert (Hlen1 : 0 <= len (avail s)) by (unfold len; lia).
  (* the growth step *)
  assert (Hgrow : exists addr1 s1,
            (if true && (len acc + FILE_CHUNK_SIZE >? size) then
               let size := len acc + FILE_CHUNK_SIZE in
               bind (if to_size_t size >=? SIZE_MAX - 1 then ret 0
                     else SDL_realloc addr (to_size_t (size + 1)))
                 (fun newdata =>
                    if newdata =? 0 then
                      bind (SDL_free_buffer addr) (fun _ => ret None)
                    else ret (Some (size, mkBuffer newdata (to_size_t (size + 1)) acc)))
             else ret (Some (size, mkBuffer addr (size + 1) acc))) s
            = (Some (len acc + FILE_CHUNK_SIZE,
                     mkBuffer addr1 (len acc + FILE_CHUNK_SIZE + 1) acc), s1) /\
            allocator_only s s1 /\
            (length (avail s) <= length (heap_oracle s1))%nat /\
            Forall (fun p => p <> 0) (heap_oracle s1)).
  { cbn [andb]. rewrite Z.gtb_ltb.
    destruct (Z.ltb_spec size (len acc + FILE_CHUNK_SIZE)) as [Hlt | Hge].
    - unfold growth_due in Hheap.
      destruct (Z.ltb_spec size (len acc + FILE_CHUNK_SIZE)); [|lia].
      destruct (heap_oracle s) as [|p rest] eqn:Hho; [cbn in Hheap; lia|].
      inversion Hnz as [|? ? Hp0 Hrest]; subst.
      destruct (SDL_realloc_gives addr (to_size_t (len acc + FILE_CHUNK_SIZE + 1)) s p rest
                  Hho Hp0) as (s1 & Hre & Hal & Hho1).
      exists p, s1. unfold bind.
      assert (Hsm : (to_size_t (len acc + FILE_CHUNK_SIZE) >=? SIZE_MAX - 1) = false).
      { rewrite to_size_t_small by (unfold FILE_CHUNK_SIZE; lia).
        unfold SIZE_MAX, FILE_CHUNK_SIZE. rewrite Z.geb_leb. apply Z.leb_gt. lia. }
      rewrite Hsm, Hre.
      apply Z.eqb_neq in Hp0. rewrite Hp0.
      rewrite to_size_t_small by (unfold FILE_CHUNK_SIZE; lia).
      split; [reflexivity|]. split; [exact Hal|].
      rewrite Hho1. cbn in Hheap. split; [lia|exact Hrest].
    - exists addr, s. assert (size = len acc + FILE_CHUNK_SIZE) by lia. subst size.
      split; [reflexivity|]. split; [repeat split|].
      split; [lia|exact Hnz]. }
  destruct Hgrow as (addr1 & s1 & Hstep & Hal & Hheap1 & Hnz1).
  destruct (delivers_frame _ _ _ stream s s1 Hal) as [Hav1 Hpe1].
  cbn [SDL_LoadFile_IO_loop buf_addr buf_len buf_bytes]. unfold bind at 1.
  cbn zeta in Hstep. rewrite Hstep.
  replace (to_size_t (len acc + FILE_CHUNK_SIZE - len acc)) with FILE_CHUNK_SIZE
    by (replace (len acc + FILE_CHUNK_SIZE - len acc) with FILE_CHUNK_SIZE by lia;
        reflexivity).
  pose proof (delivers_read _ _ _ stream s1) as Hread. cbn zeta in Hread.
  unfold bind at 1.
  destruct (SDL_ReadIO (Some src) FILE_CHUNK_SIZE s1) as [bytes s2] eqn:Hrd.
  cbn [fst snd] in Hread. destruct Hread as [Hho2 Hcase].
  destruct bytes as [|b bytes].
  - (* nothing read *)
    cbn [length Z.of_nat]. rewrite Z.gtb_ltb, Z.ltb_irrefl.
    unfold SDL_GetIOStatus, SDL_Delay. monad_unfold.
    fold (is_not_ready (status s2)).
    destruct (is_not_ready (status s2)).
    + destruct Hcase as [Hav2 Hpe2].
      destruct (IH s2 (len acc + FILE_CHUNK_SIZE) acc addr1) as (addr' & Hres).
      * lia.
      * lia.
      * unfold growth_due. rewrite Z.ltb_irrefl. rewrite Hav2, Hav1, Hho2. cbn. lia.
      * rewrite Hho2. exact Hnz1.
      * rewrite Hav2, Hav1. exact Hbig.
      * exists addr'. rewrite Hav2, Hav1 in Hres. exact Hres.
    + exists addr1. cbn [fst]. rewrite <- Hav1, Hcase, app_nil_r.
      unfold store_at, take, len. cbn [buf_addr buf_len buf_bytes].
      rewrite Nat2Z.id, firstn_all. reflexivity.
  - (* a chunk read *)
    destruct Hcase as [Hav2 Hpe2].
    set (chunk := b :: bytes) in *.
    assert (Hpos : 0 < len chunk) by (unfold len, chunk; cbn [length]; lia).
    fold (len chunk). rewrite Z.gtb_ltb.
    destruct (Z.ltb_spec 0 (len chunk)); [|lia].
    assert (Hacc : store_at (mkBuffer addr1 (len acc + FILE_CHUNK_SIZE + 1) acc)
                     (len acc) chunk =
                   mkBuffer addr1 (len acc + FILE_CHUNK_SIZE + 1) (acc ++ chunk)).
    { unfold store_at, take, len. cbn [buf_addr buf_len buf_bytes].
      rewrite Nat2Z.id, firstn_all. reflexivity. }
    rewrite Hacc.
    assert (Hsum : len acc + len chunk = len (acc ++ chunk))
      by (unfold len; rewrite length_app; lia).
    rewrite Hsum.
    assert (Hsplit : length (avail s) = (length chunk + length (avail s2))%nat).
    { rewrite <- Hav1, Hav2, length_app. reflexivity. }
    destruct (IH s2 (len acc + FILE_CHUNK_SIZE) (acc ++ chunk) addr1) as (addr' & Hres).
    + lia.
    + lia.
    + unfold growth_due.
      destruct (Z.ltb_spec (len acc + FILE_CHUNK_SIZE) (len (acc ++ chunk) + FILE_CHUNK_SIZE));
        [|lia].
      rewrite Hho2. unfold len in Hpos. lia.
    + rewrite Hho2. exact Hnz1.
    + unfold len in *. rewrite length_app. lia.
    + exists addr'. rewrite Hres.
      rewrite <- Hav1, Hav2, !app_assoc. reflexivity.
Qed.

(** C8.  For a stream that delivers its bytes to chunk-sized reads (see
    [delivers]) and whose size query fails: with allocations that succeed
    and enough rounds for the reads that deliver or stall,
    [SDL_LoadFile_IO] returns a buffer holding the available bytes followed
    by a zero byte, reports their number as the length, and the allocation
    is that length plus one chunk of 1024 plus one. *)
Theorem C8_unknown_size_loads_in_chunks
    (rounds : nat) (closeio : bool) (s : State) :
  let query := SDL_GetIOSize (Some src) s in
  let all := avail (snd query) in
  fst query < 0 ->
  Forall (fun p => p <> 0) (heap_oracle (snd query)) ->
  (length all < length (heap_oracle (snd query)))%nat ->
  len all < 2 ^ 62 ->
  (pending (snd query) < rounds)%nat ->
  exists addr,
    fst (SDL_LoadFile_IO rounds (Some src) closeio s) =
    Some (Some (mkBuffer addr (len all + FILE_CHUNK_SIZE + 1) (all ++ [Byte.x00])),
          len all).
Proof.
  intros query all Hneg Hnz Henough Hbig Hrounds.
  unfold SDL_LoadFile_IO. unfold bind at 1. unfold bind at 1.
  fold query. destruct query as [sz s1] eqn:Hq. cbn [fst snd] in *. subst all.
  destruct (Z.ltb_spec sz 0); [|lia].
  assert (Hsm : (to_size_t FILE_CHUNK_SIZE >=? SIZE_MAX - 1) = false) by reflexivity.
  rewrite Hsm.
  destruct (heap_oracle s1) as [|p rest] eqn:Hho; [cbn in Henough; lia|].
  inversion Hnz as [|? ? Hp0 Hrest]; subst.
  destruct (SDL_malloc_gives (to_size_t (FILE_CHUNK_SIZE + 1)) s1 p rest Hho Hp0)
    as (s2 & Hm & Hal & Hho2).
  unfold bind at 1. rewrite Hm.
  apply Z.eqb_neq in Hp0. rewrite Hp0.
  destruct (delivers_frame _ _ _ stream s1 s2 Hal) as [Hav2 Hpe2].
  destruct (SDL_LoadFile_IO_loop_drains rounds s2 FILE_CHUNK_SIZE [] p) as (addr & Hres).
  - lia.
  - unfold len. cbn. lia.
  - change (growth_due FILE_CHUNK_SIZE (len [])) with 0%nat.
    rewrite Hav2, Hho2. cbn [length] in Henough. lia.
  - rewrite Hho2. exact Hrest.
  - rewrite Hav2. change (len []) with 0. lia.
  - exists addr. cbn [app] in Hres. rewrite Hav2 in Hres.
    change (to_size_t (FILE_CHUNK_SIZE + 1)) with (FILE_CHUNK_SIZE + 1).
    change (len []) with 0 in Hres.
    destruct (SDL_LoadFile_IO_loop rounds (Some src) true FILE_CHUNK_SIZE 0
                (mkBuffer p (FILE_CHUNK_SIZE + 1) []) s2) as [res s3].
    cbn [fst] in Hres. subst res.
    destruct closeio; unfold bind;
      destruct (SDL_CloseIO (Some src) s3); reflexivity.
Qed.

End LoadAll.

(** *** A descriptor as such a stream *)

Lemma retry_eintr_step {A} n (call : M A) failed s :
  retry_eintr (S n) call failed s =
    if failed (fst (call s)) && (errno (snd (call s)) =? EINTR)
    then retry_eintr n call failed (snd (call s))
    else call s.
Proof.
  cbn [retry_eintr]. monad_unfold. destruct (call s) as [r s1]. cbn [fst snd].
  destruct (failed r && (errno s1 =? EINTR)); reflexivity.
Qed.

Lemma retry_eintr_last {A} (call : M A) failed s :
  retry_eintr 0 call failed s = call s.
Proof.
  cbn [retry_eintr]. monad_unfold. destruct (call s) as [r s1]. reflexivity.
Qed.

Lemma sys_read_eq size s :
  sys_read size s =
    match os_oracle s with
    | [] => (-1, [], set_errno s EIO)
    | r :: rest =>
        if os_ret r <? 0
        then (-1, [], set_os_oracle (set_errno s (os_errno r)) rest)
        else (Z.of_nat (length (take size (os_bytes r))), take size (os_bytes r),
              set_os_oracle s rest)
    end.
Proof.
  unfold sys_read, oscall. monad_unfold.
  destruct (os_oracle s) as [|r rest]; [reflexivity|].
  destruct (os_ret r <? 0); reflexivity.
Qed.

Lemma read_answer_one s :
  errno (snd (sys_read FILE_CHUNK_SIZE s)) <> EINTR \/
  0 <= fst (fst (sys_read FILE_CHUNK_SIZE s)) ->
  read_answer s (fst (sys_read FILE_CHUNK_SIZE s)) (snd (sys_read FILE_CHUNK_SIZE s)).
Proof.
  rewrite sys_read_eq. unfold read_answer.
  destruct (os_oracle s) as [|r rest] eqn:Hos.
  - intros _. cbn. rewrite Hos. repeat split.
    left. repeat split; try lia; try discriminate.
    right. split; [discriminate|reflexivity].
  - destruct (Z.ltb_spec (os_ret r) 0) as [Hneg | Hpos];
      cbn -[take FILE_CHUNK_SIZE]; intros Hok.
    + destruct Hok as [Hnintr | Habs]; [|lia].
      repeat split. left. repeat split; try lia; try assumption.
      destruct (Z.ltb_spec (os_ret r) 0); [|lia].
      destruct (Z.eqb_spec (os_errno r) EINTR); [contradiction|].
      destruct (Z.eqb_spec (os_errno r) EAGAIN).
      * left. repeat split; try assumption. lia.
      * right. split; [assumption|reflexivity].
    + repeat split. right. split; [lia|].
      destruct (Z.ltb_spec (os_ret r) 0); [lia|].
      destruct (take FILE_CHUNK_SIZE (os_bytes r)) as [|b bs].
      * left. split; reflexivity.
      * right. repeat split; try discriminate. lia.
Qed.

Lemma retry_eintr_read :
  forall n s,
    (length (os_oracle s) <= n)%nat ->
    read_answer s
      (fst (retry_eintr n (sys_read FILE_CHUNK_SIZE) (fun r => fst r <? 0) s))
      (snd (retry_eintr n (sys_read FILE_CHUNK_SIZE) (fun r => fst r <? 0) s)).
Proof.
  induction n as [|n IH]; intros s Hn.
  - rewrite retry_eintr_last. apply read_answer_one.
    rewrite sys_read_eq.
    destruct (os_oracle s) as [|r rest] eqn:Hos; [|cbn in Hn; lia].
    left. cbn. discriminate.
  - rewrite retry_eintr_step.
    destruct (Z.ltb_spec (fst (fst (sys_read FILE_CHUNK_SIZE s))) 0) as [Hneg | Hpos];
      cbn [andb]; [|apply read_answer_one; right; exact Hpos].
    destruct (Z.eqb_spec (errno (snd (sys_read FILE_CHUNK_SIZE s))) EINTR)
      as [Hintr | Hnintr]; [|apply read_answer_one; left; exact Hnintr].
    revert Hneg Hintr. rewrite sys_read_eq.
    destruct (os_oracle s) as [|r rest] eqn:Hos; [cbn; discriminate|].
    destruct (Z.ltb_spec (os_ret r) 0) as [Hr | Hr]; cbn [fst snd];
      [|intros Hneg; lia].
    cbn. intros _ Hintr.
    set (s1 := set_os_oracle (set_errno s (os_errno r)) rest).
    specialize (IH s1 ltac:(subst s1; cbn in *; lia)).
    destruct IH as (Hst & Hheap & Hcases).
    unfold read_answer.
    split; [exact Hst|]. split; [exact Hheap|].
    assert (Hpipe : pipe_bytes (r :: rest) = pipe_bytes rest).
    { cbn [pipe_bytes]. destruct (Z.ltb_spec (os_ret r) 0); [|lia].
      rewrite Hintr. reflexivity. }
    rewrite Hos, Hpipe. cbn [length].
    subst s1. cbn [os_oracle set_os_oracle set_errno] in Hcases.
    destruct Hcases as [(H1 & H2 & H3 & [(H4 & H5 & H6) | (H4 & H5)])
                       | (H1 & [(H2 & H3) | (H2 & H3 & H4)])].
    + left. repeat split; try assumption. left. repeat split; try assumption. lia.
    + left. repeat split; try assumption. right. split; assumption.
    + right. split; [assumption|]. left. split; assumption.
    + right. split; [assumption|]. right. repeat split; try assumption. lia.
Qed.

Lemma fd_stream_delivers :
  delivers (mkStream fd_interface)
           (fun s => pipe_bytes (os_oracle s))
           (fun s => length (os_oracle s)).
Proof.
  constructor.
  - intros s s' (_ & _ & _ & _ & _ & Hos & _). rewrite Hos. split; reflexivity.
  - intros s.
    unfold SDL_ReadIO. cbn [iface read fd_interface].
    unfold SDL_ClearError, SDL_GetError_nonempty, on_userdata, fd_read, do_while_eintr.
    monad_unfold. change (FILE_CHUNK_SIZE =? 0) with false. cbv iota.
    fold (entry_state s).
    cbv beta.
    lazymatch goal with
    | |- context [@retry_eintr ?T ?k ?c ?f ?st] =>
        pose proof (retry_eintr_read k st (Nat.le_refl _)) as Hans;
        change (retry_eintr k (sys_read FILE_CHUNK_SIZE) (fun r => fst r <? 0) st)
          with (retry_eintr k c f st) in Hans;
        destruct (retry_eintr k c f st) as [[n bytes] s1]
    end.
    unfold read_answer in Hans. cbn [fst snd] in Hans |- *.
    destruct Hans as (Hst & Hheap & Hcases).
    cbn [status heap_oracle os_oracle entry_state set_os_oracle set_errno set_error
           set_status] in Hst, Hheap, Hcases.
    destruct Hcases as [(H1 & H2 & H3 & [(H4 & H5 & H6) | (H4 & H5)])
                       | (H1 & [(H2 & H3) | (H2 & H3 & H4)])].
    + destruct (Z.ltb_spec n 0); [|lia].
      apply Z.eqb_eq in H4. rewrite H4. cbn.
      repeat split; assumption.
    + destruct (Z.ltb_spec n 0); [|lia].
      apply Z.eqb_neq in H4. rewrite H4.
      unfold SDL_SetError. monad_unfold. cbn. rewrite Hst. cbn.
      split; assumption.
    + destruct (Z.ltb_spec n 0); [lia|]. subst bytes. cbn. rewrite Hst.
      unfold ret. cbn.
      destruct (negb (String.eqb (error s1) "")); cbn; split; assumption.
    + destruct (Z.ltb_spec n 0); [lia|]. cbn.
      destruct bytes as [|b bs]; [contradiction|]. cbn.
      repeat split; assumption.
Qed.

(** A stream without a read function has nothing to deliver; this is the
    case of every handle [SDL_OpenIO] returns. *)
Lemma unreadable_stream_delivers src :
  read (iface src) = None ->
  delivers src (fun _ => []) (fun _ => 0%nat).
Proof.
  intros Hread. constructor.
  - intros s s' _. split; reflexivity.
  - intros s. unfold SDL_ReadIO. rewrite Hread. cbn. split; reflexivity.
Qed.

(** Loading from a pipe that delivers three bytes in two reads. *)
Lemma C8_unknown_size_loads_in_chunks_witness :
  let src := mkStream fd_interface in
  let s := snd pipe_demo in
  let query := SDL_GetIOSize (Some src) s in
  delivers src (fun s => pipe_bytes (os_oracle s)) (fun s => length (os_oracle s)) /\
  fst query < 0 /\
  Forall (fun p => p <> 0) (heap_oracle (snd query)) /\
  (length (pipe_bytes (os_oracle (snd query))) < length (heap_oracle (snd query)))%nat /\
  len (pipe_bytes (os_oracle (snd query))) < 2 ^ 62 /\
  (length (os_oracle (snd query)) < 10)%nat /\
  exists addr,
    fst (SDL_LoadFile_IO 10 (Some src) false s) =
    Some (Some (mkBuffer addr (3 + FILE_CHUNK_SIZE + 1)
                         [Byte.x61; Byte.x62; Byte.x63; Byte.x00]), 3).
Proof.
  intros src s query.
  assert (H1 : fst query < 0) by reflexivity.
  assert (H2 : Forall (fun p => p <> 0) (heap_oracle (snd query)))
    by (repeat constructor; discriminate).
  assert (H3 : (length (pipe_bytes (os_oracle (snd query)))
                < length (heap_oracle (snd query)))%nat) by (vm_compute; lia).
  assert (H4 : len (pipe_bytes (os_oracle (snd query))) < 2 ^ 62) by reflexivity.
  assert (H5 : (length (os_oracle (snd query)) < 10)%nat) by (vm_compute; lia).
  split; [exact fd_stream_delivers|].
  repeat (split; [assumption|]).
  exact (C8_unknown_size_loads_in_chunks src _ _ fd_stream_delivers 10 false s
           H1 H2 H3 H4 H5).
Defined.

(** * The codecs, the backends and the file helpers *)

(** ** Bytes and integers *)

Lemma byte_val_range b : 0 <= byte_val b < 256.
Proof. unfold byte_val. pose proof (Byte.to_N_bounded b). lia. Qed.

Lemma byte_val_byte_of z : byte_val (byte_of z) = z mod 256.
Proof.
  unfold byte_of, byte_val.
  assert (H : 0 <= z mod 256 < 256) by (apply Z.mod_pos_bound; lia).
  destruct (Byte.of_N (Z.to_N (z mod 256))) as [b|] eqn:E.
  - apply Byte.to_of_N in E. rewrite E. lia.
  - apply Byte.of_N_None_iff in E. lia.
Qed.

Lemma byte_of_byte_val b : byte_of (byte_val b) = b.
Proof.
  unfold byte_of. rewrite Z.mod_small by apply byte_val_range.
  unfold byte_val. rewrite N2Z.id, Byte.of_to_N. reflexivity.
Qed.

Lemma le_encode_length width x : length (le_encode width x) = width.
Proof. revert x. induction width; intros x; cbn; [|rewrite IHwidth]; reflexivity. Qed.

Lemma le_decode_range bs : 0 <= le_decode bs < 256 ^ Z.of_nat (length bs).
Proof.
  induction bs as [|b bs IH]; [cbn; lia|].
  cbn [le_decode length]. rewrite Nat2Z.inj_succ, Z.pow_succ_r by lia.
  pose proof (byte_val_range b). lia.
Qed.

Lemma le_encode_decode bs : le_encode (length bs) (le_decode bs) = bs.
Proof.
  induction bs as [|b bs IH]; [reflexivity|].
  cbn [length le_encode le_decode]. pose proof (byte_val_range b).
  f_equal.
  - rewrite <- (byte_of_byte_val b) at 2. unfold byte_of.
    replace ((byte_val b + 256 * le_decode bs) mod 256) with (byte_val b mod 256);
      [reflexivity|].
    Z.div_mod_to_equations; lia.
  - replace ((byte_val b + 256 * le_decode bs) / 256) with (le_decode bs); [exact IH|].
    Z.div_mod_to_equations; lia.
Qed.

Lemma le_decode_encode width x :
  le_decode (le_encode width x) = x mod 256 ^ Z.of_nat width.
Proof.
  revert x. induction width as [|w IH]; intros x.
  - cbn. rewrite Z.mod_1_r. reflexivity.
  - cbn [le_encode le_decode]. rewrite byte_val_byte_of, IH.
    rewrite Nat2Z.inj_succ, Z.pow_succ_r by lia.
    rewrite Z.rem_mul_r by lia. reflexivity.
Qed.

Lemma le_encode_mod width x :
  le_encode width (x mod 256 ^ Z.of_nat width) = le_encode width x.
Proof.
  rewrite <- le_decode_encode.
  rewrite <- (le_encode_length width x) at 1. apply le_encode_decode.
Qed.

Lemma le_decode_app l1 l2 :
  le_decode (l1 ++ l2) = le_decode l1 + 256 ^ Z.of_nat (length l1) * le_decode l2.
Proof.
  induction l1 as [|b l1 IH]; [cbn [app le_decode length]; lia|].
  cbn [app le_decode length]. rewrite IH, Nat2Z.inj_succ, Z.pow_succ_r by lia. lia.
Qed.

Lemma le_encode_app n m x :
  le_encode (n + m) x = le_encode n x ++ le_encode m (x / 256 ^ Z.of_nat n).
Proof.
  revert x. induction n as [|n IH]; intros x.
  - cbn. rewrite Z.div_1_r. reflexivity.
  - cbn [Nat.add le_encode app]. rewrite IH. f_equal. f_equal. f_equal.
    rewrite Nat2Z.inj_succ, Z.pow_succ_r by lia.
    rewrite Z.div_div by lia. reflexivity.
Qed.

(** ** Byte swaps *)

Lemma lor_shiftl_add a b n :
  0 <= n -> 0 <= a < 2 ^ n -> Z.lor a (Z.shiftl b n) = a + b * 2 ^ n.
Proof.
  intros Hn Ha.
  rewrite <- Z.lxor_lor, <- Z.add_nocarry_lxor, Z.shiftl_mul_pow2; try lia.
  all: apply Z.bits_inj'; intros i Hi; rewrite Z.land_spec, Z.bits_0.
  all: destruct (Z.lt_ge_cases i n);
    [ rewrite Z.shiftl_spec_low by lia; apply andb_false_r
    | rewrite <- (Z.mod_small a (2 ^ n)) by lia;
      rewrite Z.mod_pow2_bits_high by lia; reflexivity ].
Qed.

Lemma land_byte_at x n :
  0 <= n ->
  Z.land x (Z.shiftl 255 n) = (x / 2 ^ n) mod 256 * 2 ^ n.
Proof.
  intros Hn. change 255 with (Z.ones 8). change 256 with (2 ^ 8).
  rewrite <- Z.shiftr_div_pow2, <- Z.land_ones, <- Z.shiftl_mul_pow2 by lia.
  apply Z.bits_inj'; intros i Hi.
  rewrite Z.land_spec.
  destruct (Z.lt_ge_cases i n).
  - rewrite !Z.shiftl_spec_low by lia. apply andb_false_r.
  - rewrite !Z.shiftl_spec by lia. rewrite Z.land_spec, Z.shiftr_spec by lia.
    replace (i - n + n) with i by lia. reflexivity.
Qed.

Lemma SDL_Swap16_spec x :
  0 <= x < 2 ^ 16 -> SDL_Swap16 x = le_decode (rev (le_encode 2 x)).
Proof.
  intros Hx. unfold SDL_Swap16.
  cbn [le_encode rev app le_decode]. rewrite !byte_val_byte_of.
  rewrite Z.lor_comm, Z.shiftr_div_pow2 by lia.
  change 65535 with (Z.ones 16). rewrite Z.land_ones by lia.
  rewrite lor_shiftl_add by (change (2 ^ 8) with 256 in *; Z.div_mod_to_equations; lia).
  change (2 ^ 8) with 256 in *. change (2 ^ 16) with 65536 in *.
  Z.div_mod_to_equations; lia.
Qed.

Lemma SDL_Swap32_spec x :
  0 <= x < 2 ^ 32 -> SDL_Swap32 x = le_decode (rev (le_encode 4 x)).
Proof.
  intros Hx. unfold SDL_Swap32.
  cbn [le_encode rev app le_decode]. rewrite !byte_val_byte_of.
  change 16711680 with (Z.shiftl 255 16). change 65280 with (Z.shiftl 255 8).
  rewrite !land_byte_at by lia.
  rewrite (Z.shiftl_mul_pow2 x 8), !Z.shiftr_div_pow2 by lia.
  change 4294967295 with (Z.ones 32). rewrite Z.land_ones by lia.
  change (2 ^ 32) with 4294967296 in *. change (2 ^ 24) with 16777216 in *.
  change (2 ^ 16) with 65536 in *. change (2 ^ 8) with 256 in *.
  (* (x << 24) | B, with B below 2^24 *)
  rewrite (Z.lor_comm (Z.shiftl x 24)).
  rewrite (lor_shiftl_add _ x 24) by
    (try lia; change (2 ^ 24) with 16777216; Z.div_mod_to_equations; lia).
  (* C | D, with D below 2^8 and C a multiple of 2^8 *)
  rewrite (Z.lor_comm _ (x / 16777216)).
  replace (x / 256 / 256 mod 256 * 256) with (Z.shiftl (x / 256 / 256 mod 256) 8)
    by (rewrite Z.shiftl_mul_pow2 by lia; reflexivity).
  rewrite (lor_shiftl_add (x / 16777216)) by
    (try lia; change (2 ^ 8) with 256; Z.div_mod_to_equations; lia).
  rewrite Z.lor_comm.
  replace (x * 256 / 65536 mod 256 * 65536 + x * 2 ^ 24)
    with (Z.shiftl (x * 256 / 65536 mod 256 + x * 256) 16)
    by (rewrite Z.shiftl_mul_pow2 by lia; change (2 ^ 16) with 65536;
        change (2 ^ 24) with 16777216; lia).
  rewrite lor_shiftl_add by
    (try lia; change (2 ^ 8) with 256; change (2 ^ 16) with 65536;
     Z.div_mod_to_equations; lia).
  change (2 ^ 8) with 256. change (2 ^ 16) with 65536.
  Z.div_mod_to_equations; lia.
Qed.

Lemma SDL_Swap64_spec x :
  0 <= x < 2 ^ 64 -> SDL_Swap64 x = le_decode (rev (le_encode 8 x)).
Proof.
  intros Hx. unfold SDL_Swap64. cbv zeta.
  change 4294967295 with (Z.ones 32). rewrite !Z.land_ones, Z.shiftr_div_pow2 by lia.
  assert (Hlo : 0 <= x mod 2 ^ 32 < 2 ^ 32) by (apply Z.mod_pos_bound; lia).
  assert (Hhi : 0 <= (x / 2 ^ 32) mod 2 ^ 32 < 2 ^ 32) by (apply Z.mod_pos_bound; lia).
  rewrite !SDL_Swap32_spec by assumption.
  change (2 ^ 32) with (256 ^ Z.of_nat 4). rewrite !le_encode_mod.
  rewrite Z.lor_comm, lor_shiftl_add;
    [| lia
     | pose proof (le_decode_range (rev (le_encode 4 (x / 256 ^ Z.of_nat 4)))) as R;
       rewrite length_rev, le_encode_length in R; exact R ].
  change 8%nat with (4 + 4)%nat.
  rewrite le_encode_app, rev_app_distr, le_decode_app, length_rev, le_encode_length.
  change (2 ^ 32) with (256 ^ Z.of_nat 4). lia.
Qed.

(** Swapping the value of an object is reading its bytes in the other
    order. *)
Lemma swap_decode (swap : Z -> Z) (width : nat) :
  (forall x, 0 <= x < 256 ^ Z.of_nat width -> swap x = le_decode (rev (le_encode width x))) ->
  forall obj, length obj = width -> swap (le_decode obj) = le_decode (rev obj).
Proof.
  intros Hswap obj Hlen.
  rewrite Hswap by (rewrite <- Hlen; apply le_decode_range).
  rewrite <- Hlen, le_encode_decode. reflexivity.
Qed.

(** The bytes of a swapped value are the bytes of the value in the other
    order. *)
Lemma swap_encode (swap : Z -> Z) (width : nat) :
  (forall x, 0 <= x < 256 ^ Z.of_nat width -> swap x = le_decode (rev (le_encode width x))) ->
  forall x, 0 <= x < 256 ^ Z.of_nat width ->
    le_encode width (swap x) = rev (le_encode width x).
Proof.
  intros Hswap x Hx. rewrite Hswap by exact Hx.
  rewrite <- (le_encode_length width x) at 1. rewrite <- length_rev.
  apply le_encode_decode.
Qed.

Lemma zeroed_object_full width bytes :
  Z.of_nat (length bytes) = width -> zeroed_object_with width bytes = bytes.
Proof.
  intros H. unfold zeroed_object_with, take. rewrite <- H, Nat2Z.id.
  rewrite skipn_all2 by (rewrite repeat_length; lia).
  rewrite app_nil_r. apply firstn_all.
Qed.

Lemma Swap16_of_width : forall x, 0 <= x < 256 ^ Z.of_nat 2 ->
  SDL_Swap16 x = le_decode (rev (le_encode 2 x)).
Proof. exact SDL_Swap16_spec. Qed.
Lemma Swap32_of_width : forall x, 0 <= x < 256 ^ Z.of_nat 4 ->
  SDL_Swap32 x = le_decode (rev (le_encode 4 x)).
Proof. exact SDL_Swap32_spec. Qed.
Lemma Swap64_of_width : forall x, 0 <= x < 256 ^ Z.of_nat 8 ->
  SDL_Swap64 x = le_decode (rev (le_encode 8 x)).
Proof. exact SDL_Swap64_spec. Qed.

(** The value a reader makes of the object it read, on either host. *)
Lemma host_value_as_le host obj :
  (length obj = 2%nat -> SDL_SwapLE16 host (host_value host obj) = le_decode obj) /\
  (length obj = 4%nat -> SDL_SwapLE32 host (host_value host obj) = le_decode obj) /\
  (length obj = 8%nat -> SDL_SwapLE64 host (host_value host obj) = le_decode obj).
Proof.
  unfold SDL_SwapLE16, SDL_SwapLE32, SDL_SwapLE64, host_value.
  destruct host; repeat split; intros H; try reflexivity.
  - rewrite (swap_decode _ 2 Swap16_of_width), rev_involutive by (rewrite length_rev; exact H).
    reflexivity.
  - rewrite (swap_decode _ 4 Swap32_of_width), rev_involutive by (rewrite length_rev; exact H).
    reflexivity.
  - rewrite (swap_decode _ 8 Swap64_of_width), rev_involutive by (rewrite length_rev; exact H).
    reflexivity.
Qed.

Lemma host_value_as_be host obj :
  (length obj = 2%nat -> SDL_SwapBE16 host (host_value host obj) = le_decode (rev obj)) /\
  (length obj = 4%nat -> SDL_SwapBE32 host (host_value host obj) = le_decode (rev obj)) /\
  (length obj = 8%nat -> SDL_SwapBE64 host (host_value host obj) = le_decode (rev obj)).
Proof.
  unfold SDL_SwapBE16, SDL_SwapBE32, SDL_SwapBE64, host_value.
  destruct host; repeat split; intros H; try reflexivity.
  - exact (swap_decode _ 2 Swap16_of_width obj H).
  - exact (swap_decode _ 4 Swap32_of_width obj H).
  - exact (swap_decode _ 8 Swap64_of_width obj H).
Qed.

Lemma host_value_one host obj :
  length obj = 1%nat -> host_value host obj = le_decode obj.
Proof.
  intros H. destruct obj as [|b [|]]; try discriminate.
  unfold host_value. destruct host; reflexivity.
Qed.

(** The bytes a writer hands to [SDL_WriteIO], on either host. *)
Lemma host_object_as_le host x :
  (0 <= x < 2 ^ 16 -> host_object host 2 (SDL_SwapLE16 host x) = le_encode 2 x) /\
  (0 <= x < 2 ^ 32 -> host_object host 4 (SDL_SwapLE32 host x) = le_encode 4 x) /\
  (0 <= x < 2 ^ 64 -> host_object host 8 (SDL_SwapLE64 host x) = le_encode 8 x).
Proof.
  unfold SDL_SwapLE16, SDL_SwapLE32, SDL_SwapLE64, host_object.
  destruct host; repeat split; intros H; try reflexivity.
  - rewrite (swap_encode _ 2 Swap16_of_width) by exact H. apply rev_involutive.
  - rewrite (swap_encode _ 4 Swap32_of_width) by exact H. apply rev_involutive.
  - rewrite (swap_encode _ 8 Swap64_of_width) by exact H. apply rev_involutive.
Qed.

Lemma host_object_as_be host x :
  (0 <= x < 2 ^ 16 -> host_object host 2 (SDL_SwapBE16 host x) = rev (le_encode 2 x)) /\
  (0 <= x < 2 ^ 32 -> host_object host 4 (SDL_SwapBE32 host x) = rev (le_encode 4 x)) /\
  (0 <= x < 2 ^ 64 -> host_object host 8 (SDL_SwapBE64 host x) = rev (le_encode 8 x)).
Proof.
  unfold SDL_SwapBE16, SDL_SwapBE32, SDL_SwapBE64, host_object.
  destruct host; repeat split; intros H; try reflexivity.
  - exact (swap_encode _ 2 Swap16_of_width x H).
  - exact (swap_encode _ 4 Swap32_of_width x H).
  - exact (swap_encode _ 8 Swap64_of_width x H).
Qed.

Lemma host_object_one host x : host_object host 1 x = le_encode 1 x.
Proof. unfold host_object. destruct host; reflexivity. Qed.

Lemma le_encode_to_unsigned (width : nat) x :
  le_encode width (to_unsigned (8 * Z.of_nat width) x) = le_encode width x.
Proof.
  unfold to_unsigned. rewrite Z.pow_mul_r by lia. apply le_encode_mod.
Qed.

Lemma to_unsigned_range bits x : 0 <= bits -> 0 <= to_unsigned bits x < 2 ^ bits.
Proof. intros H. apply Z.mod_pos_bound. lia. Qed.

(** ** What the fixed-width readers and writers transfer *)

Ltac codec_cases Hin :=
  unfold codecs in Hin; cbn [In] in Hin;
  repeat (destruct Hin as [Hin | Hin]; [injection Hin as <- <- <- |]);
  [.. | contradiction].

Lemma readers_decode host src s f writer reader :
  In (f, writer, reader) (codecs host) ->
  let call := SDL_ReadIO src (Z.of_nat (fmt_width f)) s in
  length (fst call) = fmt_width f ->
  reader src s = (true, fmt_decode f (fst call), snd call).
Proof.
  intros Hin. cbv zeta.
  destruct (host_value_as_le host (fst (SDL_ReadIO src (Z.of_nat (fmt_width f)) s)))
    as (Hl2 & Hl4 & Hl8).
  destruct (host_value_as_be host (fst (SDL_ReadIO src (Z.of_nat (fmt_width f)) s)))
    as (Hb2 & Hb4 & Hb8).
  pose proof (host_value_one host (fst (SDL_ReadIO src (Z.of_nat (fmt_width f)) s)))
    as H1.
  codec_cases Hin; cbn [fmt_width] in *; intros Hlen;
    change (Z.of_nat 1) with 1 in *; change (Z.of_nat 2) with 2 in *;
    change (Z.of_nat 4) with 4 in *; change (Z.of_nat 8) with 8 in *;
    unfold SDL_ReadU8Ptr, SDL_ReadS8, SDL_ReadS16LE, SDL_ReadS16BE, SDL_ReadS32LE,
      SDL_ReadS32BE, SDL_ReadS64LE, SDL_ReadS64BE, SDL_ReadU16LE, SDL_ReadU16BE,
      SDL_ReadU32LE, SDL_ReadU32BE, SDL_ReadU64LE, SDL_ReadU64BE, read_object;
    monad_unfold;
    match goal with
    | |- context [SDL_ReadIO src ?w s] =>
        destruct (SDL_ReadIO src w s) as [bytes s'] eqn:E
    end.
  all: cbn [fst snd] in *.
  all: rewrite zeroed_object_full by (rewrite Hlen; reflexivity).
  all: rewrite Hlen.
  all: unfold fmt_decode; cbn [fmt_signed fmt_big_endian].
  all: rewrite ?H1, ?Hl2, ?Hl4, ?Hl8, ?Hb2, ?Hb4, ?Hb8 by exact Hlen.
  all: reflexivity.
Qed.

(** X1.  Whatever the byte order of the host, a fixed-width reader whose
    [SDL_ReadIO] call returns the full width answers true and stores the
    value its format gives to the bytes read: the first byte is the least
    significant one for the LE readers and the most significant one for the
    BE readers, and the signed readers take the result in two's
    complement.  The state is the one the read leaves. *)
Theorem readers_decode_the_format host src s f writer reader :
  In (f, writer, reader) (codecs host) ->
  let call := SDL_ReadIO src (Z.of_nat (fmt_width f)) s in
  length (fst call) = fmt_width f ->
  reader src s = (true, fmt_decode f (fst call), snd call).
Proof. exact (readers_decode host src s f writer reader). Qed.

(** The bytes 12 34 56 78 read as a big-endian 32-bit value, on a
    big-endian and on a little-endian host. *)
Lemma readers_decode_the_format_witness :
  fst (SDL_ReadU32BE true (fst (four_bytes 0)) (snd (four_bytes 0))) = (true, 305419896) /\
  fst (SDL_ReadU32BE false (fst (four_bytes 0)) (snd (four_bytes 0))) = (true, 305419896).
Proof.
  split.
  - rewrite (readers_decode_the_format true (fst (four_bytes 0)) (snd (four_bytes 0))
               (mkFormat 4 false true) (SDL_WriteU32BE true) (SDL_ReadU32BE true));
      [reflexivity | do 8 right; left; reflexivity | reflexivity].
  - rewrite (readers_decode_the_format false (fst (four_bytes 0)) (snd (four_bytes 0))
               (mkFormat 4 false true) (SDL_WriteU32BE false) (SDL_ReadU32BE false));
      [reflexivity | do 8 right; left; reflexivity | reflexivity].
Defined.

Lemma fmt_encode_length f v : length (fmt_encode f v) = fmt_width f.
Proof.
  unfold fmt_encode. destruct (fmt_big_endian f);
    rewrite ?length_rev; apply le_encode_length.
Qed.

Lemma writers_encode host dst s f writer reader v :
  In (f, writer, reader) (codecs host) ->
  fmt_range f v ->
  let call := SDL_WriteIO dst (fmt_encode f v) (Z.of_nat (fmt_width f)) s in
  writer dst v s = (fst call =? Z.of_nat (fmt_width f), snd call).
Proof.
  intros Hin. cbv zeta.
  codec_cases Hin; unfold fmt_range, fmt_bits, fmt_encode;
    cbn [fmt_width fmt_signed fmt_big_endian];
    change (8 * Z.of_nat 1) with 8; change (8 * Z.of_nat 2) with 16;
    change (8 * Z.of_nat 4) with 32; change (8 * Z.of_nat 8) with 64;
    intros Hv;
    unfold SDL_WriteU8Ptr, SDL_WriteS8, SDL_WriteS16LE, SDL_WriteS16BE, SDL_WriteS32LE,
      SDL_WriteS32BE, SDL_WriteS64LE, SDL_WriteS64BE, SDL_WriteU16LE, SDL_WriteU16BE,
      SDL_WriteU32LE, SDL_WriteU32BE, SDL_WriteU64LE, SDL_WriteU64BE, write_object;
    cbv zeta; monad_unfold.
  all: lazymatch goal with
       | |- context [host_object ?hh ?w ?x] =>
           lazymatch goal with
           | |- _ = (fst (SDL_WriteIO ?dd ?b ?n ?ss) =? _, _) =>
               let H := fresh in
               assert (H : host_object hh w x = b);
               [| rewrite H; destruct (SDL_WriteIO dd b n ss); reflexivity ]
           end
       end.
  1,2: apply host_object_one.
  all: lazymatch goal with
       | |- host_object ?hh _ (_ _ (to_unsigned ?bits ?x)) = _ =>
           pose proof (to_unsigned_range bits x ltac:(lia)) as Hu;
           destruct (host_object_as_le hh (to_unsigned bits x)) as (Hl2 & Hl4 & Hl8);
           destruct (host_object_as_be hh (to_unsigned bits x)) as (Hb2 & Hb4 & Hb8)
       | |- host_object ?hh _ (_ _ ?x) = _ =>
           destruct (host_object_as_le hh x) as (Hl2 & Hl4 & Hl8);
           destruct (host_object_as_be hh x) as (Hb2 & Hb4 & Hb8)
       end.
  - exact (Hl2 Hv).
  - rewrite <- (le_encode_to_unsigned 2 v). exact (Hl2 Hu).
  - exact (Hb2 Hv).
  - rewrite <- (le_encode_to_unsigned 2 v). exact (Hb2 Hu).
  - exact (Hl4 Hv).
  - rewrite <- (le_encode_to_unsigned 4 v). exact (Hl4 Hu).
  - exact (Hb4 Hv).
  - rewrite <- (le_encode_to_unsigned 4 v). exact (Hb4 Hu).
  - exact (Hl8 Hv).
  - rewrite <- (le_encode_to_unsigned 8 v). exact (Hl8 Hu).
  - exact (Hb8 Hv).
  - rewrite <- (le_encode_to_unsigned 8 v). exact (Hb8 Hu).
Qed.

(** X2.  Whatever the byte order of the host, a fixed-width writer given a
    value of its C type makes one [SDL_WriteIO] call of its width with the
    bytes its format gives to the value (least significant byte first for
    LE, most significant first for BE, two's complement for the signed
    ones), and answers whether that call took the full width. *)
Theorem writers_encode_the_format host dst s f writer reader v :
  In (f, writer, reader) (codecs host) ->
  fmt_range f v ->
  let call := SDL_WriteIO dst (fmt_encode f v) (Z.of_nat (fmt_width f)) s in
  writer dst v s = (fst call =? Z.of_nat (fmt_width f), snd call).
Proof. exact (writers_encode host dst s f writer reader v). Qed.

Lemma to_signed_to_unsigned bits v :
  0 < bits -> - 2 ^ (bits - 1) <= v < 2 ^ (bits - 1) ->
  to_signed bits (v mod 2 ^ bits) = v.
Proof.
  intros Hb Hv. unfold to_signed.
  assert (H2 : 2 ^ bits = 2 * 2 ^ (bits - 1))
    by (rewrite <- Z.pow_succ_r by lia; f_equal; lia).
  destruct (Z.lt_ge_cases v 0).
  - rewrite <- (Z.mod_add v 1) by lia. rewrite Z.mod_small by lia.
    destruct (Z.ltb_spec (v + 1 * 2 ^ bits) (2 ^ (bits - 1))); lia.
  - rewrite Z.mod_small by lia.
    destruct (Z.ltb_spec v (2 ^ (bits - 1))); lia.
Qed.

Lemma fmt_decode_encode f v :
  (0 < fmt_width f)%nat -> fmt_range f v -> fmt_decode f (fmt_encode f v) = v.
Proof.
  intros Hw Hv. unfold fmt_decode, fmt_encode, fmt_range, fmt_bits in *.
  assert (Hd : le_decode (le_encode (fmt_width f) v)
               = v mod 2 ^ (8 * Z.of_nat (fmt_width f))).
  { rewrite le_decode_encode, Z.pow_mul_r by lia. reflexivity. }
  destruct (fmt_big_endian f); rewrite ?rev_involutive, Hd;
    (destruct (fmt_signed f);
     [apply to_signed_to_unsigned; [lia | exact Hv] | apply Z.mod_small; exact Hv]).
Qed.

Lemma codecs_width host f writer reader :
  In (f, writer, reader) (codecs host) -> (0 < fmt_width f)%nat.
Proof. intros Hin. codec_cases Hin; cbn; lia. Qed.

(** Write, rewind, read on a writable memory stream with room. *)
Lemma round_trip_of_writable h b s :
  writable_at_start b s h -> round_trip (Some h) b s = b.
Proof.
  intros [d Hud Hhere Hb Hs Hfit
         | d Hud Hinv Hhere Hb He Hng
         | d p rest Hud Hinv Hhere Hb He Hg Hchunk Hheap Hp Hfit Hind].
  - exact (round_trip_fixed b s d Hud Hhere Hb Hs Hfit).
  - destruct (dynamic_mem_write_at_start_in_place d b (entry_state s)
                Hinv Hhere Hb He Hng) as (d' & s' & Hw & Hpost).
    exact (round_trip_growable b s d d' s' Hud Hw Hpost).
  - destruct (dynamic_mem_write_at_start_grown d b (entry_state s) p rest
                Hinv Hhere Hb He Hg Hchunk Hheap Hp Hfit Hind)
      as (d' & s' & Hw & Hpost).
    exact (round_trip_growable b s d d' s' Hud Hw Hpost).
Qed.

Lemma dynamic_write_count d b s d' s' :
  userdata s = UD_dynamic d ->
  dynamic_mem_write d b (Z.of_nat (length b)) (entry_state s)
    = (Z.of_nat (length b), d', s') ->
  fst (SDL_WriteIO (Some (mkStream dynamic_mem_interface)) b (Z.of_nat (length b)) s)
    = Z.of_nat (length b).
Proof.
  intros Hud Hwrite.
  destruct (Z.eq_dec (Z.of_nat (length b)) 0) as [Hz | Hnz].
  - rewrite Hz. rewrite (SDL_WriteIO_nothing _ dynamic_mem_write_fn) by reflexivity.
    reflexivity.
  - assert (Hw : dynamic_mem_write_fn b (Z.of_nat (length b)) (entry_state s) =
                 (Z.of_nat (length b), set_userdata s' (UD_dynamic d'))).
    { rewrite (dynamic_mem_write_fn_eq d) by exact Hud. rewrite Hwrite. reflexivity. }
    rewrite (SDL_WriteIO_calls _ dynamic_mem_write_fn) by
      (try reflexivity; try assumption; rewrite Hw; cbn [fst]; lia).
    rewrite Hw. reflexivity.
Qed.

Lemma write_count_of_writable h b s :
  writable_at_start b s h ->
  fst (SDL_WriteIO (Some h) b (Z.of_nat (length b)) s) = Z.of_nat (length b).
Proof.
  intros [d Hud Hhere Hb Hs Hfit
         | d Hud Hinv Hhere Hb He Hng
         | d p rest Hud Hinv Hhere Hb He Hg Hchunk Hheap Hp Hfit Hind].
  - destruct (Z.eq_dec (Z.of_nat (length b)) 0) as [Hz | Hnz].
    + rewrite Hz. rewrite (SDL_WriteIO_nothing _ mem_write_fn) by reflexivity.
      reflexivity.
    + assert (Hw : fst (mem_write_fn b (Z.of_nat (length b)) (entry_state s))
                   = Z.of_nat (length b)).
      { rewrite (mem_write_fn_fits d) by (try exact Hud; lia). reflexivity. }
      rewrite (SDL_WriteIO_calls _ mem_write_fn) by
        (try reflexivity; try assumption; rewrite Hw; lia).
      exact Hw.
  - destruct (dynamic_mem_write_at_start_in_place d b (entry_state s)
                Hinv Hhere Hb He Hng) as (d' & s' & Hw & _).
    exact (dynamic_write_count d b s d' s' Hud Hw).
  - destruct (dynamic_mem_write_at_start_grown d b (entry_state s) p rest
                Hinv Hhere Hb He Hg Hchunk Hheap Hp Hfit Hind)
      as (d' & s' & Hw & _).
    exact (dynamic_write_count d b s d' s' Hud Hw).
Qed.

(** X3.  On a writable memory stream with its cursor at the start and room
    for the value (see [writable_at_start]), writing a value of the C type
    with a fixed-width writer, seeking back to offset 0 and reading with
    the reader of the same format succeeds twice and gives the value back,
    on either host. *)
Theorem codec_round_trip host h s f writer reader v :
  In (f, writer, reader) (codecs host) ->
  fmt_range f v ->
  writable_at_start (fmt_encode f v) s h ->
  written_then_read (Some h) writer reader v s = (true, (true, v)).
Proof.
  intros Hin Hv Hroom. unfold written_then_read.
  rewrite (writers_encode host (Some h) s f writer reader v Hin Hv).
  cbn [fst snd].
  pose proof (write_count_of_writable _ _ _ Hroom) as Hcount.
  pose proof (round_trip_of_writable _ _ _ Hroom) as Hrt.
  unfold round_trip in Hrt. rewrite fmt_encode_length in Hcount, Hrt.
  rewrite Hcount, Z.eqb_refl.
  rewrite (readers_decode host _ _ f writer reader Hin)
    by (rewrite Hrt; apply fmt_encode_length).
  cbn [fst]. rewrite Hrt.
  rewrite (fmt_decode_encode f v (codecs_width _ _ _ _ Hin) Hv). reflexivity.
Qed.

(** [0x12345678] written as a big-endian 32-bit value on a big-endian
    host. *)
Lemma writers_encode_the_format_witness :
  SDL_WriteU32BE true (fst (four_bytes 0)) 305419896 (snd (four_bytes 0)) =
    (let call := SDL_WriteIO (fst (four_bytes 0))
                   [Byte.x12; Byte.x34; Byte.x56; Byte.x78] 4 (snd (four_bytes 0)) in
     (fst call =? 4, snd call)).
Proof.
  apply (writers_encode_the_format true (fst (four_bytes 0)) (snd (four_bytes 0))
           (mkFormat 4 false true) (SDL_WriteU32BE true) (SDL_ReadU32BE true) 305419896);
    [do 8 right; left; reflexivity | unfold fmt_range; cbn; lia].
Defined.

(** [-2] as a signed little-endian 16-bit value through the growable
    backend. *)
Lemma codec_round_trip_witness :
  written_then_read (Some (mkStream dynamic_mem_interface))
    (SDL_WriteS16LE true) (SDL_ReadS16LE true) (-2) growable_demo = (true, (true, -2)).
Proof.
  apply (codec_round_trip true (mkStream dynamic_mem_interface) growable_demo
           (mkFormat 2 true false) (SDL_WriteS16LE true) (SDL_ReadS16LE true) (-2));
    [do 3 right; left; reflexivity | unfold fmt_range; cbn; lia |].
  apply (growable_grown _ _ (mkDynData (mkMemData 0 0 0) 0) 12288 []);
    try reflexivity; try (vm_compute; intuition discriminate).
Defined.

(** ** The fixed-memory backend within its region *)

Lemma load_length m p n : 0 <= n -> Z.of_nat (length (load m p n)) = n.
Proof. intros H. unfold load. rewrite length_map, length_seq. lia. Qed.

Lemma store_outside m p bs a :
  a < p \/ p + Z.of_nat (length bs) <= a -> store m p bs a = m a.
Proof.
  intros H. unfold store.
  destruct (Z.leb_spec p a), (Z.ltb_spec a (p + Z.of_nat (length bs)));
    cbn [andb]; try reflexivity; lia.
Qed.

Lemma take_length n (bs : list byte) :
  0 <= n <= Z.of_nat (length bs) -> Z.of_nat (length (take n bs)) = n.
Proof. intros H. unfold take. rewrite length_firstn. lia. Qed.

Lemma set_userdata_same s : set_userdata s (userdata s) = s.
Proof. destruct s; reflexivity. Qed.

Lemma set_here_same d : set_here d (here d) = d.
Proof. destruct d; reflexivity. Qed.

(** [mem_io] clamps the request to what lies between the cursor and
    [stop]. *)
Lemma mem_io_clamped d xfer size s :
  region_ok d -> 0 <= size ->
  let n := Z.min size (stop d - here d) in
  mem_io d xfer size s =
    match xfer with
    | ToCaller => (n, load (memory s) (here d) n, set_here d (here d + n), s)
    | FromCaller ptr =>
        (n, [], set_here d (here d + n),
         set_memory s (store (memory s) (here d) (take n ptr)))
    end.
Proof.
  intros (Hb & Hbh & Hhs & Hs) Hsize n. unfold mem_io. monad_unfold.
  rewrite to_size_t_small by lia. rewrite Z.gtb_ltb.
  destruct (Z.ltb_spec (stop d - here d) size).
  - replace n with (stop d - here d) by lia.
    rewrite ptr_add_small by lia. destruct xfer; reflexivity.
  - replace n with size by lia.
    rewrite ptr_add_small by lia. destruct xfer; reflexivity.
Qed.

(** X4.  [mem_read] never reads past [stop]: it returns the
    [min size (stop - here)] bytes at the cursor, advances the cursor by that
    count, keeps [base <= here <= stop] and leaves the state as it was. *)
Theorem mem_read_bounded d size s :
  region_ok d -> 0 <= size ->
  let n := Z.min size (stop d - here d) in
  mem_read d size s = (load (memory s) (here d) n, set_here d (here d + n), s) /\
  Z.of_nat (length (load (memory s) (here d) n)) = n /\
  region_ok (set_here d (here d + n)).
Proof.
  intros Hd Hsize n. unfold mem_read. monad_unfold.
  rewrite (mem_io_clamped d ToCaller size s Hd Hsize). fold n. cbn [fst snd].
  destruct Hd as (Hb & Hbh & Hhs & Hs).
  split; [reflexivity|]. split; [apply load_length; lia|].
  unfold region_ok, set_here. cbn [base here stop]. lia.
Qed.

(** X5.  [mem_write] never writes outside the region: it stores the first
    [min size (stop - here)] bytes of the caller's buffer at the cursor,
    advances the cursor by that count, changes nothing of the state but
    memory and no byte of memory outside [[here, here + count)]. *)
Theorem mem_write_bounded d ptr size s :
  region_ok d -> 0 <= size ->
  let n := Z.min size (stop d - here d) in
  let r := mem_write d ptr size s in
  fst (fst r) = n /\
  snd (fst r) = set_here d (here d + n) /\
  region_ok (snd (fst r)) /\
  snd r = set_memory s (memory (snd r)) /\
  (forall a, a < here d \/ here d + n <= a -> memory (snd r) a = memory s a) /\
  (size <= Z.of_nat (length ptr) -> load (memory (snd r)) (here d) n = take n ptr).
Proof.
  intros Hd Hsize n r. subst r. unfold mem_write. monad_unfold.
  rewrite (mem_io_clamped d (FromCaller ptr) size s Hd Hsize). fold n.
  cbn [fst snd memory set_memory].
  destruct Hd as (Hb & Hbh & Hhs & Hs).
  repeat split; try (unfold set_here; cbn [base here stop]; lia).
  - intros a Ha. apply store_outside.
    assert (Z.of_nat (length (take n ptr)) <= n)
      by (unfold take; rewrite length_firstn; lia).
    lia.
  - intros Hlen.
    pose proof (take_length n ptr ltac:(lia)) as E.
    transitivity (load (store (memory s) (here d) (take n ptr)) (here d)
                       (Z.of_nat (length (take n ptr))));
      [rewrite E; reflexivity | apply load_store_same].
Qed.

(** A seek whose target lies in the region lands on it. *)
Lemma mem_seek_in_range d offset whence :
  region_ok d ->
  base d <= seek_origin d whence + offset <= stop d ->
  mem_seek d offset whence =
    (seek_origin d whence + offset - base d,
     set_here d (seek_origin d whence + offset)).
Proof.
  intros (Hb & Hbh & Hhs & Hs) Ht. unfold mem_seek.
  assert (E : (match whence with
               | SDL_IO_SEEK_SET => ptr_add (base d) offset
               | SDL_IO_SEEK_CUR => ptr_add (here d) offset
               | SDL_IO_SEEK_END => ptr_add (stop d) offset
               end) = seek_origin d whence + offset).
  { destruct whence; cbn [seek_origin] in *; apply ptr_add_small; lia. }
  rewrite E. cbv zeta. rewrite Z.gtb_ltb.
  destruct (Z.ltb_spec (seek_origin d whence + offset) (base d)); [lia|].
  destruct (Z.ltb_spec (stop d) (seek_origin d whence + offset)); [lia|].
  reflexivity.
Qed.

Lemma mem_seek_fn_in_range d offset whence s :
  userdata s = UD_mem d -> region_ok d ->
  base d <= seek_origin d whence + offset <= stop d ->
  mem_seek_fn offset whence s =
    (seek_origin d whence + offset - base d,
     set_userdata s (UD_mem (set_here d (seek_origin d whence + offset)))).
Proof.
  intros Hud Hd Ht. unfold mem_seek_fn, in_userdata. monad_unfold.
  rewrite Hud. cbn [as_mem]. rewrite mem_seek_in_range by assumption. reflexivity.
Qed.

Lemma SDL_TellIO_memory_eq h d s :
  seek (iface h) = Some mem_seek_fn ->
  userdata s = UD_mem d -> region_ok d ->
  SDL_TellIO (Some h) s = (here d - base d, s).
Proof.
  intros Hseek Hud Hd. unfold SDL_TellIO, SDL_SeekIO. rewrite Hseek.
  rewrite (mem_seek_fn_in_range d 0 SDL_IO_SEEK_CUR s Hud Hd)
    by (destruct Hd as (? & ? & ? & ?); cbn [seek_origin]; lia).
  cbn [seek_origin]. rewrite Z.add_0_r, set_here_same, <- Hud, set_userdata_same.
  reflexivity.
Qed.

(** X6.  On a stream that seeks with [mem_seek], [SDL_TellIO] returns the
    offset of the cursor from [base] and changes nothing. *)
Theorem SDL_TellIO_of_memory h d s :
  seek (iface h) = Some mem_seek_fn ->
  userdata s = UD_mem d -> region_ok d ->
  SDL_TellIO (Some h) s = (here d - base d, s).
Proof. exact (SDL_TellIO_memory_eq h d s). Qed.

Lemma SDL_GetIOSize_memory_eq h d s :
  size (iface h) = Some mem_size_fn \/
  (size (iface h) = None /\ seek (iface h) = Some mem_seek_fn) ->
  userdata s = UD_mem d -> region_ok d ->
  SDL_GetIOSize (Some h) s = (stop d - base d, s).
Proof.
  intros [Hsize | [Hsize Hseek]] Hud Hd; unfold SDL_GetIOSize; rewrite Hsize.
  - unfold mem_size_fn, on_userdata, mem_size. monad_unfold. rewrite Hud. reflexivity.
  - pose proof Hd as (Hb & Hbh & Hhs & Hs).
    monad_unfold. fold (SDL_TellIO (Some h)).
    rewrite (SDL_TellIO_memory_eq h d s Hseek Hud Hd).
    destruct (Z.ltb_spec (here d - base d) 0); [lia|].
    unfold SDL_SeekIO. rewrite Hseek.
    rewrite (mem_seek_fn_in_range d 0 SDL_IO_SEEK_END s Hud Hd)
      by (cbn [seek_origin]; lia).
    cbn [seek_origin].
    rewrite (mem_seek_fn_in_range (set_here d (stop d + 0)) (here d - base d)
               SDL_IO_SEEK_SET)
      by (try reflexivity; unfold region_ok, set_here; cbn [seek_origin base here stop]; lia).
    cbn [seek_origin set_here base here stop set_userdata userdata].
    f_equal; [lia|].
    replace (base d + (here d - base d)) with (here d) by lia.
    destruct s, d; cbn in *. subst. reflexivity.
Qed.

(** X7.  On a memory stream [SDL_GetIOSize] returns [stop - base] and
    changes nothing, whether the table has [mem_size] or has no size
    function, in which case the size is found by seeking to the end and the
    cursor is put back where it was. *)
Theorem SDL_GetIOSize_of_memory h d s :
  size (iface h) = Some mem_size_fn \/
  (size (iface h) = None /\ seek (iface h) = Some mem_seek_fn) ->
  userdata s = UD_mem d -> region_ok d ->
  SDL_GetIOSize (Some h) s = (stop d - base d, s).
Proof. exact (SDL_GetIOSize_memory_eq h d s). Qed.

Lemma at_byte_ok n : 0 <= n <= 4 -> region_ok (at_byte n).
Proof. intros H. unfold region_ok, at_byte. cbn [base here stop]. lia. Qed.

(** Five bytes requested two bytes before the end. *)
Lemma mem_read_bounded_witness :
  mem_read (at_byte 2) 5 (snd (four_bytes 2)) =
    ([Byte.x56; Byte.x78], at_byte 4, snd (four_bytes 2)).
Proof.
  exact (proj1 (mem_read_bounded (at_byte 2) 5 (snd (four_bytes 2))
                  (at_byte_ok 2 ltac:(lia)) ltac:(lia))).
Defined.

(** Two bytes written one byte before the end: one is stored, the byte
    past [stop] is untouched. *)
Lemma mem_write_bounded_witness :
  let r := mem_write (at_byte 3) [Byte.x01; Byte.x02] 2 (snd (four_bytes 3)) in
  fst (fst r) = 1 /\ snd (fst r) = at_byte 4 /\
  memory (snd r) 1003 = Byte.x01 /\ memory (snd r) 1004 = Byte.x00.
Proof.
  destruct (mem_write_bounded (at_byte 3) [Byte.x01; Byte.x02] 2 (snd (four_bytes 3))
              (at_byte_ok 3 ltac:(lia)) ltac:(lia))
    as (Hn & Hd & _ & _ & Hout & Hin).
  split; [exact Hn|]. split; [exact Hd|]. split; [reflexivity|].
  exact (Hout 1004 ltac:(right; cbn; lia)).
Defined.

(** The four-byte stream with its cursor at offset 3. *)
Lemma SDL_TellIO_of_memory_witness :
  SDL_TellIO (fst (four_bytes 3)) (snd (four_bytes 3)) = (3, snd (four_bytes 3)).
Proof.
  exact (SDL_TellIO_of_memory (mkStream mem_interface) (at_byte 3) (snd (four_bytes 3))
           eq_refl eq_refl (at_byte_ok 3 ltac:(lia))).
Defined.

(** The four-byte stream with its cursor at offset 3, through [mem_size]
    and through a table without size function. *)
Lemma SDL_GetIOSize_of_memory_witness :
  SDL_GetIOSize (fst (four_bytes 3)) (snd (four_bytes 3)) = (4, snd (four_bytes 3)) /\
  SDL_GetIOSize (Some (mkStream (mkIface 56 None (Some mem_seek_fn) None None None None)))
                (snd (four_bytes 3)) = (4, snd (four_bytes 3)).
Proof.
  split.
  - exact (SDL_GetIOSize_of_memory (mkStream mem_interface) (at_byte 3)
             (snd (four_bytes 3)) (or_introl eq_refl) eq_refl (at_byte_ok 3 ltac:(lia))).
  - exact (SDL_GetIOSize_of_memory
             (mkStream (mkIface 56 None (Some mem_seek_fn) None None None None))
             (at_byte 3) (snd (four_bytes 3)) (or_intror (conj eq_refl eq_refl)) eq_refl
             (at_byte_ok 3 ltac:(lia))).
Defined.

Lemma load_nothing m p n : n <= 0 -> load m p n = [].
Proof.
  intros H. unfold load. replace (Z.to_nat n) with 0%nat by lia. reflexivity.
Qed.

Lemma load_nonempty m p n : 0 < n -> load m p n <> [].
Proof.
  intros H E. apply (f_equal (@length byte)) in E.
  pose proof (load_length m p n ltac:(lia)). rewrite E in *. cbn in *. lia.
Qed.

Lemma mem_read_fn_clamped d size s :
  userdata s = UD_mem d -> region_ok d -> 0 <= size ->
  mem_read_fn size s =
    (load (memory s) (here d) (Z.min size (stop d - here d)),
     set_userdata s (UD_mem (set_here d (here d + Z.min size (stop d - here d))))).
Proof.
  intros Hud Hd Hsize. unfold mem_read_fn, in_userdata. monad_unfold.
  rewrite Hud. cbn [as_mem].
  unfold mem_read. monad_unfold.
  rewrite (mem_io_clamped d ToCaller size s Hd Hsize). reflexivity.
Qed.

(** [SDL_ReadIO] through [mem_read]: the bytes up to [stop], and the status
    EOF exactly when a request for at least one byte finds none. *)
Lemma SDL_ReadIO_of_memory h d size s :
  read (iface h) = Some mem_read_fn ->
  userdata s = UD_mem d -> region_ok d -> 0 <= size ->
  let n := Z.min size (stop d - here d) in
  SDL_ReadIO (Some h) size s =
    (load (memory s) (here d) n,
     set_userdata
       (set_status (entry_state s)
          (if (0 <? size) && (n =? 0) then SDL_IO_STATUS_EOF else SDL_IO_STATUS_READY))
       (UD_mem (set_here d (here d + n)))).
Proof.
  intros Hread Hud Hd Hsize n. pose proof Hd as (Hb & Hbh & Hhs & Hs).
  unfold SDL_ReadIO. rewrite Hread. unfold SDL_ClearError. monad_unfold.
  fold (entry_state s).
  destruct (Z.eqb_spec size 0) as [-> | Hnz].
  - assert (n = 0) by lia. subst n. rewrite H. cbn [Z.ltb Z.compare andb].
    rewrite load_nothing, Z.add_0_r, set_here_same by lia.
    rewrite <- Hud. destruct s; reflexivity.
  - destruct (Z.ltb_spec 0 size); [|lia]. cbn [andb].
    rewrite (mem_read_fn_clamped d size (entry_state s)) by assumption.
    fold n. cbn [fst snd memory entry_state set_error set_status].
    destruct (Z.eqb_spec n 0) as [Hn | Hn].
    + rewrite Hn, load_nothing by lia. reflexivity.
    + destruct (load (memory s) (here d) n) eqn:El.
      * exfalso. apply (load_nonempty (memory s) (here d) n); [lia | exact El].
      * reflexivity.
Qed.

Lemma mem_write_fn_clamped d ptr size s :
  userdata s = UD_mem d -> region_ok d -> 0 <= size ->
  mem_write_fn ptr size s =
    (Z.min size (stop d - here d),
     set_userdata
       (set_memory s (store (memory s) (here d)
                        (take (Z.min size (stop d - here d)) ptr)))
       (UD_mem (set_here d (here d + Z.min size (stop d - here d))))).
Proof.
  intros Hud Hd Hsize. unfold mem_write_fn, in_userdata, mem_write. monad_unfold.
  rewrite Hud. cbn [as_mem].
  rewrite (mem_io_clamped d (FromCaller ptr) size s Hd Hsize). reflexivity.
Qed.

Lemma store_nothing m p a : store m p [] a = m a.
Proof.
  unfold store. cbn [length Z.of_nat].
  destruct (Z.leb_spec p a), (Z.ltb_spec a (p + 0)); cbn [andb]; try reflexivity; lia.
Qed.

(** [SDL_WriteIO] through [mem_write]: the count that fits below [stop], and
    the status Error when no byte does. *)
Lemma SDL_WriteIO_of_memory h d ptr size s :
  write (iface h) = Some mem_write_fn ->
  userdata s = UD_mem d -> region_ok d -> 0 < size ->
  let n := Z.min size (stop d - here d) in
  SDL_WriteIO (Some h) ptr size s =
    (n,
     set_userdata
       (set_memory
          (set_status (entry_state s)
             (if n =? 0 then SDL_IO_STATUS_ERROR else SDL_IO_STATUS_READY))
          (store (memory s) (here d) (take n ptr)))
       (UD_mem (set_here d (here d + n)))).
Proof.
  intros Hwrite Hud Hd Hsize n. pose proof Hd as (Hb & Hbh & Hhs & Hs).
  unfold SDL_WriteIO. rewrite Hwrite. unfold SDL_ClearError. monad_unfold.
  fold (entry_state s).
  destruct (Z.eqb_spec size 0) as [-> | Hnz]; [lia|].
  rewrite (mem_write_fn_clamped d ptr size (entry_state s)) by (try assumption; lia).
  fold n. cbn [fst snd memory status entry_state set_error set_status set_userdata
               set_memory].
  destruct (Z.eqb_spec n 0) as [Hn | Hn]; cbn [andb SDL_IOStatus_eqb]; reflexivity.
Qed.

(** X8.  [SDL_ReadIO] and [SDL_WriteIO] on a fixed-memory stream transfer
    [min size (stop - here)] bytes and advance the cursor by that count; a
    request for at least one byte that transfers none leaves the status EOF
    for a read and Error for a write, every other request leaves Ready. *)
Theorem memory_stream_transfers h d size s :
  userdata s = UD_mem d -> region_ok d -> 0 <= size ->
  let n := Z.min size (stop d - here d) in
  let stopped := (0 <? size) && (n =? 0) in
  (read (iface h) = Some mem_read_fn ->
   let r := SDL_ReadIO (Some h) size s in
   fst r = load (memory s) (here d) n /\
   userdata (snd r) = UD_mem (set_here d (here d + n)) /\
   memory (snd r) = memory s /\
   status (snd r) = if stopped then SDL_IO_STATUS_EOF else SDL_IO_STATUS_READY) /\
  (write (iface h) = Some mem_write_fn ->
   forall ptr,
   let w := SDL_WriteIO (Some h) ptr size s in
   fst w = n /\
   userdata (snd w) = UD_mem (set_here d (here d + n)) /\
   (forall a, memory (snd w) a = store (memory s) (here d) (take n ptr) a) /\
   status (snd w) = if stopped then SDL_IO_STATUS_ERROR else SDL_IO_STATUS_READY).
Proof.
  intros Hud Hd Hsize n stopped. pose proof Hd as (Hb & Hbh & Hhs & Hs). split.
  - intros Hread r. subst r.
    rewrite (SDL_ReadIO_of_memory h d size s Hread Hud Hd Hsize).
    repeat split.
  - intros Hwrite ptr w. subst w.
    destruct (Z.eq_dec size 0) as [Hz | Hnz].
    + assert (Hn : n = 0) by lia. subst stopped. rewrite Hn. subst size.
      rewrite (SDL_WriteIO_nothing h mem_write_fn) by exact Hwrite.
      cbn [fst snd userdata memory status entry_state set_error set_status].
      rewrite Z.add_0_r, set_here_same.
      repeat split; try assumption.
      intros a. unfold take. cbn [Z.to_nat firstn]. symmetry. apply store_nothing.
    + rewrite (SDL_WriteIO_of_memory h d ptr size s Hwrite Hud Hd ltac:(lia)).
      fold n. subst stopped. destruct (Z.ltb_spec 0 size); [|lia].
      repeat split.
Qed.

(** With the cursor at the end, a read finds the end of the stream and a
    write finds no room. *)
Lemma memory_stream_transfers_witness :
  fst (SDL_ReadIO (fst (four_bytes 4)) 2 (snd (four_bytes 4))) = [] /\
  status (snd (SDL_ReadIO (fst (four_bytes 4)) 2 (snd (four_bytes 4))))
    = SDL_IO_STATUS_EOF /\
  fst (SDL_WriteIO (fst (four_bytes 4)) [Byte.x01] 1 (snd (four_bytes 4))) = 0 /\
  status (snd (SDL_WriteIO (fst (four_bytes 4)) [Byte.x01] 1 (snd (four_bytes 4))))
    = SDL_IO_STATUS_ERROR.
Proof.
  destruct (memory_stream_transfers (mkStream mem_interface) (at_byte 4) 2
              (snd (four_bytes 4)) eq_refl (at_byte_ok 4 ltac:(lia)) ltac:(lia))
    as [Hread _].
  destruct (memory_stream_transfers (mkStream mem_interface) (at_byte 4) 1
              (snd (four_bytes 4)) eq_refl (at_byte_ok 4 ltac:(lia)) ltac:(lia))
    as [_ Hwrite].
  destruct (Hread eq_refl) as (R1 & _ & _ & R2).
  destruct (Hwrite eq_refl [Byte.x01]) as (W1 & _ & _ & W2).
  split; [exact R1|]. split; [exact R2|]. split; [exact W1 | exact W2].
Defined.

(** ** Handles and what they hold *)

(** X9.  A handle returned by one of the five constructors refuses every
    transfer: reads return no byte and leave the status WriteOnly, writes
    return 0 and leave ReadOnly, seeks and the size query return -1, each
    with the message "That operation is not supported"; a flush answers
    true without calling anything. *)
Theorem constructed_handle_rejects_every_operation h s :
  constructed h ->
  (forall size,
     SDL_ReadIO (Some h) size s =
       ([], set_error (set_status s SDL_IO_STATUS_WRITEONLY)
                      "That operation is not supported")) /\
  (forall ptr size,
     SDL_WriteIO (Some h) ptr size s =
       (0, set_error (set_status s SDL_IO_STATUS_READONLY)
                     "That operation is not supported")) /\
  (forall offset whence,
     SDL_SeekIO (Some h) offset whence s =
       (-1, set_error s "That operation is not supported")) /\
  SDL_GetIOSize (Some h) s = (-1, set_error s "That operation is not supported") /\
  SDL_FlushIO (Some h) s = (true, entry_state s).
Proof.
  intros Hc. rewrite (constructed_has_no_functions h Hc).
  repeat split.
Qed.

Lemma remove_first_head r l : remove_first r (r :: l) = l.
Proof.
  cbn [remove_first].
  assert (H : resource_eqb r r = true).
  { destruct r; cbn; rewrite ?Z.eqb_refl; reflexivity. }
  rewrite H. reflexivity.
Qed.

Ltac heap_cases s :=
  destruct s as [u st pr er en m l heap os out ind];
  destruct heap as [|p1 [|p2 heap]];
  cbn -[remove_first];
  repeat match goal with
         | |- context [?p =? 0] => is_var p; destruct (Z.eqb_spec p 0); cbn -[remove_first]
         end.

(** X10.  The three constructors of memory streams take exactly the handle
    and the backend object from the allocator when they succeed and hold
    nothing more than before when they fail; they neither touch a byte of
    memory nor call the environment. *)
Theorem memory_constructors_take_a_stream_or_nothing s :
  (forall mem size, takes_a_stream_or_nothing s (SDL_IOFromMem mem size s)) /\
  (forall mem size, takes_a_stream_or_nothing s (SDL_IOFromConstMem mem size s)) /\
  takes_a_stream_or_nothing s (SDL_IOFromDynamicMem s).
Proof.
  unfold takes_a_stream_or_nothing.
  repeat split; try intros mem size;
    unfold SDL_IOFromMem, SDL_IOFromConstMem, SDL_IOFromDynamicMem, SDL_OpenIO,
      SDL_calloc, SDL_free, next_address, acquire, release,
      SDL_InvalidParamError, SDL_SetError;
    monad_unfold;
    try (destruct (mem =? 0); [destruct s; reflexivity|]);
    try (destruct (size =? 0); [destruct s; reflexivity|]);
    heap_cases s; rewrite ?remove_first_head; reflexivity.
Qed.

(** The size of the handle [SDL_IOFromConstMem] returns for four bytes. *)
Lemma constructed_handle_rejects_every_operation_witness :
  SDL_GetIOSize (fst const_mem_demo) (snd const_mem_demo) =
    (-1, set_error (snd const_mem_demo) "That operation is not supported").
Proof.
  assert (Hc : constructed (mkStream zero_iface)).
  { exact (from_const_mem _ 1000 4 (demo_state [] [4096; 8192] [] 1) _ eq_refl). }
  exact (proj1 (proj2 (proj2 (proj2
           (constructed_handle_rejects_every_operation _ (snd const_mem_demo) Hc))))).
Defined.

Lemma calls_succeed_inv s :
  calls_succeed s ->
  exists e1 b1 f1 e2 b2 f2 e3 b3 f3 rest,
    os_oracle s = mkOs 0 e1 b1 f1 :: mkOs 0 e2 b2 f2 :: mkOs 0 e3 b3 f3 :: rest.
Proof.
  intros [Hall Hlen].
  destruct (os_oracle s) as [|[r1 e1 b1 f1] [|[r2 e2 b2 f2] [|[r3 e3 b3 f3] rest]]];
    cbn in Hlen; try lia.
  inversion Hall as [|? ? H1 Hall1]; subst.
  inversion Hall1 as [|? ? H2 Hall2]; subst.
  inversion Hall2 as [|? ? H3 _]; subst.
  cbn in H1, H2, H3. subst. repeat eexists.
Qed.

Lemma SDL_IOFromFD_fails_cleanly fd autoclose s :
  calls_succeed s ->
  fst (SDL_IOFromFD fd autoclose s) = None ->
  live (snd (SDL_IOFromFD fd autoclose s)) =
    if autoclose then remove_first (ResFd fd) (live s) else live s.
Proof.
  intros Hos.
  destruct (calls_succeed_inv s Hos)
    as (e1 & b1 & f1 & e2 & b2 & f2 & e3 & b3 & f3 & rest & Hor).
  unfold SDL_IOFromFD, SDL_OpenIO, fd_close, sys_close, sys_test, sys_value, oscall,
    SDL_calloc, SDL_free, next_address, acquire, release,
    SDL_InvalidParamError, SDL_SetError.
  monad_unfold.
  destruct s as [u st pr er en m l heap os out ind]; cbn in Hor; subst os;
    destruct heap as [|p1 [|p2 heap]]; cbn -[remove_first];
    repeat match goal with
           | |- context [?p =? 0] =>
               is_var p; destruct (Z.eqb_spec p 0); cbn -[remove_first]
           end;
    destruct autoclose; cbn -[remove_first];
    try discriminate; intros _;
    rewrite ?remove_first_head; try reflexivity.
  all: cbn [remove_first resource_eqb]; rewrite ?remove_first_head; reflexivity.
Qed.

Lemma SDL_IOFromFP_fails_cleanly range fp autoclose s :
  calls_succeed s ->
  fst (SDL_IOFromFP range fp autoclose s) = None ->
  live (snd (SDL_IOFromFP range fp autoclose s)) =
    if autoclose then remove_first (ResFile fp) (live s) else live s.
Proof.
  intros Hos.
  destruct (calls_succeed_inv s Hos)
    as (e1 & b1 & f1 & e2 & b2 & f2 & e3 & b3 & f3 & rest & Hor).
  unfold SDL_IOFromFP, SDL_OpenIO, stdio_close, sys_close, sys_test, sys_value, oscall,
    SDL_calloc, SDL_free, next_address, acquire, release,
    SDL_InvalidParamError, SDL_SetError.
  monad_unfold.
  destruct s as [u st pr er en m l heap os out ind]; cbn in Hor; subst os;
    destruct heap as [|p1 [|p2 heap]]; cbn -[remove_first];
    repeat match goal with
           | |- context [?p =? 0] =>
               is_var p; destruct (Z.eqb_spec p 0); cbn -[remove_first]
           end;
    destruct autoclose; cbn -[remove_first];
    try discriminate; intros _;
    rewrite ?remove_first_head; try reflexivity.
  all: cbn [remove_first resource_eqb]; rewrite ?remove_first_head; reflexivity.
Qed.

(** X11.  When [SDL_IOFromFD] or [SDL_IOFromFP] fails (and the environment's
    calls succeed) the backend object is not kept, and the descriptor or
    file is closed exactly when [autoclose] was asked for: without it the
    process holds what it held before. *)
Theorem descriptor_constructors_fail_cleanly range s :
  calls_succeed s ->
  (forall fd autoclose,
     fst (SDL_IOFromFD fd autoclose s) = None ->
     live (snd (SDL_IOFromFD fd autoclose s)) =
       if autoclose then remove_first (ResFd fd) (live s) else live s) /\
  (forall fp autoclose,
     fst (SDL_IOFromFP range fp autoclose s) = None ->
     live (snd (SDL_IOFromFP range fp autoclose s)) =
       if autoclose then remove_first (ResFile fp) (live s) else live s).
Proof.
  intros Hos. split.
  - intros fd autoclose. apply SDL_IOFromFD_fails_cleanly. exact Hos.
  - intros fp autoclose. apply SDL_IOFromFP_fails_cleanly. exact Hos.
Qed.

Lemma one_object_left_succeeds : calls_succeed one_object_left.
Proof. split; [repeat constructor | cbn; lia]. Qed.

(** With one object left to allocate, the handle cannot be made. *)
Lemma descriptor_constructors_fail_cleanly_witness :
  fst (SDL_IOFromFD 3 true one_object_left) = None /\
  live (snd (SDL_IOFromFD 3 true one_object_left)) = [ResFile 700] /\
  live (snd (SDL_IOFromFP None 700 false one_object_left)) = [ResFd 3; ResFile 700].
Proof.
  destruct (descriptor_constructors_fail_cleanly None one_object_left
              one_object_left_succeeds) as [Hfd Hfp].
  split; [reflexivity|]. split.
  - exact (Hfd 3 true eq_refl).
  - exact (Hfp 700 false eq_refl).
Defined.

Ltac open_then_close s :=
  unfold SDL_CloseIO;
  cbn [iface close mem_interface const_mem_interface dynamic_mem_interface
       fd_interface stdio_interface];
  unfold SDL_IOFromMem, SDL_IOFromConstMem, SDL_IOFromDynamicMem, SDL_IOFromFD,
    SDL_IOFromFP, SDL_OpenIO, mem_close, dynamic_mem_close, fd_close,
    stdio_close, on_userdata, sys_test, sys_value, oscall,
    SDL_calloc, SDL_free, SDL_free_buffer, next_address, acquire, release,
    SDL_InvalidParamError, SDL_SetError;
  monad_unfold;
  destruct s as [u st pr er en m l heap os out ind];
  destruct heap as [|p1 [|p2 heap]]; cbn -[remove_first];
  repeat match goal with
         | |- context [?p =? 0] =>
             is_var p; destruct (Z.eqb_spec p 0); cbn -[remove_first]
         end;
  try discriminate.

Ltac answers os :=
  repeat match goal with
         | |- context [match os with _ => _ end] =>
             let a := fresh "a" in let r := fresh "r" in
             destruct os as [|[r ? ? ?] os]; cbn -[remove_first];
             try destruct (r <? 0); cbn -[remove_first]
         | |- context [?p =? 0] =>
             is_var p; destruct (Z.eqb_spec p 0); cbn -[remove_first]
         end.

(** X12.  Closing through the table a constructor filled in releases what
    the constructor took: after a successful [SDL_IOFromMem],
    [SDL_IOFromConstMem], [SDL_IOFromDynamicMem], or [SDL_IOFromFD] and
    [SDL_IOFromFP] without [autoclose], [SDL_CloseIO] with that table leaves
    the process holding what it held before the constructor; for the last
    two it answers true and calls nothing. *)
Theorem close_undoes_open s :
  (forall mem size,
     let o := SDL_IOFromMem mem size s in
     fst o <> None ->
     live (snd (SDL_CloseIO (Some (mkStream mem_interface)) (snd o))) = live s) /\
  (forall mem size,
     let o := SDL_IOFromConstMem mem size s in
     fst o <> None ->
     live (snd (SDL_CloseIO (Some (mkStream const_mem_interface)) (snd o))) = live s) /\
  (let o := SDL_IOFromDynamicMem s in
   fst o <> None ->
   live (snd (SDL_CloseIO (Some (mkStream dynamic_mem_interface)) (snd o))) = live s) /\
  (forall fd,
     let o := SDL_IOFromFD fd false s in
     fst o <> None ->
     let c := SDL_CloseIO (Some (mkStream fd_interface)) (snd o) in
     fst c = true /\ live (snd c) = live s /\ os_oracle (snd c) = os_oracle (snd o)) /\
  (forall range fp,
     let o := SDL_IOFromFP range fp false s in
     fst o <> None ->
     let c := SDL_CloseIO (Some (mkStream (stdio_interface range))) (snd o) in
     fst c = true /\ live (snd c) = live s /\ os_oracle (snd c) = os_oracle (snd o)).
Proof.
  split; [|split; [|split; [|split]]]; cbv zeta.
  - intros mem size.
    unfold SDL_IOFromMem.
    destruct (mem =? 0); [cbn; congruence|]. destruct (size =? 0); [cbn; congruence|].
    open_then_close s. all: try congruence.
    all: intros _; cbn [remove_first resource_eqb]; reflexivity.
  - intros mem size.
    unfold SDL_IOFromConstMem.
    destruct (mem =? 0); [cbn; congruence|]. destruct (size =? 0); [cbn; congruence|].
    open_then_close s. all: try congruence.
    all: intros _; cbn [remove_first resource_eqb]; reflexivity.
  - open_then_close s. all: try congruence.
    all: intros _; cbn [remove_first resource_eqb]; reflexivity.
  - intros fdn. open_then_close s. all: answers os.
    all: try congruence.
    all: intros _; cbn [remove_first resource_eqb]; repeat split.
  - intros range fp. open_then_close s. all: answers os.
    all: try congruence.
    all: intros _; cbn [remove_first resource_eqb]; repeat split.
Qed.

(** ** The growable backend *)

Lemma mem_seek_stays_inside d offset whence :
  base d <= stop d ->
  let d' := snd (mem_seek d offset whence) in
  base d' = base d /\ stop d' = stop d /\ base d <= here d' <= stop d.
Proof.
  intros H. unfold mem_seek. cbv zeta. cbn [snd set_here base here stop].
  rewrite Z.gtb_ltb.
  repeat match goal with
         | |- context [?a <? ?b] => destruct (Z.ltb_spec a b)
         end; lia.
Qed.

(** X13.  Seeking, reading and writing keep the layout
    [base <= here <= stop <= end] of the growable backend, whether a write
    fits, grows the buffer, or fails to. *)
Theorem dynamic_backend_keeps_layout d :
  dynamic_invariant d -> 0 <= base (data d) -> end_ d < 2 ^ 64 ->
  (forall offset whence, dynamic_invariant (snd (dynamic_mem_seek d offset whence))) /\
  (forall size s, 0 <= size ->
     dynamic_invariant (snd (fst (dynamic_mem_read d size s)))) /\
  (forall ptr size s, 0 <= size -> allocation_in_range d size s ->
     dynamic_invariant (snd (fst (dynamic_mem_write d ptr size s)))).
Proof.
  intros Hinv Hb He. pose proof Hinv as (Hbh & Hhs & Hse).
  split; [|split].
  - intros offset whence. unfold dynamic_mem_seek. cbv zeta. cbn [snd].
    destruct (mem_seek_stays_inside (data d) offset whence ltac:(lia)) as (E1 & E2 & E3).
    unfold dynamic_invariant, set_data. cbn [data end_]. rewrite E1, E2. lia.
  - intros size s Hsize. unfold dynamic_mem_read. cbv beta iota delta [bind ret].
    rewrite (mem_io_clamped (data d) ToCaller size s) by (unfold region_ok; lia).
    unfold dynamic_invariant, set_data, set_here. cbn [fst snd data end_ base here stop].
    lia.
  - intros ptr size s Hsize (Hchunk & Hheap).
    destruct (Z.lt_ge_cases (end_ d - here (data d)) size) as [Hgrow | Hfit].
    + assert (Hng : needs_growth d size) by exact Hgrow.
      destruct (heap_oracle s) as [|p rest] eqn:Eheap.
      * rewrite dynamic_mem_write_allocation_failure
          by (try assumption; rewrite Eheap; reflexivity).
        exact Hinv.
      * destruct Hheap as [-> | [Hp Hroom]].
        { rewrite dynamic_mem_write_allocation_failure
            by (try assumption; rewrite Eheap; reflexivity).
          exact Hinv. }
        unfold chunk_in_force in Hroom.
        destruct (dynamic_mem_realloc_layout d size s p rest Hinv Hsize Hchunk Eheap
                    (conj Hp Hroom))
          as (length & (_ & Hge & _) & _ & _ & Hbase & Hend & Hhere & Hstop).
        rewrite (dynamic_mem_write_with_growth d ptr size s p rest)
          by (try assumption; split; assumption).
        destruct (negb (indeterminate s =? 0)); cbn [fst snd].
        -- unfold dynamic_invariant. cbn [data base here stop end_]. lia.
        -- unfold dynamic_invariant. lia.
    + rewrite dynamic_mem_write_without_growth
        by (try assumption; unfold needs_growth; lia).
      unfold dynamic_invariant. cbn [fst snd data base here stop end_]. lia.
Qed.

Lemma one_byte_written_layout :
  dynamic_invariant (fst one_byte_written) /\
  0 <= base (data (fst one_byte_written)) /\ end_ (fst one_byte_written) < 2 ^ 64.
Proof. unfold dynamic_invariant. cbn. lia. Qed.

(** A seek before the start and a write of 2000 bytes after one byte was
    written. *)
Lemma dynamic_backend_keeps_layout_witness :
  dynamic_invariant
    (snd (dynamic_mem_seek (fst one_byte_written) (-5) SDL_IO_SEEK_CUR)) /\
  dynamic_invariant
    (snd (fst (dynamic_mem_write (fst one_byte_written) [Byte.x02] 2000
                 (snd one_byte_written)))).
Proof.
  destruct one_byte_written_layout as (Hinv & Hb & He).
  destruct (dynamic_backend_keeps_layout (fst one_byte_written) Hinv Hb He)
    as (Hseek & _ & Hwrite).
  split; [apply Hseek|].
  apply Hwrite; [lia|].
  split; [cbn; lia|]. cbn. right. lia.
Defined.

Lemma load_ext m m' p n :
  (forall a, p <= a < p + n -> m a = m' a) -> load m p n = load m' p n.
Proof.
  intros H. unfold load. apply map_ext_in. intros i Hi. apply in_seq in Hi.
  apply H. lia.
Qed.

Lemma load_nth m p n i :
  (i < Z.to_nat n)%nat -> nth i (load m p n) Byte.x00 = m (p + Z.of_nat i).
Proof.
  intros Hi. unfold load.
  pose proof (map_nth (fun j => m (p + Z.of_nat j)) (seq 0 (Z.to_nat n)) 0%nat i) as E.
  cbv beta in E. rewrite seq_nth in E by exact Hi. cbn [Nat.add] in E.
  rewrite <- E. apply nth_indep. rewrite length_map, length_seq. exact Hi.
Qed.

(** What [SDL_realloc] leaves at the new address: the old bytes. *)
Lemma load_of_moved m old p k n :
  0 <= n <= k ->
  load (store m p (load m old k)) p n = load m old n.
Proof.
  intros Hn. unfold load at 1 3. apply map_ext_in. intros i Hi. apply in_seq in Hi.
  unfold store. rewrite load_length by lia.
  destruct (Z.leb_spec p (p + Z.of_nat i)); [|lia].
  destruct (Z.ltb_spec (p + Z.of_nat i) (p + k)); [|lia].
  cbn [andb]. replace (p + Z.of_nat i - p) with (Z.of_nat i) by lia.
  rewrite Nat2Z.id. apply load_nth. lia.
Qed.

Lemma buffer_len_head p n l : buffer_len p (ResBuffer p n :: l) = n.
Proof. cbn [buffer_len]. rewrite Z.eqb_refl. reflexivity. Qed.

(** [dynamic_mem_realloc] with its arithmetic carried out. *)
Lemma dynamic_mem_realloc_explicit d size s p :
  dynamic_invariant d -> 0 <= size -> 0 <= base (data d) ->
  growth_succeeds d size s p ->
  let allocated := end_ d - base (data d) in
  let length := ((allocated + size) / chunk_in_force s + 1) * chunk_in_force s in
  allocated + size + 1 <= length /\
  p + length < 2 ^ 64 /\
  dynamic_mem_realloc d size s =
    (true,
     mkDynData
       (mkMemData p (p + (here (data d) - base (data d)))
                  (p + (stop (data d) - base (data d))))
       (p + length),
     set_props
       (set_live
          (set_memory (set_heap_oracle s (tl (heap_oracle s)))
             (store (memory s) p
                (load (memory s) (base (data d))
                   (Z.min (buffer_len (base (data d)) (live s)) length))))
          (ResBuffer p length
             :: remove_first (ResBuffer (base (data d))
                                (buffer_len (base (data d)) (live s)))
                             (live s)))
       (set_memoryPtr (props s) p)).
Proof.
  intros (Hbh & Hhs & Hse) Hsize Hb (Hchunk & Hhd & Hne & Hp & Hfit & Hind)
         allocated length.
  destruct (heap_oracle s) as [|p' rest] eqn:Hheap; [contradiction|].
  cbn [hd] in Hhd. subst p'. cbn [tl].
  set (chunk := chunk_in_force s) in *.
  assert (Hcs : to_size_t (chunkSize (props s)) = chunkSize (props s))
    by (apply to_size_t_small; lia).
  assert (Hchunk' : 0 < chunk <= 2 ^ 31).
  { subst chunk. unfold chunk_in_force.
    destruct (Z.eqb_spec (chunkSize (props s)) 0); lia. }
  assert (Hlen : allocated + size + 1 <= length <= allocated + size + chunk).
  { subst length.
    pose proof (Z.mod_pos_bound (allocated + size) chunk ltac:(lia)).
    pose proof (Z.div_mod (allocated + size) chunk ltac:(lia)). nia. }
  fold allocated in Hfit.
  split; [lia|]. split; [lia|].
  rewrite (dynamic_mem_realloc_grows d size s p rest Hheap ltac:(lia)).
  rewrite Hcs. fold (chunk_in_force s). fold chunk. fold allocated.
  assert (Hdiv : 0 <= (allocated + size) / chunk <= allocated + size).
  { split; [apply Z.div_pos; subst allocated; lia|].
    apply Z.div_le_upper_bound; [lia|]. subst allocated. nia. }
  rewrite (to_size_t_small allocated) by (subst allocated; lia).
  rewrite (to_size_t_small (allocated + size)) by (subst allocated; lia).
  rewrite (to_size_t_small ((allocated + size) / chunk + 1)) by (subst allocated; lia).
  fold length.
  rewrite (to_size_t_small length) by (subst allocated; lia).
  rewrite !to_size_t_small by lia.
  rewrite !ptr_add_small by (subst allocated; lia).
  apply Z.eqb_neq in Hind. rewrite Hind. reflexivity.
Qed.

(** X14.  A write that grows the buffer (the allocator answers, the caller
    of [dynamic_mem_realloc] sees a non-zero value) transfers all its
    bytes: the content before the cursor is found unchanged at the new
    address, the bytes written follow it, the size of the stream becomes the
    offset of the cursor plus the count, and the allocator holds the new
    buffer with the length the backend believes it has. *)
Theorem growing_write_keeps_content d ptr size s p :
  dynamic_invariant d -> 0 <= base (data d) -> end_ d < 2 ^ 64 ->
  needs_growth d size ->
  growth_succeeds d size s p ->
  allocation_recorded d s ->
  size <= Z.of_nat (length ptr) ->
  let r := dynamic_mem_write d ptr size s in
  let d' := snd (fst r) in
  let offset := here (data d) - base (data d) in
  fst (fst r) = size /\
  base (data d') = p /\
  here (data d') = p + offset + size /\
  dynamic_mem_size d' = offset + size /\
  load (memory (snd r)) p offset = load (memory s) (base (data d)) offset /\
  load (memory (snd r)) (p + offset) size = take size ptr /\
  dynamic_invariant d' /\
  allocation_recorded d' (snd r).
Proof.
  intros Hinv Hb He Hgrow Hok Hrec Hlen r d' offset.
  pose proof Hinv as (Hbh & Hhs & Hse).
  assert (Hsize : 0 <= size) by (unfold needs_growth in Hgrow; lia).
  destruct (dynamic_mem_realloc_explicit d size s p Hinv Hsize Hb Hok)
    as (Hcover & Hend & Hg).
  pose proof Hok as (Hchunk & Hhd & Hne & Hp & Hfit & Hind).
  destruct (heap_oracle s) as [|p' rest] eqn:Hheap; [contradiction|].
  cbn [hd] in Hhd. subst p'.
  subst r d'.
  rewrite (dynamic_mem_write_with_growth d ptr size s p rest)
    by (try assumption; split; assumption).
  apply Z.eqb_neq in Hind. rewrite Hind. cbn [negb fst snd].
  rewrite Hg. cbn [fst snd end_ data base here stop memory set_memory set_props
                   set_live live].
  fold offset. unfold allocation_recorded in Hrec. rewrite Hrec.
  set (grown := ((end_ d - base (data d) + size) / chunk_in_force s + 1)
                * chunk_in_force s) in *.
  rewrite Z.min_l by lia.
  repeat split.
  - unfold dynamic_mem_size, mem_size. cbn [data base stop]. lia.
  - rewrite <- (load_of_moved (memory s) (base (data d)) p (end_ d - base (data d)) offset)
      by (subst offset; lia).
    apply load_ext. intros a Ha. apply store_outside. lia.
  - pose proof (take_length size ptr ltac:(lia)) as E.
    match goal with
    | |- load (store ?m ?q ?bs) ?q _ = _ =>
        transitivity (load (store m q bs) q (Z.of_nat (length bs)));
          [rewrite E; reflexivity | apply load_store_same]
    end.
  - cbn [data base here]. subst offset. lia.
  - cbn [data here stop]. lia.
  - cbn [data stop end_]. subst offset. lia.
  - unfold allocation_recorded.
    cbn [data base end_ live set_live set_memory set_props buffer_len].
    rewrite Z.eqb_refl. lia.
Qed.

Lemma fresh_growth_succeeds :
  growth_succeeds (fst (fresh_dynamic 1)) 1 (snd (fresh_dynamic 1)) 4096.
Proof.
  unfold growth_succeeds, chunk_in_force. cbn.
  repeat split; try lia; discriminate.
Qed.

(** The first byte written to a fresh growable stream. *)
Lemma growing_write_keeps_content_witness :
  let r := dynamic_mem_write (fst (fresh_dynamic 1)) [Byte.x2a] 1 (snd (fresh_dynamic 1)) in
  fst (fst r) = 1 /\
  dynamic_mem_size (snd (fst r)) = 1 /\
  load (memory (snd r)) 4096 1 = [Byte.x2a] /\
  allocation_recorded (snd (fst r)) (snd r).
Proof.
  destruct (growing_write_keeps_content (fst (fresh_dynamic 1)) [Byte.x2a] 1
              (snd (fresh_dynamic 1)) 4096)
    as (H1 & _ & _ & H4 & _ & H6 & _ & H8).
  - unfold dynamic_invariant. cbn. lia.
  - cbn. lia.
  - cbn. lia.
  - unfold needs_growth. cbn. lia.
  - exact fresh_growth_succeeds.
  - reflexivity.
  - cbn. lia.
  - split; [exact H1|]. split; [exact H4|]. split; [exact H6 | exact H8].
Defined.

Lemma resource_eqb_eq r x : resource_eqb r x = true -> r = x.
Proof.
  destruct r, x; cbn; intros E; try discriminate; try reflexivity.
  - apply andb_prop in E. destruct E as [E1 E2].
    apply Z.eqb_eq in E1, E2. subst. reflexivity.
  - apply Z.eqb_eq in E. subst. reflexivity.
  - apply Z.eqb_eq in E. subst. reflexivity.
Qed.

Lemma remove_first_absent r l : ~ In r l -> remove_first r l = l.
Proof.
  intros H. induction l as [|x l IH]; [reflexivity|].
  cbn [remove_first].
  destruct (resource_eqb r x) eqn:E.
  - exfalso. apply H. left. symmetry. apply resource_eqb_eq. exact E.
  - f_equal. apply IH. intros Hin. apply H. right. exact Hin.
Qed.

Lemma remove_first_subset r l x : In x (remove_first r l) -> In x l.
Proof.
  induction l as [|y l IH]; [intros []|].
  cbn [remove_first]. destruct (resource_eqb r y).
  - intros H. right. exact H.
  - intros [H | H]; [left; exact H | right; apply IH; exact H].
Qed.

Lemma mem_io_keeps d xfer size s :
  live (snd (mem_io d xfer size s)) = live s /\
  props (snd (mem_io d xfer size s)) = props s /\
  base (snd (fst (mem_io d xfer size s))) = base d.
Proof. unfold mem_io. monad_unfold. destruct xfer; repeat split. Qed.

(** What [dynamic_mem_write] does to the resources held and to the recorded
    pointer: nothing, or the buffer at [base] is replaced by one at a new
    address, which becomes [base] and the recorded pointer. *)
Lemma dynamic_mem_write_accounting d ptr size s :
  let r := dynamic_mem_write d ptr size s in
  (live (snd r) = live s /\ props (snd r) = props s /\
   base (data (snd (fst r))) = base (data d)) \/
  (exists p len,
     p <> 0 /\
     live (snd r) =
       ResBuffer p len
         :: remove_first (ResBuffer (base (data d))
                            (buffer_len (base (data d)) (live s))) (live s) /\
     memoryPtr (props (snd r)) = p /\
     base (data (snd (fst r))) = p).
Proof.
  cbv zeta. unfold dynamic_mem_write. monad_unfold.
  assert (Hfinish : forall d0 s0,
            let r := (let (a, s') := mem_io (data d0) (FromCaller ptr) size s0 in
                      (fst (fst a), set_data d0 (snd a), s')) in
            live (snd r) = live s0 /\ props (snd r) = props s0 /\
            base (data (snd (fst r))) = base (data d0)).
  { intros d0 s0. cbv zeta.
    destruct (mem_io_keeps (data d0) (FromCaller ptr) size s0) as (H1 & H2 & H3).
    destruct (mem_io (data d0) (FromCaller ptr) size s0) as [[[cnt cp] d1] s1].
    cbn [fst snd set_data data] in *. repeat split; assumption. }
  destruct (size >? to_size_t (stop (data d) - here (data d)));
    [|left; apply Hfinish].
  destruct (size >? to_size_t (end_ d - here (data d))).
  - destruct (heap_oracle s) as [|p rest] eqn:Hheap.
    + rewrite dynamic_mem_realloc_fails by (rewrite Hheap; reflexivity).
      left. repeat split.
    + destruct (Z.eq_dec p 0) as [Hp | Hp].
      { rewrite dynamic_mem_realloc_fails by (rewrite Hheap; exact Hp).
        left. repeat split. }
      rewrite (dynamic_mem_realloc_grows d size s p rest Hheap Hp).
      cbv zeta. cbn [fst snd]. right. exists p.
      destruct (negb (indeterminate s =? 0)); cbn [negb].
      * match goal with
        | |- context [set_live _ (ResBuffer p ?len :: _)] => exists len
        end.
        match goal with
        | |- context [mem_io (data ?d0) _ _ ?s0] =>
            destruct (Hfinish d0 s0) as (H1 & H2 & H3)
        end.
        cbv zeta in H1, H2, H3. rewrite H1, H2, H3.
        repeat split. exact Hp.
      * eexists. repeat split. exact Hp.
  - cbn [negb fst snd]. left.
    match goal with
    | |- context [mem_io (data ?d0) _ _ ?s0] => exact (Hfinish d0 s0)
    end.
Qed.

(** What [SDL_CloseIO] leaves held, through the table of the growable
    backend. *)
Lemma SDL_CloseIO_growable s :
  let m := memoryPtr (props s) in
  SDL_CloseIO (Some (mkStream dynamic_mem_interface)) s =
    (true,
     set_live s
       (remove_first ResStream
          (remove_first ResUserdata
             (if negb (m =? 0)
              then remove_first (ResBuffer m (buffer_len m (live s))) (live s)
              else live s)))).
Proof.
  cbv zeta. unfold SDL_CloseIO. cbn [iface close dynamic_mem_interface].
  unfold on_userdata, dynamic_mem_close, SDL_free_buffer, SDL_free, release.
  monad_unfold. destruct (negb (memoryPtr (props s) =? 0)); destruct s; reflexivity.
Qed.

(** X15.  Whatever is written to a growable stream, closing it afterwards
    leaves the process holding what closing it before the write would have
    left: a buffer allocated or moved by the write is the one the close
    frees.  The recorded pointer stays the base of the buffer, so the same
    holds after any number of writes. *)
Theorem written_bytes_are_released_by_close d ptr size s :
  userdata s = UD_dynamic d ->
  memoryPtr (props s) = base (data d) ->
  null_not_held (live s) ->
  let h := Some (mkStream dynamic_mem_interface) in
  let w := SDL_WriteIO h ptr size s in
  live (snd (SDL_CloseIO h (snd w))) = live (snd (SDL_CloseIO h s)) /\
  (exists d', userdata (snd w) = UD_dynamic d' /\
              memoryPtr (props (snd w)) = base (data d')) /\
  null_not_held (live (snd w)).
Proof.
  intros Hud Hptr Hnull h w. subst w h.
  assert (Hgoal : forall s', live s' = live s -> props s' = props s ->
            live (snd (SDL_CloseIO (Some (mkStream dynamic_mem_interface)) s')) =
            live (snd (SDL_CloseIO (Some (mkStream dynamic_mem_interface)) s))).
  { intros s' Hl Hp. rewrite !SDL_CloseIO_growable. cbv zeta.
    cbn [snd live set_live]. rewrite Hl, Hp. reflexivity. }
  unfold SDL_WriteIO. cbn [iface write dynamic_mem_interface].
  unfold SDL_ClearError. monad_unfold. fold (entry_state s).
  destruct (size =? 0).
  { cbn [snd]. split; [apply Hgoal; reflexivity|].
    split; [exists d; split; assumption | exact Hnull]. }
  rewrite (dynamic_mem_write_fn_eq d) by exact Hud.
  destruct (dynamic_mem_write_accounting d ptr size (entry_state s))
    as [(Hl & Hp & Hb) | (p & len & Hp0 & Hl & Hp & Hb)].
  - destruct (dynamic_mem_write d ptr size (entry_state s)) as [[n d'] s1].
    cbn [fst snd] in *.
    match goal with |- context [if ?c then _ else _] => destruct c end;
      cbn [snd fst live props userdata set_status set_userdata].
    all: (split; [apply Hgoal; assumption|]).
    all: (split; [exists d'; split; [reflexivity | rewrite Hp, Hb; exact Hptr]
                 | rewrite Hl; exact Hnull]).
  - destruct (dynamic_mem_write d ptr size (entry_state s)) as [[n d'] s1].
    cbn [fst snd live entry_state set_error set_status] in *.
    assert (Hclosed :
      forall s', live s' = live s1 -> props s' = props s1 ->
        live (snd (SDL_CloseIO (Some (mkStream dynamic_mem_interface)) s')) =
        live (snd (SDL_CloseIO (Some (mkStream dynamic_mem_interface)) s))).
    { intros s' Hl' Hp'. rewrite !SDL_CloseIO_growable. cbv zeta.
      cbn [snd live set_live]. rewrite Hl', Hp', Hp, Hl.
      apply Z.eqb_neq in Hp0. rewrite Hp0. cbn [negb].
      rewrite buffer_len_head, remove_first_head. rewrite Hptr.
      destruct (Z.eqb_spec (base (data d)) 0) as [Hz | Hnz]; cbn [negb]; [|reflexivity].
      rewrite Hz.
      rewrite (remove_first_absent (ResBuffer 0 (buffer_len 0 (live s))) (live s))
        by apply Hnull.
      reflexivity. }
    match goal with |- context [if ?c then _ else _] => destruct c end;
      cbn [snd fst live props userdata set_status set_userdata].
    all: (split; [apply Hclosed; reflexivity|]).
    all: (split; [exists d'; split; [reflexivity | rewrite Hp, Hb; reflexivity]|]).
    all: rewrite Hl; intros k [Hk | Hk];
      [inversion Hk; congruence | apply remove_first_subset in Hk; exact (Hnull k Hk)].
Qed.

Lemma fresh_holds_no_null : null_not_held (live (snd (fresh_dynamic 1))).
Proof. intros n [H | [H | []]]; discriminate. Qed.

(** One byte written to a fresh growable stream, then the close. *)
Lemma written_bytes_are_released_by_close_witness :
  let h := Some (mkStream dynamic_mem_interface) in
  let w := SDL_WriteIO h [Byte.x2a] 1 (snd (fresh_dynamic 1)) in
  fst w = 1 /\
  live (snd w) = [ResBuffer 4096 1024; ResStream; ResUserdata] /\
  live (snd (SDL_CloseIO h (snd w))) = [].
Proof.
  cbv zeta. split; [reflexivity|]. split; [reflexivity|].
  rewrite (proj1 (written_bytes_are_released_by_close (fst (fresh_dynamic 1))
                    [Byte.x2a] 1 (snd (fresh_dynamic 1)) eq_refl eq_refl
                    fresh_holds_no_null)).
  reflexivity.
Defined.

(** ** Saving and loading through a handle *)

(** X16.  [SDL_SaveFile_IO] succeeds with one [SDL_WriteIO] call when that
    call takes all the data, and with two when the first takes a part and
    the second, made with the rest of the buffer, takes the rest. *)
Theorem SDL_SaveFile_IO_in_two_writes h data datasize s k s1 :
  0 < datasize < 2 ^ 64 ->
  SDL_WriteIO (Some h) data datasize s = (k, s1) ->
  (k = datasize ->
   forall rounds, (2 <= rounds)%nat ->
     SDL_SaveFile_IO rounds (Some h) (Some data) datasize false s = (Some true, s1)) /\
  (0 < k < datasize ->
   forall s2, SDL_WriteIO (Some h) (drop k data) (datasize - k) s1 = (datasize - k, s2) ->
   forall rounds, (3 <= rounds)%nat ->
     SDL_SaveFile_IO rounds (Some h) (Some data) datasize false s = (Some true, s2)).
Proof.
  intros Hsize Hfirst.
  assert (Hgt : (datasize >? 0) = true) by (apply Z.gtb_lt; lia).
  assert (Hlt0 : (0 <? datasize) = true) by (apply Z.ltb_lt; lia).
  split.
  - intros -> rounds Hr.
    destruct rounds as [|[|rounds]]; try lia.
    unfold SDL_SaveFile_IO. rewrite Hgt. monad_unfold.
    cbn [SDL_SaveFile_IO_loop]. monad_unfold. rewrite Hlt0.
    unfold drop. cbn [Z.to_nat skipn].
    rewrite Z.sub_0_r, to_size_t_small by lia. rewrite Hfirst.
    destruct (Z.leb_spec datasize 0); [lia|].
    rewrite Z.add_0_l, Z.ltb_irrefl. reflexivity.
  - intros Hk s2 Hsecond rounds Hr.
    destruct rounds as [|[|[|rounds]]]; try lia.
    unfold SDL_SaveFile_IO. rewrite Hgt. monad_unfold.
    cbn [SDL_SaveFile_IO_loop]. monad_unfold. rewrite Hlt0.
    unfold drop at 1. cbn [Z.to_nat skipn].
    rewrite Z.sub_0_r, to_size_t_small by lia. rewrite Hfirst.
    destruct (Z.leb_spec k 0); [lia|].
    rewrite Z.add_0_l.
    destruct (Z.ltb_spec k datasize); [|lia].
    rewrite to_size_t_small by lia. rewrite Hsecond.
    destruct (Z.leb_spec (datasize - k) 0); [lia|].
    replace (k + (datasize - k)) with datasize by lia.
    rewrite Z.ltb_irrefl. reflexivity.
Qed.

(** Two bytes saved to memory in one write, and to a descriptor that takes
    one byte at a time. *)
Lemma SDL_SaveFile_IO_in_two_writes_witness :
  fst (SDL_SaveFile_IO 2 (fst (four_bytes 0)) (Some [Byte.x01; Byte.x02]) 2 false
         (snd (four_bytes 0))) = Some true /\
  fst (SDL_SaveFile_IO 3 (Some (mkStream fd_interface)) (Some [Byte.x01; Byte.x02]) 2
         false (snd (fd_stream [wrote 1; wrote 1]))) = Some true.
Proof.
  split.
  - destruct (SDL_SaveFile_IO_in_two_writes (mkStream mem_interface)
                [Byte.x01; Byte.x02] 2 (snd (four_bytes 0)) 2 _ ltac:(lia) eq_refl)
      as [Hone _].
    exact (f_equal fst (Hone eq_refl 2%nat (le_n 2))).
  - destruct (SDL_SaveFile_IO_in_two_writes (mkStream fd_interface)
                [Byte.x01; Byte.x02] 2 (snd (fd_stream [wrote 1; wrote 1])) 1 _
                ltac:(lia) eq_refl)
      as [_ Htwo].
    exact (f_equal fst (Htwo ltac:(lia) _ eq_refl 3%nat (le_n 3))).
Defined.

Lemma SDL_malloc_eq len s p rest :
  heap_oracle s = p :: rest -> p <> 0 ->
  SDL_malloc len s = (p, set_live (set_heap_oracle s rest) (ResBuffer p len :: live s)).
Proof.
  intros Hheap Hp. apply Z.eqb_neq in Hp.
  unfold SDL_malloc, next_address, acquire. monad_unfold.
  rewrite Hheap. cbn. rewrite Hp. reflexivity.
Qed.

Lemma status_not_not_ready (c : bool) :
  SDL_IOStatus_eqb (if c then SDL_IO_STATUS_EOF else SDL_IO_STATUS_READY)
                   SDL_IO_STATUS_NOT_READY = false.
Proof. destruct c; reflexivity. Qed.

Lemma SDL_malloc_fails len s :
  hd 0 (heap_oracle s) = 0 ->
  SDL_malloc len s = (0, set_heap_oracle s (tl (heap_oracle s))).
Proof.
  intros H. unfold SDL_malloc, next_address. monad_unfold.
  destruct s as [u st pr er en m l heap os out ind]. cbn in *.
  destruct heap as [|p rest]; cbn in *; [reflexivity|]. subst p. reflexivity.
Qed.

(** X17.  [SDL_LoadFile_IO] on a fixed-memory stream returns the bytes from
    the cursor to [stop] followed by a zero byte, in a buffer of
    [stop - base + 1] bytes, stores their number in [*datasize] and leaves
    the cursor at the end; when the allocator fails it returns NULL with
    [*datasize] 0 and the stream is as it was. *)
Theorem SDL_LoadFile_IO_of_memory d s rounds :
  userdata s = UD_mem d -> region_ok d -> stop d - base d < 2 ^ 64 - 2 ->
  (2 <= rounds)%nat ->
  let p := hd 0 (heap_oracle s) in
  let content := load (memory s) (here d) (stop d - here d) in
  let r := SDL_LoadFile_IO rounds (Some (mkStream mem_interface)) false s in
  if p =? 0 then
    fst r = Some (None, 0) /\ live (snd r) = live s /\ userdata (snd r) = UD_mem d
  else
    fst r = Some (Some (mkBuffer p (stop d - base d + 1) (content ++ [Byte.x00])),
                  stop d - here d) /\
    live (snd r) = ResBuffer p (stop d - base d + 1) :: live s /\
    userdata (snd r) = UD_mem (set_here d (stop d)).
Proof.
  intros Hud Hd Hsmall Hrounds p content r.
  pose proof Hd as (Hb & Hbh & Hhs & Hs).
  set (h := mkStream mem_interface) in *.
  set (total := stop d - base d) in *.
  set (n := stop d - here d) in *.
  destruct rounds as [|[|rounds]]; try lia.
  subst r. unfold SDL_LoadFile_IO. monad_unfold.
  rewrite (SDL_GetIOSize_memory_eq h d s) by (try assumption; left; reflexivity).
  fold total.
  destruct (Z.ltb_spec total 0); [lia|].
  rewrite (to_size_t_small total), (to_size_t_small (total + 1)) by lia.
  unfold SIZE_MAX. rewrite Z.geb_leb.
  destruct (Z.leb_spec (2 ^ 64 - 1 - 1) total); [lia|].
  destruct (Z.eqb_spec p 0) as [Hp | Hp].
  { rewrite (SDL_malloc_fails _ s Hp). rewrite Z.eqb_refl.
    cbn [fst snd]. repeat split. exact Hud. }
  destruct (heap_oracle s) as [|p' rest] eqn:Hheap; [subst p; cbn in Hp; lia|].
  cbn [hd] in p. subst p.
  set (s0 := set_live (set_heap_oracle s rest) (ResBuffer p' (total + 1) :: live s)).
  assert (Hud0 : userdata s0 = UD_mem d) by exact Hud.
  (* the first read delivers what lies between the cursor and [stop] *)
  assert (Hread1 : SDL_ReadIO (Some h) total s0 =
                   (content,
                    set_userdata
                      (set_status (entry_state s0)
                         (if (0 <? total) && (n =? 0) then SDL_IO_STATUS_EOF
                          else SDL_IO_STATUS_READY))
                      (UD_mem (set_here d (stop d))))).
  { rewrite (SDL_ReadIO_of_memory h d total s0) by (try reflexivity; try assumption; lia).
    replace (Z.min total (stop d - here d)) with n by lia.
    replace (here d + n) with (stop d) by lia. reflexivity. }
  assert (Hlen : Z.of_nat (length content) = n) by (apply load_length; lia).
  rewrite (SDL_malloc_eq _ s p' rest Hheap Hp). fold s0.
  apply Z.eqb_neq in Hp. rewrite Hp.
  cbn [SDL_LoadFile_IO_loop andb]. monad_unfold.
  rewrite Z.sub_0_r, (to_size_t_small total) by lia.
  rewrite Hread1, Hlen. set (s1 := set_userdata _ _).
  unfold SDL_GetIOStatus. monad_unfold.
  destruct (Z.gtb_spec n 0) as [Hn | Hn].
  - (* some bytes: a second read meets the end *)
    rewrite Z.add_0_l.
    rewrite (to_size_t_small (total - n)) by lia.
    rewrite (SDL_ReadIO_of_memory h (set_here d (stop d)) (total - n) s1)
      by (try reflexivity; unfold region_ok; cbn [set_here base here stop]; lia).
    cbn [set_here base here stop length Z.of_nat].
    replace (Z.min (total - n) (stop d - stop d)) with 0 by lia.
    rewrite load_nothing by lia. cbn [length Z.of_nat Z.gtb Z.compare].
    cbn [status set_userdata set_status]. rewrite status_not_not_ready.
    cbn [fst snd]. unfold store_at. cbn [buf_addr buf_len buf_bytes].
    unfold take at 2. cbn [Z.to_nat firstn app].
    rewrite <- Hlen, take_all, Z.add_0_r.
    repeat split.
  - (* the cursor was at the end *)
    assert (Hn0 : n = 0) by lia. subst s1.
    cbn [status set_userdata set_status]. rewrite status_not_not_ready.
    cbn [fst snd]. unfold store_at. cbn [buf_addr buf_len buf_bytes].
    unfold take. cbn [Z.to_nat firstn app].
    assert (Hc : content = []) by (apply length_zero_nil; lia).
    rewrite Hc, Hn0. cbn [app].
    repeat split.
Qed.

(** X18.  When a stream of unknown size delivered some bytes and the buffer
    cannot be grown for the next chunk, [SDL_LoadFile_IO] frees the buffer
    and returns NULL, while [*datasize] holds the number of bytes that had
    been read. *)
Theorem SDL_LoadFile_IO_failing_growth rounds bs rest p e d s :
  os_oracle s = failed_with e :: delivered bs :: rest ->
  heap_oracle s = [p] -> p <> 0 ->
  bs <> [] -> Z.of_nat (length bs) <= FILE_CHUNK_SIZE ->
  userdata s = UD_fd d ->
  let r := SDL_LoadFile_IO (S (S rounds)) (Some (mkStream fd_interface)) false s in
  fst r = Some (None, Z.of_nat (length bs)) /\
  live (snd r) = live s /\
  os_oracle (snd r) = rest.
Proof.
  intros Hos Hheap Hp Hbs Hlen Hud r. subst r.
  assert (Htake : take 1024 bs = bs).
  { unfold take. apply firstn_all2. unfold FILE_CHUNK_SIZE in Hlen. lia. }
  destruct bs as [|b bs]; [contradiction|].
  apply Z.eqb_neq in Hp.
  unfold SDL_LoadFile_IO. cbn [SDL_LoadFile_IO_loop].
  unfold SDL_GetIOSize, SDL_SeekIO, SDL_ReadIO, SDL_GetIOStatus, SDL_ClearError,
    SDL_GetError_nonempty, SDL_realloc, SDL_free_buffer, SDL_malloc, next_address,
    acquire, release.
  cbn [iface size seek read fd_interface].
  unfold on_userdata, fd_seek, fd_read, do_while_eintr, sys_value, sys_read, oscall,
    SDL_SetError, failed_with, delivered in *.
  monad_unfold.
  destruct s as [u st pr er en m l heap os out ind]. cbn in Hos, Hheap, Hud. subst.
  do 3 (cbn -[take remove_first]; rewrite ?Hp).
  rewrite Htake. cbn -[take remove_first].
  change (Z.pos (Pos.of_succ_nat (length bs) + 1024))
    with (Z.of_nat (length (b :: bs)) + 1024).
  change (Z.pos (Pos.of_succ_nat (length bs)))
    with (Z.of_nat (length (b :: bs))).
  set (k := Z.of_nat (length (b :: bs))) in *.
  assert (Hk : 0 < k) by (subst k; cbn [length]; lia).
  unfold FILE_CHUNK_SIZE in *.
  destruct (Z.gtb_spec (k + 1024) 1024); [|lia].
  rewrite (to_size_t_small (k + 1024)) by lia. rewrite Z.geb_leb.
  destruct (Z.leb_spec 18446744073709551614 (k + 1024)); [lia|].
  cbn -[remove_first]. rewrite Z.eqb_refl, remove_first_head.
  repeat split.
Qed.

Lemma SDL_LoadFile_IO_of_memory_witness :
  fst (SDL_LoadFile_IO 2 (fst (four_bytes 1)) false (snd (four_bytes 1))) =
    Some (Some (mkBuffer 4096 5 [Byte.x34; Byte.x56; Byte.x78; Byte.x00]), 3).
Proof.
  exact (proj1 (SDL_LoadFile_IO_of_memory (at_byte 1) (snd (four_bytes 1)) 2
                  eq_refl (at_byte_ok 1 ltac:(lia)) ltac:(cbn; lia) (le_n 2))).
Defined.

Lemma SDL_LoadFile_IO_failing_growth_witness :
  fst (SDL_LoadFile_IO 2 (Some (mkStream fd_interface)) false short_of_memory)
    = Some (None, 1) /\
  live (snd (SDL_LoadFile_IO 2 (Some (mkStream fd_interface)) false short_of_memory))
    = [ResFd 3].
Proof.
  destruct (SDL_LoadFile_IO_failing_growth 0 [Byte.x61] [] 4096 29
              (mkFDData 3 false false) short_of_memory
              eq_refl eq_refl ltac:(discriminate) ltac:(discriminate)
              ltac:(unfold FILE_CHUNK_SIZE; cbn; lia) eq_refl)
    as (H1 & H2 & _).
  split; [exact H1 | exact H2].
Defined.

(** ** Descriptors and stdio files *)















(** X22.  On a stdio stream, a transfer that fails while [ferror] reports
    an error returns no byte; [SDL_ReadIO] and [SDL_WriteIO] then leave the
    status NotReady and no message when [errno] is [EAGAIN], and the status
    Error with a message otherwise. *)
Theorem stdio_stream_failure_is_classified range size s a1 a2 rest :
  os_oracle s = a1 :: a2 :: rest ->
  os_ret a1 < 0 ->
  os_ret a2 = 0 -> os_flag a2 = true ->
  size <> 0 ->
  let h := Some (mkStream (stdio_interface range)) in
  let would_block := os_errno a1 =? EAGAIN in
  let outcome (s' : State) :=
    status s' = (if would_block then SDL_IO_STATUS_NOT_READY else SDL_IO_STATUS_ERROR) /\
    has_message s' = negb would_block /\
    os_oracle s' = rest /\ os_out s' = os_out s in
  (fst (SDL_ReadIO h size s) = [] /\ outcome (snd (SDL_ReadIO h size s))) /\
  (forall ptr,
     fst (SDL_WriteIO h ptr size s) = 0 /\ outcome (snd (SDL_WriteIO h ptr size s))).
Proof.
  intros Hos Hfail Hret Hflag Hsize h would_block outcome.
  subst h outcome would_block. apply Z.eqb_neq in Hsize.
  destruct a1 as [r1 e1 b1 f1], a2 as [r2 e2 b2 f2]. cbn in Hfail, Hret, Hflag. subst.
  apply Z.ltb_lt in Hfail.
  split; [|intros ptr];
    unfold SDL_ReadIO, SDL_WriteIO, SDL_ClearError, SDL_GetError_nonempty;
    cbn [iface read write stdio_interface];
    unfold on_userdata, stdio_read, stdio_write, sys_fread, sys_fwrite, sys_read,
      sys_write, sys_test, oscall, SDL_SetError, has_message;
    monad_unfold; rewrite Hsize;
    destruct s as [u st pr er en m l heap os out ind]; cbn in Hos; subst os;
    cbn -[EAGAIN]; rewrite Hfail; cbn -[EAGAIN];
    destruct (e1 =? EAGAIN); cbn; repeat split.
Qed.

(** A stdio stream that would block. *)
Lemma stdio_stream_failure_is_classified_witness :
  let s := snd (stdio_stream [would_block; mkOs 0 0 [] true]) in
  let h := fst (stdio_stream [would_block; mkOs 0 0 [] true]) in
  fst (SDL_ReadIO h 8 s) = [] /\
  status (snd (SDL_ReadIO h 8 s)) = SDL_IO_STATUS_NOT_READY /\
  fst (SDL_WriteIO h [Byte.x01] 1 s) = 0 /\
  status (snd (SDL_WriteIO h [Byte.x01] 1 s)) = SDL_IO_STATUS_NOT_READY.
Proof.
  destruct (stdio_stream_failure_is_classified None 8
              (snd (stdio_stream [would_block; mkOs 0 0 [] true]))
              would_block (mkOs 0 0 [] true) []
              eq_refl ltac:(cbn; lia) eq_refl eq_refl ltac:(lia))
    as [(R1 & R2 & _) _].
  destruct (stdio_stream_failure_is_classified None 1
              (snd (stdio_stream [would_block; mkOs 0 0 [] true]))
              would_block (mkOs 0 0 [] true) []
              eq_refl ltac:(cbn; lia) eq_refl eq_refl ltac:(lia))
    as [_ Hw].
  destruct (Hw [Byte.x01]) as (W1 & W2 & _).
  cbv zeta. split; [exact R1|]. split; [exact R2|]. split; [exact W1 | exact W2].
Defined.


(** X24.  On a stdio stream a seek whose offset lies outside the offsets
    [fseek] takes is refused with -1 and the message "Seek offset out of
    range" before any library call is made, and [SDL_TellIO] makes a single
    call, [ftell], whose result it returns (-1 when it is negative). *)
Theorem stdio_seek_outcome range s :
  let h := Some (mkStream (stdio_interface range)) in
  (forall lo hi offset whence,
     range = Some (lo, hi) -> offset < lo \/ hi < offset ->
     SDL_SeekIO h offset whence s = (-1, set_error s "Seek offset out of range")) /\
  (forall a rest,
     os_oracle s = a :: rest -> zero_in_range range ->
     fst (SDL_TellIO h s) = (if os_ret a <? 0 then -1 else os_ret a) /\
     os_oracle (snd (SDL_TellIO h s)) = rest).
Proof.
  cbv zeta. split.
  - intros lo hi offset whence -> Hout.
    unfold SDL_SeekIO. cbn [iface seek stdio_interface].
    unfold on_userdata, stdio_seek, SDL_SetError. monad_unfold.
    assert (E : (offset <? lo) || (offset >? hi) = true).
    { rewrite Z.gtb_ltb. apply orb_true_iff.
      destruct Hout; [left; apply Z.ltb_lt | right; apply Z.ltb_lt]; assumption. }
    rewrite E. reflexivity.
  - intros a rest Hos Hzero.
    unfold SDL_TellIO, SDL_SeekIO. cbn [iface seek stdio_interface].
    unfold on_userdata, stdio_seek, sys_value, oscall, SDL_SetError. monad_unfold.
    assert (E : match range with
                | Some (lo, hi) => (0 <? lo) || (0 >? hi)
                | None => false
                end = false).
    { destruct range as [[lo hi]|]; [|reflexivity]. cbn in Hzero.
      rewrite Z.gtb_ltb. apply orb_false_iff.
      split; apply Z.ltb_ge; lia. }
    rewrite E. cbn [Z.eqb].
    destruct s as [u st pr er en m l heap os out ind]. cbn in Hos. subst os.
    cbn. destruct (os_ret a <? 0) eqn:Ea; cbn; rewrite ?Ea; cbn; split; reflexivity.
Qed.



(** Offsets from -5 to 5 allowed: a seek to 6, and the position 42. *)
Lemma stdio_seek_outcome_witness :
  let h := Some (mkStream (stdio_interface (Some (-5, 5)))) in
  let s := snd (stdio_stream [wrote 42]) in
  fst (SDL_SeekIO h 6 SDL_IO_SEEK_SET s) = -1 /\
  os_oracle (snd (SDL_SeekIO h 6 SDL_IO_SEEK_SET s)) = [wrote 42] /\
  fst (SDL_TellIO h s) = 42.
Proof.
  cbv zeta.
  destruct (stdio_seek_outcome (Some (-5, 5)) (snd (stdio_stream [wrote 42])))
    as [Hrange Htell].
  rewrite (Hrange (-5) 5 6 SDL_IO_SEEK_SET eq_refl ltac:(right; lia)).
  split; [reflexivity|]. split; [reflexivity|].
  exact (proj1 (Htell (wrote 42) [] eq_refl ltac:(cbn; lia))).
Defined.


(** ** Opening, loading and saving named files *)

Lemma keeps_bind {A B} (m : M A) (k : A -> M B) :
  keeps_os_out m -> (forall a, keeps_os_out (k a)) -> keeps_os_out (bind m k).
Proof.
  intros Hm Hk s. unfold bind. specialize (Hm s).
  destruct (m s) as [a s1]. cbn [snd] in *. rewrite Hk. exact Hm.
Qed.

Lemma keeps_ret {A} (a : A) : keeps_os_out (ret a).
Proof. intros s. reflexivity. Qed.

Lemma keeps_if {A} (c : bool) (m1 m2 : M A) :
  keeps_os_out m1 -> keeps_os_out m2 -> keeps_os_out (if c then m1 else m2).
Proof. destruct c; auto. Qed.

Lemma keeps_oscall : keeps_os_out oscall.
Proof.
  intros s. unfold oscall. destruct (os_oracle s) as [|r rest]; [reflexivity|].
  destruct (os_ret r <? 0); reflexivity.
Qed.

Lemma keeps_next_address : keeps_os_out next_address.
Proof. intros s. unfold next_address. destruct (heap_oracle s); reflexivity. Qed.

Lemma keeps_modify f : (forall s, os_out (f s) = os_out s) -> keeps_os_out (modify f).
Proof. intros H s. apply H. Qed.

Lemma keeps_get : keeps_os_out get.
Proof. intros s. reflexivity. Qed.

Lemma keeps_sys_fopen : keeps_os_out sys_fopen.
Proof.
  intros s. unfold sys_fopen. destruct (os_oracle s) as [|r rest]; [reflexivity|].
  destruct (os_ret r =? 0); reflexivity.
Qed.

Ltac keeps :=
  repeat first
    [ apply keeps_bind; [|intros ?]
    | apply keeps_ret
    | apply keeps_oscall
    | apply keeps_next_address
    | apply keeps_sys_fopen
    | apply keeps_get
    | apply keeps_modify; intros ?; reflexivity
    | apply keeps_if
    | match goal with
      | |- keeps_os_out (match ?x with _ => _ end) => destruct x
      end ].

Lemma keeps_SDL_SetError msg : keeps_os_out (SDL_SetError msg).
Proof. unfold SDL_SetError. keeps. Qed.

Lemma keeps_sys_close r : keeps_os_out (sys_close r).
Proof. unfold sys_close, sys_value, release. keeps. Qed.

Lemma keeps_SDL_OpenIO i ud : keeps_os_out (SDL_OpenIO i ud).
Proof.
  unfold SDL_OpenIO, SDL_InvalidParamError, SDL_SetError, SDL_calloc, acquire. keeps.
Qed.

Lemma keeps_SDL_IOFromFP range fp autoclose :
  keeps_os_out (SDL_IOFromFP range fp autoclose).
Proof.
  unfold SDL_IOFromFP, SDL_calloc, acquire, stdio_close, SDL_free, release, sys_value,
    sys_test.
  keeps; try apply keeps_sys_close; try apply keeps_SDL_OpenIO;
    try apply keeps_SDL_SetError; keeps.
Qed.

Lemma keeps_SDL_IOFromFile range strerror file mode :
  keeps_os_out (SDL_IOFromFile range strerror file mode).
Proof.
  unfold SDL_IOFromFile, SDL_InvalidParamError, IsRegularFileOrPipe, sys_value.
  keeps; try apply keeps_sys_close; try apply keeps_SDL_SetError;
    try apply keeps_SDL_IOFromFP; keeps.
Qed.

Lemma SDL_IOFromFile_handle range strerror file mode s h s' :
  SDL_IOFromFile range strerror file mode s = (Some h, s') -> h = mkStream zero_iface.
Proof.
  intros H. unfold SDL_IOFromFile in H.
  constructor_steps H.
  apply constructed_has_no_functions.
  exact (from_fp h range _ true _ _ H).
Qed.

(** X26.  When [SDL_IOFromFile] returns NULL (and the environment's calls
    after [fopen] succeed) the process holds what it held before: a file
    that was opened is closed again, whether it turned out not to be a
    regular file or pipe or the stream could not be allocated. *)
Theorem SDL_IOFromFile_fails_cleanly range strerror file mode s :
  calls_succeed_after_open s ->
  fst (SDL_IOFromFile range strerror file mode s) = None ->
  live (snd (SDL_IOFromFile range strerror file mode s)) = live s.
Proof.
  intros Hos. unfold SDL_IOFromFile.
  destruct (null_or_empty file); [intros _; reflexivity|].
  destruct (null_or_empty mode); [intros _; reflexivity|].
  unfold calls_succeed_after_open in Hos.
  cbv beta iota delta [bind].
  assert (Hopen : sys_fopen s =
            match os_oracle s with
            | [] => (0, set_errno s EIO)
            | r :: rest =>
                if os_ret r =? 0
                then (0, set_os_oracle (set_errno s (os_errno r)) rest)
                else (os_ret r,
                      set_live (set_os_oracle s rest) (ResFile (os_ret r) :: live s))
            end) by reflexivity.
  rewrite Hopen. clear Hopen.
  destruct (os_oracle s) as [|r rest] eqn:Hor; [intros _; reflexivity|].
  destruct (Z.eqb_spec (os_ret r) 0) as [Hz | Hnz].
  - rewrite Z.eqb_refl. intros _. reflexivity.
  - apply Z.eqb_neq in Hnz. rewrite Hnz.
    destruct Hos as [Hall Hlen].
    destruct rest as [|[r1 e1 b1 f1] [|[r2 e2 b2 f2] rest2]]; cbn in Hlen; try lia.
    inversion Hall as [|? ? H1 Hall1]; subst.
    inversion Hall1 as [|? ? H2 Hall2]; subst.
    cbn in H1, H2. subst r1 r2.
    set (s2 := set_os_oracle
                 (set_live (set_os_oracle s (mkOs 0 e1 b1 f1 :: mkOs 0 e2 b2 f2 :: rest2))
                           (ResFile (os_ret r) :: live s))
                 rest2).
    assert (Hreg : IsRegularFileOrPipe (os_ret r)
                     (set_live (set_os_oracle s (mkOs 0 e1 b1 f1 :: mkOs 0 e2 b2 f2 :: rest2))
                               (ResFile (os_ret r) :: live s))
                   = (f2, s2)).
    { unfold IsRegularFileOrPipe, sys_value, oscall. monad_unfold.
      cbn. destruct f2; reflexivity. }
    rewrite Hreg.
    assert (Hs2 : calls_succeed s2).
    { split; [exact Hall2 | subst s2; cbn; lia]. }
    destruct f2; cbn [negb].
    + intros Hnone.
      rewrite (SDL_IOFromFP_fails_cleanly range (os_ret r) true s2 Hs2 Hnone).
      subst s2. cbn [live set_os_oracle set_live]. apply remove_first_head.
    + intros _.
      destruct (calls_succeed_inv s2 Hs2)
        as (e3 & b3 & f3 & e4 & b4 & f4 & e5 & b5 & f5 & rest5 & Hor2).
      unfold sys_close, sys_value, oscall, SDL_SetError, release. monad_unfold.
      rewrite Hor2. cbn -[remove_first]. subst s2. cbn -[remove_first].
      apply remove_first_head.
Qed.

(** Opening a directory. *)
Lemma SDL_IOFromFile_fails_cleanly_witness :
  fst (SDL_IOFromFile None (fun _ => "") (Some "saves") (Some "rb") opens_a_directory)
    = None /\
  live (snd (SDL_IOFromFile None (fun _ => "") (Some "saves") (Some "rb")
               opens_a_directory)) = [] /\
  error (snd (SDL_IOFromFile None (fun _ => "") (Some "saves") (Some "rb")
                opens_a_directory)) = "saves is not a regular file or pipe".
Proof.
  split; [reflexivity|]. split; [|reflexivity].
  apply (SDL_IOFromFile_fails_cleanly None (fun _ => "") (Some "saves") (Some "rb")
           opens_a_directory).
  - split; [repeat constructor | cbn; lia].
  - reflexivity.
Defined.

(** Loading through a handle without functions: no byte is read. *)
Lemma SDL_LoadFile_IO_without_functions rounds closeio s :
  let r := SDL_LoadFile_IO (S rounds) (Some (mkStream zero_iface)) closeio s in
  os_out (snd r) = os_out s /\
  (fst r = Some (None, 0) \/
   exists p, fst r = Some (Some (mkBuffer p 1025 [Byte.x00]), 0)).
Proof.
  cbv zeta. unfold SDL_LoadFile_IO. cbn [SDL_LoadFile_IO_loop].
  unfold SDL_GetIOSize, SDL_SeekIO, SDL_ReadIO, SDL_GetIOStatus, SDL_CloseIO,
    SDL_Unsupported, SDL_SetError, SDL_malloc, SDL_free, next_address, acquire, release.
  cbn [iface size seek read close zero_iface]. monad_unfold.
  cbn -[remove_first]. 
  destruct s as [u st pr er en m l heap os out ind].
  cbn -[remove_first]. destruct heap as [|p heap]; cbn -[remove_first].
  - destruct closeio; cbn -[remove_first]; split; auto.
  - destruct (p =? 0) eqn:Ep; cbn -[remove_first]; rewrite ?Ep; cbn -[remove_first].
    + destruct closeio; cbn -[remove_first]; split; auto.
    + destruct closeio; cbn -[remove_first]; (split; [reflexivity|]);
        right; exists p; reflexivity.
Qed.

(** X27.  [_SDL_LoadFile] never returns a byte of the file: whatever the
    file and the environment, it returns NULL with [*datasize] 0, or a
    buffer of 1025 bytes that holds the terminating zero only, with
    [*datasize] 0 (the handle it loads through has no read function). *)
Theorem SDL_LoadFile_never_returns_content range strerror rounds file s :
  let r := _SDL_LoadFile range strerror (S rounds) file s in
  fst r = Some (None, 0) \/
  exists p, fst r = Some (Some (mkBuffer p 1025 [Byte.x00]), 0).
Proof.
  cbv zeta. unfold _SDL_LoadFile. cbv beta iota delta [bind].
  destruct (SDL_IOFromFile range strerror file (Some "rb") s) as [[h|] s1] eqn:E.
  - apply SDL_IOFromFile_handle in E. subst h.
    apply SDL_LoadFile_IO_without_functions.
  - left. reflexivity.
Qed.

(** Saving through a handle without functions: the first write is refused
    and the answer is false. *)
Lemma SDL_SaveFile_IO_without_functions rounds data datasize closeio s :
  0 < datasize ->
  let r := SDL_SaveFile_IO (S rounds) (Some (mkStream zero_iface)) (Some data)
             datasize closeio s in
  fst r = Some false /\ os_out (snd r) = os_out s.
Proof.
  intros Hsize. cbv zeta. unfold SDL_SaveFile_IO. cbn [SDL_SaveFile_IO_loop].
  apply Z.gtb_lt in Hsize. rewrite Hsize. apply Z.gtb_lt, Z.ltb_lt in Hsize.
  unfold SDL_WriteIO, SDL_GetIOStatus, SDL_CloseIO, SDL_Unsupported, SDL_SetError,
    SDL_free, release.
  cbn [iface write close zero_iface]. monad_unfold. rewrite Hsize.
  cbn -[remove_first]. destruct closeio; split; reflexivity.
Qed.

(** X28.  [SDL_SaveFile] of at least one byte always answers false and no
    byte reaches the environment (the handle it saves through has no write
    function). *)
Theorem SDL_SaveFile_never_writes range strerror rounds file data datasize s :
  0 < datasize ->
  let r := SDL_SaveFile range strerror (S rounds) file (Some data) datasize s in
  fst r = Some false /\ os_out (snd r) = os_out s.
Proof.
  intros Hsize. cbv zeta. unfold SDL_SaveFile. cbv beta iota delta [bind].
  pose proof (keeps_SDL_IOFromFile range strerror file (Some "wb") s) as Hout.
  destruct (SDL_IOFromFile range strerror file (Some "wb") s) as [[h|] s1] eqn:E;
    cbn [snd] in Hout.
  - apply SDL_IOFromFile_handle in E. subst h.
    destruct (SDL_SaveFile_IO_without_functions rounds data datasize true s1 Hsize)
      as [H1 H2].
    split; [exact H1 | rewrite H2; exact Hout].
  - split; [reflexivity | exact Hout].
Qed.

(** One byte saved to a name. *)
Lemma SDL_SaveFile_never_writes_witness :
  fst (SDL_SaveFile None (fun _ => "") 1 (Some "save.dat") (Some [Byte.x01]) 1
         opens_a_directory) = Some false.
Proof.
  exact (proj1 (SDL_SaveFile_never_writes None (fun _ => "") 0 (Some "save.dat")
                  [Byte.x01] 1 opens_a_directory ltac:(lia))).
Defined.
